(** * restic-backup-checker: the monitoring engine

    A shallow embedding of the check cycle of
    [internal/monitor] ([CheckOnce], [checkClientBackup],
    [sendNotifications], [refreshTokenIfNeeded], [monitoringLoop]) and of
    the two [onedrive.Client] methods it is built on ([GetAllSnapshots],
    [CheckTodayBackups]).

    The functions that perform network or file I/O themselves
    ([Client.GetSubfolders], [Client.GetFolderContents],
    [Authenticator.RefreshToken], [Config.Save], the two [telegram.Client]
    senders) and [time.Now] are calls answered by the environment: a program
    is a tree of such calls, and it is run against an oracle that may answer
    every call differently, depending on everything that happened before.
    A listing can also end in a panic instead of an answer; the cycle is run
    against such an environment by [runHost].
    Calls to the [logger] package have no influence on control flow or on
    any value and are left out. *)

From Stdlib Require Import ZArith List String Bool Lia Permutation.
Import ListNotations.
Open Scope Z_scope.

(** ** The part of package [time] the monitor uses

    A [Time] is an instant, counted in nanoseconds from Go's zero time
    (January 1, year 1, 00:00:00 UTC), together with the location it is
    presented in.  The instant is kept as a mathematical integer: the
    int64 second counter of Go covers every instant RFC 3339 can name.
    Where the code goes from a count of Unix seconds to an instant and back,
    the sum is an int64 sum and wraps. *)
Module GoTime.

Inductive Location : Type :=
| UTCLoc
| Local
| FixedZone (name : string) (offset : Z).

Record Time : Type := mkTime { ns : Z; loc : Location }.

Definition Duration : Type := Z.

Definition Nanosecond : Duration := 1.
Definition Second : Duration := 1000000000 * Nanosecond.
Definition Minute : Duration := 60 * Second.
Definition Hour : Duration := 60 * Minute.

(** seconds from the zero time to January 1, 1970 UTC *)
Definition unixToInternal : Z := (1969 * 365 + 1969 / 4 - 1969 / 100 + 1969 / 400) * 86400.

(** the zero value [time.Time{}] *)
Definition zeroTime : Time := mkTime 0 UTCLoc.

Definition UTC (t : Time) : Time := mkTime (ns t) UTCLoc.

(** [t.Truncate(d)]: rounds the instant down to a multiple of [d] since the
    zero time; [d <= 0] returns [t] unchanged. *)
Definition Truncate (d : Duration) (t : Time) : Time :=
  if d <=? 0 then t else mkTime (ns t - ns t mod d) (loc t).

Definition Add (t : Time) (d : Duration) : Time := mkTime (ns t + d) (loc t).

Definition Equal (t u : Time) : bool := ns t =? ns u.
Definition After (t u : Time) : bool := ns u <? ns t.
Definition Before (t u : Time) : bool := ns t <? ns u.
Definition IsZero (t : Time) : bool := ns t =? 0.

(** [int64(z)]: what a sum or a product of int64 values wraps to *)
Definition wrap64 (z : Z) : Z := (z + 2 ^ 63) mod 2 ^ 64 - 2 ^ 63.

(** the instants a [time.Time] holds: its count of seconds is an int64 *)
Definition representable (t : Time) : Prop := - 2 ^ 63 <= ns t / Second < 2 ^ 63.

(** [time.Unix(sec, 0)]: the seconds since the zero time are the int64 sum
    [sec + unixToInternal] *)
Definition Unix (sec : Z) : Time := mkTime (wrap64 (sec + unixToInternal) * Second) Local.

(** [t.Unix()]: the int64 sum of the seconds since the zero time and
    [internalToUnix] *)
Definition toUnix (t : Time) : Z := wrap64 (ns t / Second - unixToInternal).

End GoTime.
Import GoTime.

(** ** Data *)

(** [onedrive.Folder] *)
Record Folder : Type := mkFolder {
  folder_ID : string;
  folder_Name : string;
  folder_Size : Z
}.

(** [onedrive.FileInfo] *)
Record FileInfo : Type := mkFileInfo {
  ID : string;
  Name : string;
  Size : Z;
  CreatedTime : Time;
  ModifiedTime : Time
}.

(** [oauth2.Token], the fields the monitor fills and reads *)
Record Token : Type := mkToken {
  tok_AccessToken : string;
  tok_RefreshToken : string;
  tok_Expiry : Time
}.

(** [config.OneDriveConfig] and [config.MonitoringConfig] *)
Record Config : Type := mkConfig {
  AccessToken : string;
  RefreshToken : string;
  TokenExpiry : Z;
  MonitorPaths : list string;
  CheckInterval : Z;
  Enabled : bool
}.

(** Go [error] values.  [ErrExternal] is an error handed back by one of the
    environment's calls; the others are built by the [fmt.Errorf] calls of
    the embedded functions, [%w] keeping the wrapped error. *)
Inductive error : Type :=
| ErrExternal (msg : string)
| ErrGetSubfoldersFor (folderID : string) (cause : error)
| ErrSnapshotsNotFound (folderID : string) (folderNames : list string)
| ErrGetSnapshotFiles (snapshotsFolderID : string) (cause : error)
| ErrNoTokenExpiry
| ErrRefreshFailed (cause : error)
| ErrCheckRefresh (cause : error)
| ErrTelegramNotInitialized.

(** a Go result pair [(v, err)] in which [v] is only read when [err == nil] *)
Inductive result (A : Type) : Type :=
| Ok (v : A)
| Err (e : error).
Arguments Ok {A} v.
Arguments Err {A} e.

(** [monitor.BackupStatus] *)
Record BackupStatus : Type := mkStatus {
  ClientName : string;
  FolderPath : string;
  HasBackup : bool;
  FileCount : Z;
  LastBackup : Time;
  Error : option error
}.

(** ** Programs over the environment's calls *)

(** [onedrive.Client]: what [NewClient] is given *)
Record Client : Type := mkClient { accessToken : string }.

Definition NewClient (accessToken : string) : Client := mkClient accessToken.

(** what the [select] of [monitoringLoop] receives: a tick of the ticker or
    the closing of [stopChan] *)
Inductive Signal : Type :=
| Tick
| Stop.

Inductive call : Type :=
| Now
| Select
| GetSubfolders (c : Client) (folderID : string)
| GetFolderContents (c : Client) (folderID : string)
| RefreshTokenCall (token : Token)
| Save (cfg : Config)
| SendBackupAlert (clientName folderPath lastBackupTime : string)
| SendSummaryReport (totalClients successCount failedCount : Z)
                    (failedClients : list string).

(** what a call that returns gives back (how a listing ends when it does
    not return is in [ending]) *)
Definition answer (c : call) : Type :=
  match c with
  | Now => Time
  | Select => Signal
  | GetSubfolders _ _ => result (list Folder)
  | GetFolderContents _ _ => result (list FileInfo)
  | RefreshTokenCall _ => result Token
  | Save _ => option error
  | SendBackupAlert _ _ _ => option error
  | SendSummaryReport _ _ _ _ => option error
  end.

(** one call together with the answer it got *)
Record event : Type := Ev { ev_call : call; ev_answer : answer ev_call }.

Inductive prog (A : Type) : Type :=
| Ret (a : A)
| Do (c : call) (k : answer c -> prog A).
Arguments Ret {A} a.
Arguments Do {A} c k.

Fixpoint bind {A B : Type} (p : prog A) (f : A -> prog B) : prog B :=
  match p with
  | Ret a => f a
  | Do c k => Do c (fun r => bind (k r) f)
  end.

Definition perform (c : call) : prog (answer c) := Do c Ret.

Declare Scope prog_scope.
Delimit Scope prog_scope with prog.
Notation "x <- p ;; q" := (bind p (fun x => q))
  (at level 100, p at next level, right associativity) : prog_scope.
Notation "' pat <- p ;; q" := (bind p (fun x => match x with pat => q end))
  (at level 100, pat pattern, p at next level, right associativity) : prog_scope.
Open Scope prog_scope.

(** The environment: the answer to a call may depend on every call and
    answer before it. *)
Definition Oracle : Type := list event -> forall c : call, answer c.

(** [run o p h] runs [p] after the history [h]; it gives the value of [p] and
    the events [p] added, oldest first. *)
Fixpoint run {A : Type} (o : Oracle) (p : prog A) (h : list event) : A * list event :=
  match p with
  | Ret a => (a, [])
  | Do c k =>
      let r := o h c in
      let '(a, t) := run o (k r) (h ++ [Ev c r]) in
      (a, Ev c r :: t)
  end.

(** ** [onedrive.Client]: snapshot listing and the freshness test *)

(** the loop of [GetAllSnapshots] that looks for the folder named
    [snapshots]: the ID of the first one, the empty string when there is
    none *)
Fixpoint findSnapshotsFolderID (subfolders : list Folder) : string :=
  match subfolders with
  | [] => EmptyString
  | folder :: rest =>
      if String.eqb (folder_Name folder) "snapshots"%string then folder_ID folder
      else findSnapshotsFolderID rest
  end.

Definition GetAllSnapshots (c : Client) (folderID : string) : prog (result (list FileInfo)) :=
  r <- perform (GetSubfolders c folderID) ;;
  match r with
  | Err err => Ret (Err (ErrGetSubfoldersFor folderID err))
  | Ok subfolders =>
      let folderNames := map folder_Name subfolders in
      let snapshotsFolderID := findSnapshotsFolderID subfolders in
      if String.eqb snapshotsFolderID EmptyString then
        Ret (Err (ErrSnapshotsNotFound folderID folderNames))
      else
        r2 <- perform (GetFolderContents c snapshotsFolderID) ;;
        match r2 with
        | Err err => Ret (Err (ErrGetSnapshotFiles snapshotsFolderID err))
        | Ok files => Ret (Ok files)
        end
  end.

(** the test in the loop of [CheckTodayBackups] *)
Definition createdToday (today : Time) (file : FileInfo) : bool :=
  let fileDate := Truncate (24 * Hour) (UTC (CreatedTime file)) in
  Equal fileDate today.

(** the loop of [CheckTodayBackups], [todayFiles] being the slice built so
    far *)
Fixpoint collectToday (today : Time) (allFiles todayFiles : list FileInfo) : list FileInfo :=
  match allFiles with
  | [] => todayFiles
  | file :: rest =>
      if createdToday today file
      then collectToday today rest (todayFiles ++ [file])
      else collectToday today rest todayFiles
  end.

Definition len {A : Type} (l : list A) : Z := Z.of_nat (List.length l).

Definition CheckTodayBackups (c : Client) (folderID : string)
  : prog (bool * list FileInfo * option error) :=
  r <- GetAllSnapshots c folderID ;;
  match r with
  | Err err => Ret (false, [], Some err)
  | Ok allFiles =>
      now <- perform Now ;;
      let today := Truncate (24 * Hour) (UTC now) in
      let todayFiles := collectToday today allFiles [] in
      Ret (0 <? len todayFiles, todayFiles, None)
  end.

(** ** [monitor]: one client *)

(** the loop of [checkClientBackup] that finds the latest creation time *)
Fixpoint latestLoop (allFiles : list FileInfo) (latestBackup : Time) : Time :=
  match allFiles with
  | [] => latestBackup
  | file :: rest =>
      if After (CreatedTime file) latestBackup
      then latestLoop rest (CreatedTime file)
      else latestLoop rest latestBackup
  end.

Definition checkClientBackup (client : Client) (folderID clientName : string)
  : prog BackupStatus :=
  let status := mkStatus clientName folderID false 0 zeroTime None in
  '(hasBackup, recentFiles, err) <- CheckTodayBackups client folderID ;;
  match err with
  | Some e =>
      Ret (mkStatus (ClientName status) (FolderPath status) (HasBackup status)
                    (FileCount status) (LastBackup status) (Some e))
  | None =>
      let status := mkStatus (ClientName status) (FolderPath status) hasBackup
                             (len recentFiles) (LastBackup status) (Error status) in
      r <- GetAllSnapshots client folderID ;;
      match r with
      | Err _ => Ret status
      | Ok allFiles =>
          let latestBackup := latestLoop allFiles zeroTime in
          Ret (mkStatus (ClientName status) (FolderPath status) (HasBackup status)
                        (FileCount status) latestBackup (Error status))
      end
  end.

(** ** [monitor]: the credential check *)

Definition refreshTokenIfNeeded (cfg : Config) : prog (option error * Config) :=
  if TokenExpiry cfg =? 0 then Ret (Some ErrNoTokenExpiry, cfg)
  else
    let expiry := Unix (TokenExpiry cfg) in
    now <- perform Now ;;
    if Before now (Add expiry (-10 * Minute)) then Ret (None, cfg)
    else
      let token := mkToken (AccessToken cfg) (RefreshToken cfg) expiry in
      r <- perform (RefreshTokenCall token) ;;
      match r with
      | Err err => Ret (Some (ErrRefreshFailed err), cfg)
      | Ok newToken =>
          let cfg' := mkConfig (tok_AccessToken newToken) (tok_RefreshToken newToken)
                               (toUnix (tok_Expiry newToken))
                               (MonitorPaths cfg) (CheckInterval cfg) (Enabled cfg) in
          _ <- perform (Save cfg') ;;
          Ret (None, cfg')
      end.

(** ** [monitor]: the cycle *)

(** the local variables of [CheckOnce]; the two [int] counters never exceed
    the length of [statuses], a slice held in memory, so they do not wrap *)
Record Cycle : Type := mkCycle {
  statuses : list BackupStatus;
  successCount : Z;
  failedCount : Z;
  failedClients : list string
}.

Definition emptyCycle : Cycle := mkCycle [] 0 0 [].

(** the body of the inner loop of [CheckOnce], after [checkClientBackup] *)
Definition record (st : Cycle) (status : BackupStatus) : Cycle :=
  let statuses' := statuses st ++ [status] in
  match Error status with
  | Some _ =>
      mkCycle statuses' (successCount st) (failedCount st + 1)
              (failedClients st ++ [ClientName status])
  | None =>
      if HasBackup status
      then mkCycle statuses' (successCount st + 1) (failedCount st) (failedClients st)
      else mkCycle statuses' (successCount st) (failedCount st + 1)
                   (failedClients st ++ [ClientName status])
  end.

Fixpoint checkClients (client : Client) (subfolders : list Folder) (st : Cycle) : prog Cycle :=
  match subfolders with
  | [] => Ret st
  | subfolder :: rest =>
      status <- checkClientBackup client (folder_ID subfolder) (folder_Name subfolder) ;;
      checkClients client rest (record st status)
  end.

Fixpoint checkPaths (client : Client) (paths : list string) (st : Cycle) : prog Cycle :=
  match paths with
  | [] => Ret st
  | folderID :: rest =>
      r <- perform (GetSubfolders client folderID) ;;
      match r with
      | Err _ => checkPaths client rest st
      | Ok subfolders =>
          st' <- checkClients client subfolders st ;;
          checkPaths client rest st'
      end
  end.

(** [telegram.Client]; a [Monitor] holds [None] where [telegram.New] gave
    [nil] *)
Record TelegramClient : Type := mkTelegram { chatID : Z }.

Record Monitor : Type := mkMonitor {
  config : Config;
  telegram : option TelegramClient
}.

Section Notifications.

(** [t.Format(layout)] of package [time]: the text depends on the layout,
    the instant and the location (for [Local], on the zone database of the
    machine) *)
Variable Format : Time -> string -> string.

Definition lastBackupStr (status : BackupStatus) : string :=
  if negb (IsZero (LastBackup status))
  then Format (LastBackup status) "2006-01-02 15:04:05"
  else "Unknown"%string.

(** the first loop of [sendNotifications]; the error of a send is logged
    and dropped *)
Fixpoint sendAlerts (sts : list BackupStatus) : prog unit :=
  match sts with
  | [] => Ret tt
  | status :: rest =>
      if negb (HasBackup status) then
        _ <- perform (SendBackupAlert (ClientName status) (FolderPath status)
                                      (lastBackupStr status)) ;;
        sendAlerts rest
      else sendAlerts rest
  end.

Definition sendNotifications (m : Monitor) (sts : list BackupStatus)
    (successCount failedCount : Z) (failedClients : list string) : prog (option error) :=
  match telegram m with
  | None => Ret (Some ErrTelegramNotInitialized)
  | Some _ =>
      _ <- sendAlerts sts ;;
      let totalClients := len sts in
      r <- perform (SendSummaryReport totalClients successCount failedCount failedClients) ;;
      match r with
      | Some err => Ret (Some err)
      | None => Ret None
      end
  end.

(** [CheckOnce]: the error it returns and the monitor it leaves (its
    [config] is the one field the cycle can change) *)
Definition CheckOnce (m : Monitor) : prog (option error * Monitor) :=
  '(err, cfg) <- refreshTokenIfNeeded (config m) ;;
  let m := mkMonitor cfg (telegram m) in
  match err with
  | Some e => Ret (Some (ErrCheckRefresh e), m)
  | None =>
      let client := NewClient (AccessToken (config m)) in
      st <- checkPaths client (MonitorPaths (config m)) emptyCycle ;;
      _ <- sendNotifications m (statuses st) (successCount st) (failedCount st)
                             (failedClients st) ;;
      Ret (None, m)
  end.

(** [monitoringLoop], from its [for], the ticker being running (for an
    interval that is not positive [time.NewTicker] panics and no cycle is
    run): the loop has no bound of its own; [ticks] bounds the number of
    signals the model follows it for *)
Fixpoint monitoringLoop (ticks : nat) (m : Monitor) : prog Monitor :=
  match ticks with
  | O => Ret m
  | S ticks' =>
      s <- perform Select ;;
      match s with
      | Tick =>
          '(_, m') <- CheckOnce m ;;
          monitoringLoop ticks' m'
      | Stop => Ret m
      end
  end.

(** [Start]: the initial check, then the loop *)
Definition Start (ticks : nat) (m : Monitor) : prog (option error * Monitor) :=
  if negb (Enabled (config m)) then Ret (None, m)
  else
    '(_, m1) <- CheckOnce m ;;
    m2 <- monitoringLoop ticks m1 ;;
    Ret (None, m2).

End Notifications.

(** ** Two invocations at once

    Nothing in [Monitor] or [CheckOnce] synchronises two invocations, so two
    of them running at once (a manual [check] command beside the service)
    proceed independently against the one environment; which of the two
    makes the next call is the scheduler's choice. *)

Inductive thread : Type :=
| Scheduled
| Manual.

Definition thread_eqb (a b : thread) : bool :=
  match a, b with
  | Scheduled, Scheduled | Manual, Manual => true
  | _, _ => false
  end.

(** [interleave o sched p q h]: the calls of [p] and [q] in the order [sched]
    lets them happen, each with the thread that made it; a thread that has
    returned makes no call when chosen *)
Fixpoint interleave {A B : Type} (o : Oracle) (sched : list thread)
    (p : prog A) (q : prog B) (h : list event) : list (thread * event) :=
  match sched with
  | [] => []
  | Scheduled :: rest =>
      match p with
      | Ret _ => interleave o rest p q h
      | Do c k =>
          let r := o h c in
          (Scheduled, Ev c r) :: interleave o rest (k r) q (h ++ [Ev c r])
      end
  | Manual :: rest =>
      match q with
      | Ret _ => interleave o rest p q h
      | Do c k =>
          let r := o h c in
          (Manual, Ev c r) :: interleave o rest p (k r) (h ++ [Ev c r])
      end
  end.

(** how often the thread changes along a trace: at most once when the two
    invocations do not interleave *)
Fixpoint switches (t : list (thread * event)) : nat :=
  match t with
  | (a, _) :: (((b, _) :: _) as rest) =>
      if thread_eqb a b then switches rest else S (switches rest)
  | _ => O
  end.

(** ** Reading a trace *)

Definition calls (t : list event) : list call := map ev_call t.

Definition isStorageCall (c : call) : bool :=
  match c with
  | GetSubfolders _ _ | GetFolderContents _ _ => true
  | _ => false
  end.

Definition isRefreshCall (c : call) : bool :=
  match c with
  | RefreshTokenCall _ => true
  | _ => false
  end.

Definition isAlert (c : call) : bool :=
  match c with
  | SendBackupAlert _ _ _ => true
  | _ => false
  end.

Definition isSummary (c : call) : bool :=
  match c with
  | SendSummaryReport _ _ _ _ => true
  | _ => false
  end.

Definition isNotification (c : call) : bool := isAlert c || isSummary c.

Definition count (f : call -> bool) (t : list event) : nat :=
  List.length (filter f (calls t)).

(** ** The words of the specification *)

Definition nsPerDay : Z := 86400 * 1000000000.

(** the UTC calendar day of an instant, as the number of whole days since
    the zero time (which is a midnight UTC) *)
Definition utcDay (t : Time) : Z := ns t / nsPerDay.

(** a status counts as a success when it has no error and is fresh *)
Definition succeeded (s : BackupStatus) : bool :=
  match Error s with
  | Some _ => false
  | None => HasBackup s
  end.

Definition failed (s : BackupStatus) : bool := negb (succeeded s).

(** the instant a recorded expiry names, in nanoseconds since the zero
    time *)
Definition recordedExpiry (cfg : Config) : Z := (TokenExpiry cfg + unixToInternal) * Second.

(** what the specification asks of a status that carries an error *)
Definition erroredIsEmpty (s : BackupStatus) : Prop :=
  Error s <> None -> HasBackup s = false /\ FileCount s = 0.

(** the counters and the failed-client list, as functions of the statuses *)
Definition countsAgree (st : Cycle) : Prop :=
  successCount st = len (filter succeeded (statuses st)) /\
  failedCount st = len (filter failed (statuses st)) /\
  failedClients st = map ClientName (filter failed (statuses st)).


(** a summary whose total is the sum of its two counters *)
Definition summaryAddsUp (c : call) : Prop :=
  match c with
  | SendSummaryReport totalClients successCount failedCount _ =>
      successCount + failedCount = totalClients
  | _ => True
  end.

(** ** The calls a program can make *)

(** every call of [p], whatever the answers, satisfies [f] *)
Fixpoint only {A : Type} (f : call -> bool) (p : prog A) : Prop :=
  match p with
  | Ret _ => True
  | Do c k => f c = true /\ forall r, only f (k r)
  end.

(** the calls of the credential check *)
Definition isCredentialCall (c : call) : bool :=
  match c with
  | Now | RefreshTokenCall _ | Save _ => true
  | _ => false
  end.

(** the calls of the checks of the clients *)
Definition isCheckCall (c : call) : bool :=
  match c with
  | Now | GetSubfolders _ _ | GetFolderContents _ _ => true
  | _ => false
  end.

(** the alert [sendNotifications] sends for a status, and the summary of a
    cycle *)
Definition alertCall (Format : Time -> string -> string) (s : BackupStatus) : call :=
  SendBackupAlert (ClientName s) (FolderPath s) (lastBackupStr Format s).

Definition summaryCall (st : Cycle) : call :=
  SendSummaryReport (len (statuses st)) (successCount st) (failedCount st) (failedClients st).

(** the later of [base] and the creation instants of the files *)
Definition upper (allFiles : list FileInfo) (base : Z) : Z :=
  fold_right (fun file m => Z.max (ns (CreatedTime file)) m) base allFiles.

(** the service: the traces of [monitoringLoop] are made of whole cycles,
    each started by a tick and run from the monitor the cycle before left *)
Inductive wholeCycles (Format : Time -> string -> string) (o : Oracle)
  : Monitor -> list event -> list event -> Prop :=
| cycles_end : forall m h, wholeCycles Format o m h []
| cycles_stop : forall m h, wholeCycles Format o m h [Ev Select Stop]
| cycles_tick : forall m h err m' t rest,
    run o (CheckOnce Format m) (h ++ [Ev Select Tick]) = ((err, m'), t) ->
    wholeCycles Format o m' ((h ++ [Ev Select Tick]) ++ t) rest ->
    wholeCycles Format o m h (Ev Select Tick :: t ++ rest).

(** ** A small world to run the cycle in *)
Module Sample.

Local Open Scope string_scope.

(** midnight UTC of some day, and the instant of the checks: one minute
    past it, read from a clock in local time *)
Definition midnight : Z := 739000 * nsPerDay.
Definition now : Time := mkTime (midnight + 1 * Minute) Local.

Definition at_ (instant : Z) : Time := mkTime instant UTCLoc.

(** created thirty seconds after midnight *)
Definition freshFile : FileInfo :=
  mkFileInfo "f1" "snap-new" 512 (at_ (midnight + 30 * Second)) (at_ (midnight + 30 * Second)).

(** created one minute before midnight: two minutes before [now] *)
Definition staleFile : FileInfo :=
  mkFileInfo "f0" "snap-old" 512 (at_ (midnight - 1 * Minute)) (at_ (midnight - 1 * Minute)).

(** a file whose creation time could not be read: [GetFolderContents]
    leaves the zero time *)
Definition undatedFile : FileInfo := mkFileInfo "f2" "snap-undated" 512 zeroTime zeroTime.

Definition transportError : error := ErrExternal "request failed".

Definition subfoldersOf (folderID : string) : result (list Folder) :=
  if folderID =? "root" then
    Ok [mkFolder "alpha" "Alpha" 0; mkFolder "beta" "Beta" 0; mkFolder "gamma" "Gamma" 0]
  else if folderID =? "alpha" then
    Ok [mkFolder "alpha-data" "data" 0; mkFolder "alpha-snap" "snapshots" 0]
  else if folderID =? "beta" then Ok [mkFolder "beta-snap" "snapshots" 0]
  else if folderID =? "gamma" then Ok [mkFolder "gamma-data" "data" 0]
  else if folderID =? "attic" then Ok [mkFolder "delta" "Delta" 0]
  else if folderID =? "delta" then Ok [mkFolder "delta-snap" "snapshots" 0]
  else if folderID =? "empty" then Ok []
  else Err transportError.

Definition contentsOf (folderID : string) : result (list FileInfo) :=
  if folderID =? "alpha-snap" then Ok [staleFile; freshFile]
  else if folderID =? "beta-snap" then Ok [staleFile]
  else if folderID =? "delta-snap" then Ok [undatedFile]
  else Err transportError.

(** the environment: listings as above, a refresh that succeeds when there
    is a refresh token, alerts that fail to be sent *)
Definition world : Oracle :=
  fun _ c =>
    match c return answer c with
    | Now => now
    | Select => Tick
    | GetSubfolders _ folderID => subfoldersOf folderID
    | GetFolderContents _ folderID => contentsOf folderID
    | RefreshTokenCall token =>
        if tok_RefreshToken token =? "" then Err (ErrExternal "no refresh token available")
        else Ok (mkToken "access-2" "refresh-2" (Add now Hour))
    | Save _ => None
    | SendBackupAlert _ _ _ => Some (ErrExternal "failed to send telegram message")
    | SendSummaryReport _ _ _ _ => None
    end.

Definition format : Time -> string -> string := fun _ _ => "2024-04-24 23:59:00".

Definition nowUnix : Z := toUnix now.

(** expiry 20 minutes ahead, 5 minutes ahead, and never recorded *)
Definition cfg20 : Config :=
  mkConfig "access-1" "refresh-1" (nowUnix + 1200) ["broken"; "root"] 60 true.
Definition cfg5 : Config :=
  mkConfig "access-1" "refresh-1" (nowUnix + 300) ["broken"; "root"] 60 true.
Definition cfg5NoRefreshToken : Config :=
  mkConfig "access-1" "" (nowUnix + 300) ["broken"; "root"] 60 true.
Definition cfg0 : Config := mkConfig "" "" 0 ["broken"; "root"] 60 true.
(** the largest expiry the configuration file can hold *)
Definition cfgFar : Config :=
  mkConfig "access-1" "refresh-1" (2 ^ 63 - 1) ["broken"; "root"] 60 true.
Definition cfgNoClients : Config :=
  mkConfig "access-1" "refresh-1" (nowUnix + 1200) ["empty"] 60 true.
Definition cfgDisabled : Config :=
  mkConfig "access-1" "refresh-1" (nowUnix + 1200) ["root"] 60 false.

Definition client : Client := NewClient "access-1".

Definition bot : TelegramClient := mkTelegram 42.

Definition alternate : list thread := [Scheduled; Manual; Scheduled; Manual; Scheduled; Manual].

End Sample.

(** ** More ways to read a trace *)

(** a storage call made through the client [cl] (any other call passes) *)
Definition withClient (cl : Client) (c : call) : bool :=
  match c with
  | GetSubfolders c' _ | GetFolderContents c' _ =>
      String.eqb (accessToken c') (accessToken cl)
  | _ => true
  end.

Definition isSave (c : call) : bool :=
  match c with
  | Save _ => true
  | _ => false
  end.

(** the client and the folder a status is about *)
Definition subject (s : BackupStatus) : string * string := (ClientName s, FolderPath s).

(** the clients found under the monitored paths when the folder listing is
    [ls]: for each path that can be listed, its sub-folders in order *)
Definition discovered (ls : string -> result (list Folder)) (paths : list string)
  : list (string * string) :=
  flat_map (fun p => match ls p with
                     | Ok subfolders => map (fun f => (folder_Name f, folder_ID f)) subfolders
                     | Err _ => []
                     end) paths.


(** what such an environment lists under a folder, and the status it gives
    the client found under a name and an ID *)
Definition listing (o : Oracle) (client : Client) (folderID : string) : result (list Folder) :=
  o [] (GetSubfolders client folderID).


(** the first sub-folder named [snapshots] *)
Definition snapshotsFolder (subfolders : list Folder) : option Folder :=
  find (fun f => String.eqb (folder_Name f) "snapshots"%string) subfolders.

(** ** Listings that do not return

    [GetSubfolders] and [GetFolderContents] assert that the [id] and the
    [name] of every item they keep are strings.  Where one is not, the
    assertion panics, and nothing between the listing and the caller of
    [CheckOnce] recovers: the cycle ends there, without returning.  The
    other calls of the cycle assert nothing of the kind. *)

(** how a listing ends: it returns its result, or it panics *)
Inductive finish (A : Type) : Type :=
| Returns (a : A)
| Panics (what : string).
Arguments Returns {A} a.
Arguments Panics {A} what.

(** what the environment gives for a call *)
Definition ending (c : call) : Type :=
  match c with
  | GetSubfolders _ _ | GetFolderContents _ _ => finish (answer c)
  | _ => answer c
  end.

Definition returned (c : call) : ending c -> finish (answer c) :=
  match c return ending c -> finish (answer c) with
  | GetSubfolders _ _ => fun e => e
  | GetFolderContents _ _ => fun e => e
  | Now => fun e => Returns e
  | Select => fun e => Returns e
  | RefreshTokenCall _ => fun e => Returns e
  | Save _ => fun e => Returns e
  | SendBackupAlert _ _ _ => fun e => Returns e
  | SendSummaryReport _ _ _ _ => fun e => Returns e
  end.

(** the environment, its listings ending either way *)
Definition Host : Type := list event -> forall c : call, ending c.

(** how a program ends: with its value, or in the panic of the call [c] *)
Inductive ended (A : Type) : Type :=
| Completed (a : A)
| Aborted (c : call) (what : string).
Arguments Completed {A} a.
Arguments Aborted {A} c what.

(** [runHost w p h]: how [p] ends after the history [h], and the events of
    the calls that returned *)
Fixpoint runHost {A : Type} (w : Host) (p : prog A) (h : list event)
  : ended A * list event :=
  match p with
  | Ret a => (Completed a, [])
  | Do c k =>
      match returned c (w h c) with
      | Panics what => (Aborted c what, [])
      | Returns r =>
          let '(a, t) := runHost w (k r) (h ++ [Ev c r]) in
          (a, Ev c r :: t)
      end
  end.

(** the environment whose listings all return, with the answers of [o] *)
Definition calm (o : Oracle) : Host :=
  fun h c =>
    match c return ending c with
    | GetSubfolders cl folderID => Returns (o h (GetSubfolders cl folderID))
    | GetFolderContents cl folderID => Returns (o h (GetFolderContents cl folderID))
    | Now => o h Now
    | Select => o h Select
    | RefreshTokenCall token => o h (RefreshTokenCall token)
    | Save cfg => o h (Save cfg)
    | SendBackupAlert clientName folderPath lastBackupTime =>
        o h (SendBackupAlert clientName folderPath lastBackupTime)
    | SendSummaryReport totalClients successCount failedCount failedClients =>
        o h (SendSummaryReport totalClients successCount failedCount failedClients)
    end.

(** * Below the cycle: requests, files, the terminal

    The functions the cycle treats as calls, and the commands around it, one
    layer down: their calls are those of the packages [net/http], [os],
    [crypto/rand], [time] and of the telegram bot library. *)

From Stdlib Require Import DecimalString.
From Stdlib.Strings Require Import Byte.

Module Wire.

Local Open Scope string_scope.

(** Go [error] values of this layer: an error handed over by a library, or
    one built by [fmt.Errorf] from a format, the printed arguments and, for
    [%w], the error it wraps *)
Inductive werror : Type :=
| External (msg : string)
| Errorf (format : string) (args : list string)
| Wrapf (format : string) (args : list string) (cause : werror).

Inductive res (A : Type) : Type :=
| Good (v : A)
| Bad (e : werror).
Arguments Good {A} v.
Arguments Bad {A} e.

(** what a function that can panic ends with *)
Inductive outcome (A : Type) : Type :=
| Fine (v : A)
| Failed (e : werror)
| Panicked (what : string).
Arguments Fine {A} v.
Arguments Failed {A} e.
Arguments Panicked {A} what.

(** [%d] *)
Definition itoa (n : Z) : string := NilZero.string_of_int (Z.to_int n).

Record Request : Type := mkRequest {
  Method : string;
  URL : string;
  Header : list (string * string)
}.

(** a response: the status and what reading the body to its end gives *)
Record Response : Type := mkResponse {
  StatusCode : Z;
  Body : res string
}.

Inductive sys : Type :=
| NewRequest (method url : string)
| HttpDo (req : Request)
| PostForm (url : string) (data : list (string * string))
| ClockNow
| Sleep (d : Duration)
| Print (text : string)
| ReadLine
| RandRead (n : nat)
| Stat (path : string)
| MkdirAll (path : string) (perm : Z)
| WriteFile (path : string) (data : list byte) (perm : Z)
| ReadFile (path : string)
| HomeDir
| Hostname
| Getenv (name : string)
| BotSend (chatID : Z) (text parseMode : string).

Definition reply (c : sys) : Type :=
  match c with
  | NewRequest _ _ => option werror
  | HttpDo _ => res Response
  | PostForm _ _ => res Response
  | ClockNow => Time
  | Sleep _ => unit
  | Print _ => unit
  | ReadLine => string
  | RandRead _ => res (list byte)
  | Stat _ => option werror
  | MkdirAll _ _ => option werror
  | WriteFile _ _ _ => option werror
  | ReadFile _ => res (list byte)
  | HomeDir => res string
  | Hostname => string
  | Getenv _ => string
  | BotSend _ _ _ => option werror
  end.

Record sysevent : Type := Sys { sys_call : sys; sys_reply : reply sys_call }.

Inductive io (A : Type) : Type :=
| Return (a : A)
| Call (c : sys) (k : reply c -> io A).
Arguments Return {A} a.
Arguments Call {A} c k.

Fixpoint io_bind {A B : Type} (p : io A) (f : A -> io B) : io B :=
  match p with
  | Return a => f a
  | Call c k => Call c (fun r => io_bind (k r) f)
  end.

Definition act (c : sys) : io (reply c) := Call c Return.

Declare Scope io_scope.
Delimit Scope io_scope with io.
Notation "x <- p ;; q" := (io_bind p (fun x => q))
  (at level 100, p at next level, right associativity) : io_scope.
Local Open Scope io_scope.

Definition World : Type := list sysevent -> forall c : sys, reply c.

Fixpoint exec {A : Type} (w : World) (p : io A) (h : list sysevent) : A * list sysevent :=
  match p with
  | Return a => (a, [])
  | Call c k =>
      let r := w h c in
      let '(a, t) := exec w (k r) (h ++ [Sys c r])%list in
      (a, Sys c r :: t)
  end.

Definition syscalls (t : list sysevent) : list sys := map sys_call t.

(** ** [onedrive.Client] *)

Local Unset Elimination Schemes.

(** a decoded JSON value, as [encoding/json] stores it in an
    [interface{}]; [num] is [float64] *)
Inductive json (num : Type) : Type :=
| JNull
| JBool (b : bool)
| JNum (n : num)
| JStr (s : string)
| JArr (items : list (json num))
| JObj (fields : list (string * json num)).
Local Set Elimination Schemes.
Arguments JNull {num}.
Arguments JBool {num} b.
Arguments JNum {num} n.
Arguments JStr {num} s.
Arguments JArr {num} items.
Arguments JObj {num} fields.

(** what the client takes from [encoding/json] and [time] *)
Class Json : Type := {
  float64 : Type;
  (** [int64(f)] *)
  int64 : float64 -> Z;
  (** [json.NewDecoder(body).Decode(&driveResp)], then [driveResp.Value] *)
  decodeDriveResponse : string -> res (list (json float64));
  (** [time.Parse(time.RFC3339, s)] *)
  parseRFC3339 : string -> option Time
}.

Definition baseURL : string := "https://graph.microsoft.com/v1.0".

Definition makeRequest (c : Client) (method url : string) : io (res Response) :=
  e <- act (NewRequest method url) ;;
  match e with
  | Some err => Return (Bad (Wrapf "failed to create request: %w" [] err))
  | None =>
      let req := mkRequest method url
                   [("Authorization", "Bearer " ++ accessToken c);
                    ("Content-Type", "application/json")] in
      r <- act (HttpDo req) ;;
      match r with
      | Bad err => Return (Bad (Wrapf "request failed: %w" [] err))
      | Good resp =>
          if (400 <=? StatusCode resp)%Z
          then Return (Bad (Errorf "API request failed with status %d"
                                   [itoa (StatusCode resp)]))
          else Return (Good resp)
      end
  end.

(** the request [makeRequest] sends *)
Definition bearer (c : Client) (method url : string) : Request :=
  mkRequest method url
            [("Authorization", "Bearer " ++ accessToken c);
             ("Content-Type", "application/json")].

Section Client.

Context {J : Json}.

Definition item : Type := json float64.

(** [itemMap[key]] *)
Fixpoint get (key : string) (itemMap : list (string * item)) : option item :=
  match itemMap with
  | [] => None
  | (k, v) :: rest => if String.eqb k key then Some v else get key rest
  end.

(** the dynamic type of [itemMap[key]] as the runtime prints it *)
Definition typeName (v : option item) : string :=
  match v with
  | None | Some JNull => "nil"
  | Some (JBool _) => "bool"
  | Some (JNum _) => "float64"
  | Some (JStr _) => "string"
  | Some (JArr _) => "[]interface {}"
  | Some (JObj _) => "map[string]interface {}"
  end.

(** the panic of [itemMap[key].(string)] *)
Definition notString (v : option item) : string :=
  "interface conversion: interface {} is " ++ typeName v ++ ", not string".

Definition decode (resp : Response) : res (list item) :=
  match Body resp with
  | Bad err => Bad err
  | Good body => decodeDriveResponse body
  end.

(** [itemMap["size"].(float64)], the size staying 0 without it *)
Definition sizeOf (itemMap : list (string * item)) : Z :=
  match get "size" itemMap with
  | Some (JNum size) => int64 size
  | _ => 0%Z
  end.

(** the loop of [GetTopLevelFolders] and of [GetSubfolders] *)
Fixpoint collectFolders (items : list item) (folders : list Folder) : outcome (list Folder) :=
  match items with
  | [] => Fine folders
  | JObj itemMap :: rest =>
      match get "folder" itemMap with
      | Some JNull | None => collectFolders rest folders
      | Some _ =>
          match get "id" itemMap with
          | Some (JStr id) =>
              match get "name" itemMap with
              | Some (JStr name) =>
                  collectFolders rest (folders ++ [mkFolder id name (sizeOf itemMap)])%list
              | v => Panicked (notString v)
              end
          | v => Panicked (notString v)
          end
      end
  | _ :: rest => collectFolders rest folders
  end.

(** [itemMap[key].(string)] followed by [time.Parse], the zero time staying
    where either fails *)
Definition timeOf (key : string) (itemMap : list (string * item)) : Time :=
  match get key itemMap with
  | Some (JStr text) =>
      match parseRFC3339 text with
      | Some t => t
      | None => zeroTime
      end
  | _ => zeroTime
  end.

(** the loop of [GetFolderContents] *)
Fixpoint collectFiles (items : list item) (files : list FileInfo) : outcome (list FileInfo) :=
  match items with
  | [] => Fine files
  | JObj itemMap :: rest =>
      match get "file" itemMap with
      | None => collectFiles rest files
      | Some _ =>
          match get "id" itemMap with
          | Some (JStr id) =>
              match get "name" itemMap with
              | Some (JStr name) =>
                  collectFiles rest
                    (files ++ [mkFileInfo id name (sizeOf itemMap)
                                          (timeOf "createdDateTime" itemMap)
                                          (timeOf "lastModifiedDateTime" itemMap)])%list
              | v => Panicked (notString v)
              end
          | v => Panicked (notString v)
          end
      end
  | _ :: rest => collectFiles rest files
  end.

(** *** The words used for the listings *)

(** an item the folder listings keep: an object with a [folder] member that
    is not [null] *)
Definition isFolderItem (i : item) : bool :=
  match i with
  | JObj itemMap =>
      match get "folder" itemMap with
      | Some JNull | None => false
      | Some _ => true
      end
  | _ => false
  end.

(** an item the file listing keeps: an object with a [file] member *)
Definition isFileItem (i : item) : bool :=
  match i with
  | JObj itemMap =>
      match get "file" itemMap with
      | Some _ => true
      | None => false
      end
  | _ => false
  end.

(** an object with an [id] and a [name] that are strings *)
Definition named (i : item) : bool :=
  match i with
  | JObj itemMap =>
      match get "id" itemMap, get "name" itemMap with
      | Some (JStr _), Some (JStr _) => true
      | _, _ => false
      end
  | _ => false
  end.

Definition textOf (key : string) (i : item) : string :=
  match i with
  | JObj itemMap => match get key itemMap with Some (JStr s) => s | _ => EmptyString end
  | _ => EmptyString
  end.

Definition fieldsOf (i : item) : list (string * item) :=
  match i with
  | JObj itemMap => itemMap
  | _ => []
  end.

Definition folderOf (i : item) : Folder :=
  mkFolder (textOf "id" i) (textOf "name" i) (sizeOf (fieldsOf i)).

Definition fileOf (i : item) : FileInfo :=
  mkFileInfo (textOf "id" i) (textOf "name" i) (sizeOf (fieldsOf i))
             (timeOf "createdDateTime" (fieldsOf i))
             (timeOf "lastModifiedDateTime" (fieldsOf i)).

(** every item a folder listing keeps has an [id] and a [name] that are
    strings *)
Definition foldersNamed (items : list item) : bool :=
  forallb (fun i => implb (isFolderItem i) (named i)) items.

Definition filesNamed (items : list item) : bool :=
  forallb (fun i => implb (isFileItem i) (named i)) items.

(** the file items whose [createdDateTime] is missing, is no string or does
    not parse *)
Definition undated (i : item) : bool :=
  match get "createdDateTime" (fieldsOf i) with
  | Some (JStr text) =>
      match parseRFC3339 text with
      | Some _ => false
      | None => true
      end
  | _ => true
  end.

End Client.

(** the three listings *)
Module OneDrive.

Section Listings.

Context {J : Json}.

Definition GetTopLevelFolders (c : Client) : io (outcome (list Folder)) :=
  let url := baseURL ++ "/me/drive/root/children" in
  r <- makeRequest c "GET" url ;;
  match r with
  | Bad err => Return (Failed err)
  | Good resp =>
      match decode resp with
      | Bad err => Return (Failed (Wrapf "failed to decode response: %w" [] err))
      | Good items => Return (collectFolders items [])
      end
  end.

Definition GetSubfolders (c : Client) (folderID : string) : io (outcome (list Folder)) :=
  let url := baseURL ++ "/me/drive/items/" ++ folderID ++ "/children" in
  r <- makeRequest c "GET" url ;;
  match r with
  | Bad err => Return (Failed err)
  | Good resp =>
      match decode resp with
      | Bad err => Return (Failed (Wrapf "failed to decode response: %w" [] err))
      | Good items => Return (collectFolders items [])
      end
  end.

Definition GetFolderContents (c : Client) (folderID : string) : io (outcome (list FileInfo)) :=
  let url := baseURL ++ "/me/drive/items/" ++ folderID ++ "/children" in
  r <- makeRequest c "GET" url ;;
  match r with
  | Bad err => Return (Failed err)
  | Good resp =>
      match decode resp with
      | Bad err => Return (Failed (Wrapf "failed to decode response: %w" [] err))
      | Good items => Return (collectFiles items [])
      end
  end.

End Listings.

End OneDrive.

(** ** [onedrive.Authenticator] *)

Definition PublicClientID : string := "d3590ed6-52b3-4102-aeff-aad2292ab01c".
Definition DeviceCodeURL : string :=
  "https://login.microsoftonline.com/common/oauth2/v2.0/devicecode".
Definition TokenURL : string := "https://login.microsoftonline.com/common/oauth2/v2.0/token".

Record DeviceCodeResponse : Type := mkDeviceCode {
  dc_UserCode : string;
  dc_DeviceCode : string;
  dc_VerificationURI : string;
  dc_ExpiresIn : Z;
  dc_Interval : Z;
  dc_Message : string;
  dc_VerificationURIComplete : string
}.

Record TokenResponse : Type := mkTokenResponse {
  tr_AccessToken : string;
  tr_RefreshToken : string;
  tr_ExpiresIn : Z;
  tr_TokenType : string;
  tr_Scope : string;
  tr_Error : string;
  tr_ErrorDescription : string
}.

(** [oauth2.Token] with its [TokenType] *)
Record IssuedToken : Type := mkIssued {
  issued : Token;
  TokenType : string
}.

(** what the authenticator takes from [encoding/json] *)
Class AuthJson : Type := {
  (** [json.NewDecoder(body).Decode(&tokenResp)] *)
  decodeTokenResponse : string -> res TokenResponse;
  (** [json.Unmarshal(body, &tokenResp)] *)
  unmarshalTokenResponse : string -> res TokenResponse;
  (** [json.NewDecoder(body).Decode(&deviceCode)] *)
  decodeDeviceCodeResponse : string -> res DeviceCodeResponse
}.

(** [time.Duration(n) * time.Second] *)
Definition seconds (n : Z) : Duration := wrap64 (n * Second).

Definition tokenOf (tokenResp : TokenResponse) (now : Time) : IssuedToken :=
  mkIssued (mkToken (tr_AccessToken tokenResp) (tr_RefreshToken tokenResp)
                    (Add now (seconds (tr_ExpiresIn tokenResp))))
           (tr_TokenType tokenResp).

Module Auth.

Section Authenticator.

Context {AJ : AuthJson}.

Definition getDeviceCode : io (res DeviceCodeResponse) :=
  let data := [("client_id", PublicClientID);
               ("scope", "https://graph.microsoft.com/Files.Read.All offline_access")] in
  r <- act (PostForm DeviceCodeURL data) ;;
  match r with
  | Bad err => Return (Bad (Wrapf "failed to request device code: %w" [] err))
  | Good resp =>
      if negb (StatusCode resp =? 200)%Z then
        Return (Bad (Errorf "device code request failed with status %d"
                            [itoa (StatusCode resp)]))
      else
        match Body resp with
        | Bad err => Return (Bad (Wrapf "failed to decode device code response: %w" [] err))
        | Good body =>
            match decodeDeviceCodeResponse body with
            | Bad err =>
                Return (Bad (Wrapf "failed to decode device code response: %w" [] err))
            | Good deviceCode => Return (Good deviceCode)
            end
        end
  end.

Definition pollData (deviceCode : DeviceCodeResponse) : list (string * string) :=
  [("client_id", PublicClientID);
   ("grant_type", "urn:ietf:params:oauth:grant-type:device_code");
   ("device_code", dc_DeviceCode deviceCode)].

(** the [for] of [pollForToken]; it has no bound of its own, [rounds] bounds
    the iterations the model follows ([None]: still polling after them) *)
Fixpoint pollLoop (rounds : nat) (data : list (string * string))
    (timeout : Time) (interval : Duration) : io (option (res IssuedToken)) :=
  match rounds with
  | O => Return None
  | S rounds' =>
      now <- act ClockNow ;;
      if negb (Before now timeout) then
        Return (Some (Bad (Errorf "authentication timeout" [])))
      else
        r <- act (PostForm TokenURL data) ;;
        match r with
        | Bad err => Return (Some (Bad (Wrapf "failed to poll token endpoint: %w" [] err)))
        | Good resp =>
            match Body resp with
            | Bad err =>
                Return (Some (Bad (Wrapf "failed to read token response: %w" [] err)))
            | Good body =>
                match unmarshalTokenResponse body with
                | Bad err =>
                    Return (Some (Bad (Wrapf "failed to decode token response: %w" [] err)))
                | Good tokenResp =>
                    if negb (String.eqb (tr_Error tokenResp) EmptyString) then
                      if String.eqb (tr_Error tokenResp) "authorization_pending" then
                        _ <- act (Print ".") ;;
                        _ <- act (Sleep interval) ;;
                        pollLoop rounds' data timeout interval
                      else
                        Return (Some (Bad (Errorf "authentication failed: %s - %s"
                                                  [tr_Error tokenResp;
                                                   tr_ErrorDescription tokenResp])))
                    else if negb (String.eqb (tr_AccessToken tokenResp) EmptyString) then
                      now' <- act ClockNow ;;
                      Return (Some (Good (tokenOf tokenResp now')))
                    else
                      _ <- act (Sleep interval) ;;
                      pollLoop rounds' data timeout interval
                end
            end
        end
  end.

Definition pollForToken (rounds : nat) (deviceCode : DeviceCodeResponse)
  : io (option (res IssuedToken)) :=
  let data := pollData deviceCode in
  start <- act ClockNow ;;
  let timeout := Add start (seconds (dc_ExpiresIn deviceCode)) in
  let interval := seconds (dc_Interval deviceCode) in
  pollLoop rounds data timeout interval.

Definition RefreshToken (token : Token) : io (res IssuedToken) :=
  if String.eqb (tok_RefreshToken token) EmptyString then
    Return (Bad (Errorf "no refresh token available" []))
  else
    let data := [("client_id", PublicClientID);
                 ("grant_type", "refresh_token");
                 ("refresh_token", tok_RefreshToken token);
                 ("scope", "https://graph.microsoft.com/Files.Read.All offline_access")] in
    r <- act (PostForm TokenURL data) ;;
    match r with
    | Bad err => Return (Bad (Wrapf "failed to refresh token: %w" [] err))
    | Good resp =>
        if negb (StatusCode resp =? 200)%Z then
          Return (Bad (Errorf "token refresh failed with status %d" [itoa (StatusCode resp)]))
        else
          match Body resp with
          | Bad err => Return (Bad (Wrapf "failed to decode token response: %w" [] err))
          | Good body =>
              match decodeTokenResponse body with
              | Bad err => Return (Bad (Wrapf "failed to decode token response: %w" [] err))
              | Good tokenResp =>
                  if negb (String.eqb (tr_Error tokenResp) EmptyString) then
                    Return (Bad (Errorf "token refresh failed: %s - %s"
                                        [tr_Error tokenResp; tr_ErrorDescription tokenResp]))
                  else
                    now <- act ClockNow ;;
                    Return (Good (tokenOf tokenResp now))
              end
          end
    end.

End Authenticator.

End Auth.

Definition isPost (c : sys) : bool :=
  match c with
  | PostForm _ _ => true
  | _ => false
  end.

(** ** Package [config] *)

(** [config.Config]: the part the cycle works on, the telegram settings and
    the two unexported fields *)
Record AppConfig : Type := mkApp {
  core : Config;
  BotToken : string;
  ChatID : Z;
  configPath : string;
  encryptionKey : list byte
}.

(** [config.Config{}] *)
Definition zeroConfig : AppConfig :=
  mkApp (mkConfig EmptyString EmptyString 0 [] 0 false) EmptyString 0 EmptyString [].

Definition IsConfigured (c : AppConfig) : bool :=
  negb (String.eqb (AccessToken (core c)) EmptyString)
  && negb (String.eqb (BotToken c) EmptyString).

(** what the package takes from [encoding/json], [crypto/cipher],
    [x/crypto/pbkdf2] and [path/filepath] *)
Class ConfigLib : Type := {
  (** [json.Marshal(c)] *)
  marshal : AppConfig -> res (list byte);
  (** [json.Unmarshal(data, c)]: the configuration [c] has become *)
  unmarshal : list byte -> AppConfig -> res AppConfig;
  (** [gcm.Seal(nil, nonce, plaintext, nil)] under a key *)
  gcmSeal : list byte -> list byte -> list byte -> list byte;
  (** [gcm.Open(nil, nonce, ciphertext, nil)] under a key *)
  gcmOpen : list byte -> list byte -> list byte -> res (list byte);
  (** [pbkdf2.Key(password, salt, 100000, 32, sha256.New)] *)
  pbkdf2Key : string -> string -> list byte;
  pbkdf2Key_length : forall password salt, List.length (pbkdf2Key password salt) = 32%nat;
  (** [filepath.Dir] and [filepath.Join] *)
  dir : string -> string;
  join : list string -> string
}.

(** [io.ReadFull] fills the buffer it is given or fails *)
Definition fillsBuffers (w : World) : Prop :=
  forall h n bytes, w h (RandRead n) = Good bytes -> List.length bytes = n.

(** what [gcm.Open] does to what [gcm.Seal] made, under the same key and
    nonce *)
Definition opensWhatItSealed {L : ConfigLib} : Prop :=
  forall key nonce plaintext, gcmOpen key nonce (gcmSeal key nonce plaintext) = Good plaintext.

(** the key sizes [aes.NewCipher] accepts *)
Definition aesKey (key : list byte) : bool :=
  let k := List.length key in
  Nat.eqb k 16 || Nat.eqb k 24 || Nat.eqb k 32.

Definition keySizeError (key : list byte) : werror :=
  Errorf "crypto/aes: invalid key size %d" [itoa (Z.of_nat (List.length key))].

(** [gcm.NonceSize()] *)
Definition nonceSize : nat := 12.

Module ConfigFile.

Section Config.

Context {L : ConfigLib}.

Definition encrypt (c : AppConfig) (data : list byte) : io (res (list byte)) :=
  if negb (aesKey (encryptionKey c)) then Return (Bad (keySizeError (encryptionKey c)))
  else
    r <- act (RandRead nonceSize) ;;
    match r with
    | Bad err => Return (Bad err)
    | Good nonce =>
        let ciphertext := (nonce ++ gcmSeal (encryptionKey c) nonce data)%list in
        Return (Good ciphertext)
    end.

Definition decrypt (c : AppConfig) (data : list byte) : res (list byte) :=
  if negb (aesKey (encryptionKey c)) then Bad (keySizeError (encryptionKey c))
  else if (List.length data <? nonceSize)%nat then Bad (Errorf "ciphertext too short" [])
  else
    let nonce := firstn nonceSize data in
    let ciphertext := skipn nonceSize data in
    match gcmOpen (encryptionKey c) nonce ciphertext with
    | Bad err => Bad err
    | Good plaintext => Good plaintext
    end.

Definition Save (c : AppConfig) : io (option werror) :=
  match marshal c with
  | Bad err => Return (Some (Wrapf "failed to marshal config: %w" [] err))
  | Good data =>
      r <- encrypt c data ;;
      match r with
      | Bad err => Return (Some (Wrapf "failed to encrypt config: %w" [] err))
      | Good encrypted =>
          e <- act (MkdirAll (dir (configPath c)) 448) ;;
          match e with
          | Some err => Return (Some (Wrapf "failed to create config directory: %w" [] err))
          | None =>
              e' <- act (WriteFile (configPath c) encrypted 384) ;;
              match e' with
              | Some err => Return (Some (Wrapf "failed to write config file: %w" [] err))
              | None => Return None
              end
          end
      end
  end.

(** [loadFromFile]: the error, or the configuration [c] has become *)
Definition loadFromFile (c : AppConfig) : io (res AppConfig) :=
  r <- act (ReadFile (configPath c)) ;;
  match r with
  | Bad err => Return (Bad (Wrapf "failed to read config file: %w" [] err))
  | Good encrypted =>
      match decrypt c encrypted with
      | Bad err => Return (Bad (Wrapf "failed to decrypt config: %w" [] err))
      | Good decrypted =>
          match unmarshal decrypted c with
          | Bad err => Return (Bad (Wrapf "failed to unmarshal config: %w" [] err))
          | Good c' => Return (Good c')
          end
      end
  end.

Definition getConfigPath : io (res string) :=
  r <- act HomeDir ;;
  match r with
  | Bad err => Return (Bad err)
  | Good home => Return (Good (join [home; ".config"; "restic-backup-checker"; "config.enc"]))
  end.

Definition generateEncryptionKey : io (list byte) :=
  hostname <- act Hostname ;;
  user <- act (Getenv "USER") ;;
  user' <- (if String.eqb user EmptyString then act (Getenv "USERNAME") else Return user) ;;
  let salt := hostname ++ ":" ++ user' in
  Return (pbkdf2Key salt "restic-backup-checker-salt").

Definition Load : io (res AppConfig) :=
  r <- getConfigPath ;;
  match r with
  | Bad err => Return (Bad (Wrapf "failed to get config path: %w" [] err))
  | Good path =>
      let cfg := mkApp (mkConfig EmptyString EmptyString 0 [] 60 true)
                       EmptyString 0 path [] in
      key <- generateEncryptionKey ;;
      let cfg := mkApp (core cfg) (BotToken cfg) (ChatID cfg) (configPath cfg) key in
      e <- act (Stat path) ;;
      match e with
      | None =>
          r' <- loadFromFile cfg ;;
          match r' with
          | Bad err => Return (Bad (Wrapf "failed to load config: %w" [] err))
          | Good cfg' => Return (Good cfg')
          end
      | Some _ => Return (Good cfg)
      end
  end.

End Config.

End ConfigFile.

Definition isReadFile (c : sys) : bool :=
  match c with
  | ReadFile _ => true
  | _ => false
  end.

(** ** Package [telegram] *)

(** [telegram.Client]; [bot] tells whether its [*BotAPI] is there *)
Record Bot : Type := mkBot {
  bot : bool;
  bot_chatID : Z
}.

(** the line feed of the format strings *)
Definition nl : string := String (Ascii.ascii_of_nat 10) EmptyString.

Definition alertText (clientName folderPath lastBackupTime : string) : string :=
  "🚨 *Backup Alert*" ++ nl ++ nl ++
  "*Client:* " ++ clientName ++ nl ++
  "*Folder:* " ++ folderPath ++ nl ++
  "*Issue:* No backup found for today" ++ nl ++
  "*Last Backup:* " ++ lastBackupTime ++ nl ++ nl ++
  "Please check the backup client immediately.".

Definition successText (clientName folderPath : string) (fileCount : Z) : string :=
  "✅ *Backup Success*" ++ nl ++ nl ++
  "*Client:* " ++ clientName ++ nl ++
  "*Folder:* " ++ folderPath ++ nl ++
  "*Files:* " ++ itoa fileCount ++ " backup files found for today" ++ nl ++ nl ++
  "All backups are up to date.".

Definition summaryHead (totalClients successCount failedCount : Z) : string :=
  let status := if (0 <? failedCount)%Z then "🚨 Issues Found" else "✅ All Good" in
  "📊 *Daily Backup Report*" ++ nl ++ nl ++
  "*Status:* " ++ status ++ nl ++
  "*Total Clients:* " ++ itoa totalClients ++ nl ++
  "*Successful:* " ++ itoa successCount ++ nl ++
  "*Failed:* " ++ itoa failedCount ++ nl.

(** the loop of [SendSummaryReport] *)
Fixpoint addFailedClients (failedClients : list string) (message : string) : string :=
  match failedClients with
  | [] => message
  | client :: rest => addFailedClients rest (message ++ "• " ++ client ++ nl)
  end.

Definition summaryText (totalClients successCount failedCount : Z)
    (failedClients : list string) : string :=
  let message := summaryHead totalClients successCount failedCount in
  if (0 <? len failedClients)%Z
  then addFailedClients failedClients (message ++ nl ++ "*Failed Clients:*" ++ nl)
  else message.

Module Telegram.

Definition SendMessage (c : Bot) (message : string) : io (option werror) :=
  if negb (bot c) then Return (Some (Errorf "telegram bot not initialized" []))
  else
    e <- act (BotSend (bot_chatID c) message "Markdown") ;;
    match e with
    | Some err => Return (Some (Wrapf "failed to send telegram message: %w" [] err))
    | None => Return None
    end.

Definition SendBackupAlert (c : Bot) (clientName folderPath lastBackupTime : string)
  : io (option werror) :=
  SendMessage c (alertText clientName folderPath lastBackupTime).

Definition SendBackupSuccess (c : Bot) (clientName folderPath : string) (fileCount : Z)
  : io (option werror) :=
  SendMessage c (successText clientName folderPath fileCount).

Definition SendSummaryReport (c : Bot) (totalClients successCount failedCount : Z)
    (failedClients : list string) : io (option werror) :=
  SendMessage c (summaryText totalClients successCount failedCount failedClients).

End Telegram.

(** one line of the list of failed clients *)
Definition bullet (client : string) : string := "• " ++ client ++ nl.

(** ** Package [cli] *)

(** what the commands take from [strconv] and [strings] *)
Class Strings : Type := {
  (** [strconv.Atoi]: the number, or nothing where it returns an error *)
  Atoi : string -> option Z;
  TrimSpace : string -> string;
  ToLower : string -> string;
  Split : string -> string -> list string
}.

Definition maskToken (token : string) : string :=
  if (String.length token <=? 8)%nat then "****"
  else substring 0 4 token ++ "****" ++ substring (String.length token - 4) 4 token.

Section Cli.

Context {S : Strings} {L : ConfigLib}.

(** the loop of [setupOneDrive] over the entries of the selection; indexing
    [folders] outside its bounds would panic *)
Fixpoint selectFolders (folders : list Folder) (indices : list string)
    (monitorPaths : list string) : outcome (list string) :=
  match indices with
  | [] => Fine monitorPaths
  | idx :: rest =>
      match Atoi (TrimSpace idx) with
      | Some i =>
          if ((0 <? i) && (i <=? len folders))%Z then
            match nth_error folders (Z.to_nat (i - 1)) with
            | Some folder => selectFolders folders rest (monitorPaths ++ [folder_ID folder])%list
            | None => Panicked "index out of range"
            end
          else selectFolders folders rest monitorPaths
      | None => selectFolders folders rest monitorPaths
      end
  end.

(** what one entry of the selection stands for: the ID of the folder it
    numbers, nothing when it is no number or numbers no folder *)
Definition picked (folders : list Folder) (idx : string) : list string :=
  match Atoi (TrimSpace idx) with
  | Some i =>
      if ((0 <? i) && (i <=? len folders))%Z then
        match nth_error folders (Z.to_nat (i - 1)) with
        | Some folder => [folder_ID folder]
        | None => []
        end
      else []
  | None => []
  end.

(** the end of [setupOneDrive], from the line the user answers with *)
Definition chooseFolders (folders : list Folder) (line : string)
    (monitorPaths : list string) : outcome (list string) :=
  let selection := TrimSpace line in
  if negb (String.eqb selection EmptyString)
  then selectFolders folders (Split selection ",") monitorPaths
  else Fine monitorPaths.

Definition withInterval (cfg : Config) (interval : Z) : Config :=
  mkConfig (AccessToken cfg) (RefreshToken cfg) (TokenExpiry cfg) (MonitorPaths cfg)
           interval (Enabled cfg).

Definition withEnabled (cfg : Config) (enabled : bool) : Config :=
  mkConfig (AccessToken cfg) (RefreshToken cfg) (TokenExpiry cfg) (MonitorPaths cfg)
           (CheckInterval cfg) enabled.

Definition withCore (cfg : AppConfig) (c : Config) : AppConfig :=
  mkApp c (BotToken cfg) (ChatID cfg) (configPath cfg) (encryptionKey cfg).

Definition setupMonitoring (cfg : AppConfig) : io AppConfig :=
  _ <- act (Print (nl ++ "=== Monitoring Setup ===" ++ nl)) ;;
  _ <- act (Print "Enter check interval in minutes (default: 60): ") ;;
  line <- act ReadLine ;;
  let intervalStr := TrimSpace line in
  let c :=
    if negb (String.eqb intervalStr EmptyString) then
      match Atoi intervalStr with
      | Some interval =>
          if (0 <? interval)%Z then withInterval (core cfg) interval else core cfg
      | None => core cfg
      end
    else core cfg in
  Return (withCore cfg (withEnabled c true)).

Definition logoutFromOneDrive (cfg : AppConfig) : io (option werror * AppConfig) :=
  let cfg := withCore cfg (mkConfig EmptyString EmptyString 0 []
                                    (CheckInterval (core cfg)) (Enabled (core cfg))) in
  e <- ConfigFile.Save cfg ;;
  match e with
  | Some err => Return (Some (Wrapf "failed to save configuration: %w" [] err), cfg)
  | None => Return (None, cfg)
  end.

Definition confirmReset : io bool :=
  _ <- act (Print "Are you sure you want to reset the configuration? (y/N): ") ;;
  line <- act ReadLine ;;
  let response := TrimSpace (ToLower line) in
  Return (String.eqb response "y" || String.eqb response "yes").

(** the [reset] command: the configuration it leaves in memory and whether
    its [Save] went through *)
Definition resetCommand (cfg : AppConfig) : io (AppConfig * bool) :=
  yes <- confirmReset ;;
  if yes then
    let cfg := zeroConfig in
    e <- ConfigFile.Save cfg ;;
    match e with
    | Some _ => Return (cfg, false)
    | None => Return (cfg, true)
    end
  else Return (cfg, false).

End Cli.

End Wire.

(** ** A small world for the layers below *)
Module WireSample.

Import Wire.
Local Open Scope string_scope.

(** numbers are kept as integers here *)
Definition folderItem (id name : string) : json Z :=
  JObj [("id", JStr id); ("name", JStr name); ("size", JNum 7%Z); ("folder", JObj [])].

(** the body [listing]: two folders, a file, a deleted folder ([null]), a
    stray string; the body [files]: a dated file, a file with a creation
    time that does not parse, a folder; the body [nameless]: a folder
    without name *)
Definition items (body : string) : res (list (json Z)) :=
  if body =? "listing" then
    Good [folderItem "alpha" "Alpha";
          JObj [("id", JStr "f1"); ("name", JStr "notes.txt"); ("file", JObj [])];
          JObj [("id", JStr "gone"); ("name", JStr "Gone"); ("folder", JNull)];
          JStr "stray";
          folderItem "beta" "Beta"]
  else if body =? "files" then
    Good [JObj [("id", JStr "f1"); ("name", JStr "snap-new"); ("file", JNull);
                ("createdDateTime", JStr "2024-04-25T00:00:30Z")];
          JObj [("id", JStr "f2"); ("name", JStr "snap-undated"); ("file", JObj []);
                ("createdDateTime", JStr "yesterday")];
          folderItem "sub" "Sub"]
  else if body =? "undated" then
    Good [JObj [("id", JStr "f2"); ("name", JStr "snap-undated"); ("file", JObj []);
                ("createdDateTime", JStr "yesterday")];
          JObj [("id", JStr "f3"); ("name", JStr "snap-bare"); ("file", JObj [])]]
  else if body =? "nameless" then
    Good [JObj [("id", JStr "x"); ("folder", JObj [])]]
  else Bad (External "invalid character").

Definition sampleJson : Json :=
  {| float64 := Z;
     int64 := fun n => n;
     decodeDriveResponse := items;
     parseRFC3339 := fun text =>
       if text =? "2024-04-25T00:00:30Z"
       then Some (CreatedTime Sample.freshFile) else None |}.

Definition granted : TokenResponse :=
  mkTokenResponse "access-2" "refresh-2" 3600 "Bearer" "Files.Read.All" EmptyString EmptyString.
Definition grantedBlank : TokenResponse :=
  mkTokenResponse EmptyString EmptyString 3600 "Bearer" EmptyString EmptyString EmptyString.
Definition pending : TokenResponse :=
  mkTokenResponse EmptyString EmptyString 0 EmptyString EmptyString "authorization_pending" "waiting for the user".
Definition declined : TokenResponse :=
  mkTokenResponse EmptyString EmptyString 0 EmptyString EmptyString "authorization_declined" "the user said no".

Definition tokenBody (body : string) : res TokenResponse :=
  if body =? "granted" then Good granted
  else if body =? "blank" then Good grantedBlank
  else if body =? "pending" then Good pending
  else if body =? "declined" then Good declined
  else Bad (External "unexpected end of JSON input").

Definition device : DeviceCodeResponse :=
  mkDeviceCode "ABCD-1234" "device-1" "https://microsoft.com/devicelogin" 900 5 EmptyString EmptyString.

Definition sampleAuth : AuthJson :=
  {| decodeTokenResponse := tokenBody;
     unmarshalTokenResponse := tokenBody;
     decodeDeviceCodeResponse := fun _ => Good device |}.

(** a cipher that seals nothing, for the framing only *)
Definition sampleLib : ConfigLib :=
  {| marshal := fun c => Good (list_byte_of_string (AccessToken (core c)));
     unmarshal := fun data c =>
       Good (mkApp (mkConfig (string_of_list_byte data) (RefreshToken (core c))
                             (TokenExpiry (core c)) (MonitorPaths (core c))
                             (CheckInterval (core c)) (Enabled (core c)))
                   (BotToken c) (ChatID c) (configPath c) (encryptionKey c));
     gcmSeal := fun _ _ plaintext => plaintext;
     gcmOpen := fun _ _ ciphertext => Good ciphertext;
     pbkdf2Key := fun _ _ => repeat x00 32;
     pbkdf2Key_length := fun _ _ => eq_refl;
     dir := fun _ => "/home/u/.config/restic-backup-checker";
     join := fun parts => String.concat "/" parts |}.

Definition sampleStrings : Strings :=
  {| Atoi := fun text =>
       if text =? "1" then Some 1%Z
       else if text =? "2" then Some 2%Z
       else if text =? "9" then Some 9%Z
       else if text =? "0" then Some 0%Z
       else if text =? "15" then Some 15%Z
       else None;
     TrimSpace := fun text => text;
     ToLower := fun text => text;
     Split := fun text _ => if text =? "2,9,x,2,0" then ["2"; "9"; "x"; "2"; "0"] else [text] |}.

Definition children (folderID : string) : string :=
  baseURL ++ "/me/drive/items/" ++ folderID ++ "/children".

(** the world: every request is answered with status 200 and a body named
    after the folder asked for ([broken]: status 503); the token endpoint
    answers [pending] until a second has been slept through, then
    [granted] *)
Definition slept (h : list sysevent) : bool :=
  existsb (fun e => match sys_call e with Sleep _ => true | _ => false end) h.

Definition world : World :=
  fun h c =>
    match c return reply c with
    | NewRequest _ _ => None
    | HttpDo req =>
        if URL req =? children "root" then Good (mkResponse 200 (Good "listing"))
        else if URL req =? children "snaps" then Good (mkResponse 200 (Good "files"))
        else if URL req =? children "old" then Good (mkResponse 200 (Good "undated"))
        else if URL req =? children "odd" then Good (mkResponse 200 (Good "nameless"))
        else if URL req =? baseURL ++ "/me/drive/root/children"
             then Good (mkResponse 200 (Good "listing"))
        else Good (mkResponse 503 (Good "listing"))
    | PostForm url data =>
        if url =? TokenURL then
          if existsb (fun kv => (fst kv =? "grant_type") && (snd kv =? "refresh_token"))%bool data
          then Good (mkResponse 200 (Good "blank"))
          else Good (mkResponse 400 (Good (if slept h then "granted" else "pending")))
        else Good (mkResponse 200 (Good "device"))
    | ClockNow => Sample.now
    | Sleep _ => tt
    | Print _ => tt
    | ReadLine => "15"
    | RandRead n => Good (repeat x2a n)
    | Stat _ => Some (External "no such file or directory")
    | MkdirAll _ _ => None
    | WriteFile _ _ _ => None
    | ReadFile _ => Bad (External "no such file or directory")
    | HomeDir => Good "/home/u"
    | Hostname => "host"
    | Getenv name => if name =? "USER" then EmptyString else "u"
    | BotSend _ _ _ => None
    end.

(** the same world after the file was written *)
Definition worldWith (file : list byte) : World :=
  fun h c =>
    match c return reply c with
    | ReadFile _ => Good file
    | c' => world h c'
    end.

Definition saved : AppConfig :=
  mkApp (mkConfig "access-1" "refresh-1" 1714004460 ["root"] 60 true)
        "bot-token" 42 "/home/u/.config/restic-backup-checker/config.enc" (repeat x00 32).

Definition folders : list Folder :=
  [mkFolder "alpha" "Alpha" 7; mkFolder "beta" "Beta" 7].

(** the calls of the cycle answered from this world: a listing ends the way
    the function of the client ends on the response of [world], the other
    calls are answered as in [Sample.world] *)
Definition surface (e : werror) : error :=
  match e with
  | External msg => ErrExternal msg
  | Errorf format _ => ErrExternal format
  | Wrapf format _ _ => ErrExternal format
  end.

Definition lifted {A : Type} (r : outcome A) : finish (result A) :=
  match r with
  | Fine v => Returns (Ok v)
  | Failed e => Returns (Err (surface e))
  | Panicked what => Panics what
  end.

Definition host : Host :=
  fun h c =>
    match c return ending c with
    | GetSubfolders cl folderID =>
        lifted (fst (exec world (@OneDrive.GetSubfolders sampleJson cl folderID) []))
    | GetFolderContents cl folderID =>
        lifted (fst (exec world (@OneDrive.GetFolderContents sampleJson cl folderID) []))
    | Now => Sample.world h Now
    | Select => Sample.world h Select
    | RefreshTokenCall token => Sample.world h (RefreshTokenCall token)
    | Save cfg => Sample.world h (Save cfg)
    | SendBackupAlert clientName folderPath lastBackupTime =>
        Sample.world h (SendBackupAlert clientName folderPath lastBackupTime)
    | SendSummaryReport totalClients successCount failedCount failedClients =>
        Sample.world h (SendSummaryReport totalClients successCount failedCount failedClients)
    end.

(** the token good for 20 minutes more, two paths to monitor: [root], and
    [odd], whose listing holds a folder without name *)
Definition cfgOdd : Config :=
  mkConfig "access-1" "refresh-1" (Sample.nowUnix + 1200) ["root"; "odd"] 60 true.

End WireSample.

(** * Properties *)

(** ** Running programs *)

Lemma run_bind {A B : Type} (o : Oracle) (p : prog A) (f : A -> prog B) (h : list event) :
  run o (bind p f) h =
  let '(a, t1) := run o p h in
  let '(b, t2) := run o (f a) (h ++ t1) in
  (b, t1 ++ t2).
Proof.
  revert h; induction p as [a | c k IH]; intro h; simpl.
  - rewrite app_nil_r. now destruct (run o (f a) h).
  - rewrite IH.
    destruct (run o (k (o h c)) (h ++ [Ev c (o h c)])) as [a t1].
    rewrite <- app_assoc; simpl.
    now destruct (run o (f a) (h ++ Ev c (o h c) :: t1)).
Qed.

(** ** Freshness *)

Lemma day_is_24_hours : 24 * Hour = nsPerDay.
Proof. reflexivity. Qed.

Lemma createdToday_utcDay (now : Time) (file : FileInfo) :
  createdToday (Truncate (24 * Hour) (UTC now)) file =
  (utcDay (CreatedTime file) =? utcDay now).
Proof.
  unfold createdToday, Equal, Truncate, utcDay; rewrite day_is_24_hours.
  change (nsPerDay <=? 0) with false; cbn [ns UTC].
  set (a := ns (CreatedTime file)); set (b := ns now).
  assert (Hd : 0 < nsPerDay) by reflexivity.
  pose proof (Z.div_mod a nsPerDay) as Ha.
  pose proof (Z.div_mod b nsPerDay) as Hb.
  destruct (Z.eqb_spec (a / nsPerDay) (b / nsPerDay)) as [E | N].
  - apply Z.eqb_eq. rewrite E in Ha. lia.
  - apply Z.eqb_neq. intro E. apply N.
    apply (Z.mul_cancel_l _ _ nsPerDay); lia.
Qed.

Lemma collectToday_filter (today : Time) (allFiles acc : list FileInfo) :
  collectToday today allFiles acc = acc ++ filter (createdToday today) allFiles.
Proof.
  revert acc; induction allFiles as [| file rest IH]; intro acc; simpl.
  - now rewrite app_nil_r.
  - destruct (createdToday today file); rewrite IH; [now rewrite <- app_assoc | reflexivity].
Qed.

Lemma len_pos_existsb {A : Type} (f : A -> bool) (l : list A) :
  (0 <? len (filter f l)) = existsb f l.
Proof.
  induction l as [| x l IH]; simpl; [reflexivity |].
  destruct (f x); simpl; [| exact IH].
  unfold len; simpl List.length. apply Z.ltb_lt. lia.
Qed.

Lemma filter_createdToday (now : Time) (allFiles : list FileInfo) :
  filter (createdToday (Truncate (24 * Hour) (UTC now))) allFiles =
  filter (fun file => utcDay (CreatedTime file) =? utcDay now) allFiles.
Proof. apply filter_ext; intro file; apply createdToday_utcDay. Qed.

(** C1. [CheckTodayBackups] classifies a file as fresh exactly when the UTC
    calendar day of its creation time is the UTC calendar day of the instant
    of the check: the test of its loop is that comparison, and on a listing
    that succeeded it returns the files of the listing that pass it, in
    order, with the flag telling whether there is one.  A file of the day
    before is therefore never fresh and a file of the same day always is. *)
Theorem fresh_iff_same_utc_day :
  forall (o : Oracle) (h : list event) (c : Client) (folderID : string),
    (forall (now : Time) (file : FileInfo),
        createdToday (Truncate (24 * Hour) (UTC now)) file = true <->
        utcDay (CreatedTime file) = utcDay now) /\
    (forall (now : Time) (file : FileInfo),
        utcDay (CreatedTime file) = utcDay now - 1 ->
        createdToday (Truncate (24 * Hour) (UTC now)) file = false) /\
    match run o (GetAllSnapshots c folderID) h with
    | (Err err, t) =>
        run o (CheckTodayBackups c folderID) h = ((false, [], Some err), t)
    | (Ok allFiles, t) =>
        let now := o (h ++ t) Now in
        let fresh := fun file => utcDay (CreatedTime file) =? utcDay now in
        run o (CheckTodayBackups c folderID) h =
        ((existsb fresh allFiles, filter fresh allFiles, None), t ++ [Ev Now now]) /\
        (forall file, In file (filter fresh allFiles) <->
                      In file allFiles /\ utcDay (CreatedTime file) = utcDay now)
    end.
Proof.
  intros o h c folderID. split; [| split].
  - intros now file. rewrite createdToday_utcDay. apply Z.eqb_eq.
  - intros now file Hday. rewrite createdToday_utcDay. apply Z.eqb_neq. lia.
  - unfold CheckTodayBackups. rewrite run_bind.
    destruct (run o (GetAllSnapshots c folderID) h) as [[allFiles | err] t].
    + cbn [bind perform run].
      rewrite collectToday_filter, filter_createdToday; cbn [app].
      rewrite len_pos_existsb. split; [reflexivity |].
      intro file. rewrite filter_In, Z.eqb_eq. reflexivity.
    + cbn [run]. now rewrite app_nil_r.
Qed.

(** ** The aggregate of a cycle *)

Lemma len_app {A : Type} (l1 l2 : list A) : len (l1 ++ l2) = len l1 + len l2.
Proof. unfold len. rewrite length_app. lia. Qed.

Lemma len_filter_split {A : Type} (f : A -> bool) (l : list A) :
  len (filter f l) + len (filter (fun x => negb (f x)) l) = len l.
Proof.
  unfold len. induction l as [| x l IH]; simpl; [reflexivity |].
  destruct (f x); simpl List.length; lia.
Qed.

Lemma record_statuses (st : Cycle) (s : BackupStatus) :
  statuses (record st s) = statuses st ++ [s].
Proof. unfold record. destruct (Error s); [| destruct (HasBackup s)]; reflexivity. Qed.

Lemma record_counts (st : Cycle) (s : BackupStatus) :
  record st s =
  if succeeded s
  then mkCycle (statuses st ++ [s]) (successCount st + 1) (failedCount st) (failedClients st)
  else mkCycle (statuses st ++ [s]) (successCount st) (failedCount st + 1)
               (failedClients st ++ [ClientName s]).
Proof.
  unfold record, succeeded. destruct (Error s); [| destruct (HasBackup s)]; reflexivity.
Qed.

Lemma record_countsAgree (st : Cycle) (s : BackupStatus) :
  countsAgree st -> countsAgree (record st s).
Proof.
  intros (Hs & Hf & Hn). rewrite record_counts. unfold countsAgree, failed in *.
  destruct (succeeded s) eqn:E; cbn [statuses successCount failedCount failedClients];
    rewrite !filter_app; cbn [filter]; rewrite E; cbn [negb];
    rewrite ?app_nil_r, ?map_app, ?len_app; cbn [map];
    rewrite Hs, Hf, Hn; repeat split; reflexivity || (unfold len; simpl; lia).
Qed.



Section CycleInvariant.

Variable P : Cycle -> Prop.
Variable Q : BackupStatus -> Prop.
Hypothesis status_ok :
  forall o h client folderID clientName,
    Q (fst (run o (checkClientBackup client folderID clientName) h)).
Hypothesis record_ok : forall st s, P st -> Q s -> P (record st s).

Lemma checkClients_invariant (o : Oracle) (client : Client) (subfolders : list Folder) :
  forall st h, P st -> P (fst (run o (checkClients client subfolders st) h)).
Proof.
  induction subfolders as [| subfolder rest IH]; intros st h HP; [exact HP |].
  cbn [checkClients]. rewrite run_bind.
  pose proof (status_ok o h client (folder_ID subfolder) (folder_Name subfolder)) as HQ.
  destruct (run o (checkClientBackup client (folder_ID subfolder) (folder_Name subfolder)) h)
    as [s t1]; cbn [fst] in HQ.
  specialize (IH (record st s) (h ++ t1) (record_ok _ _ HP HQ)).
  now destruct (run o (checkClients client rest (record st s)) (h ++ t1)).
Qed.

Lemma checkPaths_invariant (o : Oracle) (client : Client) (paths : list string) :
  forall st h, P st -> P (fst (run o (checkPaths client paths st) h)).
Proof.
  induction paths as [| folderID rest IH]; intros st h HP; [exact HP |].
  cbn [checkPaths bind perform run].
  set (h1 := h ++ [Ev (GetSubfolders client folderID) (o h (GetSubfolders client folderID))]).
  destruct (o h (GetSubfolders client folderID)) as [subfolders | err].
  - rewrite run_bind.
    pose proof (checkClients_invariant o client subfolders st h1 HP) as H1.
    destruct (run o (checkClients client subfolders st) h1) as [st1 t1]; cbn [fst] in H1.
    specialize (IH st1 (h1 ++ t1) H1).
    now destruct (run o (checkPaths client rest st1) (h1 ++ t1)).
  - specialize (IH st h1 HP).
    now destruct (run o (checkPaths client rest st) h1).
Qed.

End CycleInvariant.

(** ** One client *)

Lemma checkClientBackup_erroredIsEmpty (o : Oracle) (h : list event)
    (client : Client) (folderID clientName : string) :
  erroredIsEmpty (fst (run o (checkClientBackup client folderID clientName) h)).
Proof.
  unfold checkClientBackup. rewrite run_bind.
  destruct (run o (CheckTodayBackups client folderID) h) as [[[hasBackup recentFiles] err] t1].
  destruct err as [e |].
  - cbn. unfold erroredIsEmpty; cbn. auto.
  - rewrite run_bind.
    destruct (run o (GetAllSnapshots client folderID) (h ++ t1)) as [[allFiles | e] t2];
      cbn; unfold erroredIsEmpty; cbn; congruence.
Qed.

Lemma findSnapshotsFolderID_missing (subfolders : list Folder) :
  (forall f, In f subfolders -> folder_Name f <> "snapshots"%string) ->
  findSnapshotsFolderID subfolders = EmptyString.
Proof.
  induction subfolders as [| folder rest IH]; intro Hno; [reflexivity |].
  cbn [findSnapshotsFolderID].
  destruct (String.eqb_spec (folder_Name folder) "snapshots") as [E | _].
  - exfalso. apply (Hno folder); [now left | exact E].
  - apply IH. intros f Hin. apply Hno. now right.
Qed.

Lemma GetAllSnapshots_missing (o : Oracle) (h : list event) (client : Client)
    (folderID : string) (subfolders : list Folder) :
  o h (GetSubfolders client folderID) = Ok subfolders ->
  (forall f, In f subfolders -> folder_Name f <> "snapshots"%string) ->
  run o (GetAllSnapshots client folderID) h =
  (Err (ErrSnapshotsNotFound folderID (map folder_Name subfolders)),
   [Ev (GetSubfolders client folderID) (Ok subfolders)]).
Proof.
  intros Hsub Hno. unfold GetAllSnapshots. cbn [bind perform run].
  rewrite Hsub, (findSnapshotsFolderID_missing _ Hno). reflexivity.
Qed.

Lemma checkClientBackup_missing (o : Oracle) (h : list event) (client : Client)
    (folderID clientName : string) (subfolders : list Folder) :
  o h (GetSubfolders client folderID) = Ok subfolders ->
  (forall f, In f subfolders -> folder_Name f <> "snapshots"%string) ->
  run o (checkClientBackup client folderID clientName) h =
  (mkStatus clientName folderID false 0 zeroTime
            (Some (ErrSnapshotsNotFound folderID (map folder_Name subfolders))),
   [Ev (GetSubfolders client folderID) (Ok subfolders)]).
Proof.
  intros Hsub Hno. unfold checkClientBackup, CheckTodayBackups.
  rewrite !run_bind, (GetAllSnapshots_missing _ _ _ _ _ Hsub Hno). reflexivity.
Qed.

(** ** The counts *)

Lemma emptyCycle_countsAgree : countsAgree emptyCycle.
Proof. repeat split. Qed.

Lemma checkPaths_countsAgree (o : Oracle) (h : list event) (client : Client)
    (paths : list string) (st : Cycle) :
  countsAgree st -> countsAgree (fst (run o (checkPaths client paths st) h)).
Proof.
  apply (checkPaths_invariant countsAgree (fun _ => True)).
  - intros; exact I.
  - intros st0 s H _. now apply record_countsAgree.
Qed.

(** ** Which calls each part makes *)

Lemma only_bind {A B : Type} (f : call -> bool) (p : prog A) (q : A -> prog B) :
  only f p -> (forall a, only f (q a)) -> only f (bind p q).
Proof.
  intros Hp Hq. induction p as [a | c k IH]; cbn [bind only] in *.
  - apply Hq.
  - destruct Hp as [Hc Hk]. split; [exact Hc |]. intro r. apply IH, Hk.
Qed.

Lemma only_perform (f : call -> bool) (c : call) : f c = true -> only f (perform c).
Proof. intro Hc. cbn. auto. Qed.

Lemma only_weaken {A : Type} (f g : call -> bool) (p : prog A) :
  (forall c, f c = true -> g c = true) -> only f p -> only g p.
Proof.
  intro Hfg. induction p as [a | c k IH]; cbn [only]; [trivial |].
  intros [Hc Hk]. split; [now apply Hfg |]. intro r. apply IH, Hk.
Qed.

Lemma only_run {A : Type} (f : call -> bool) (o : Oracle) (p : prog A) :
  only f p -> forall h, forallb f (calls (snd (run o p h))) = true.
Proof.
  induction p as [a | c k IH]; intros Hp h; cbn [run]; [reflexivity |].
  destruct Hp as [Hc Hk]. specialize (IH (o h c) (Hk _) (h ++ [Ev c (o h c)])).
  destruct (run o (k (o h c)) (h ++ [Ev c (o h c)])) as [a t].
  cbn in *. now rewrite Hc, IH.
Qed.

Lemma filter_none {A : Type} (f g : A -> bool) (l : list A) :
  (forall x, f x = true -> g x = false) -> forallb f l = true -> filter g l = [].
Proof.
  intros Hfg. induction l as [| x l IH]; cbn; [reflexivity |].
  intro H. apply andb_prop in H as [Hx Hl]. rewrite (Hfg x Hx). now apply IH.
Qed.

Lemma only_GetAllSnapshots (client : Client) (folderID : string) :
  only isStorageCall (GetAllSnapshots client folderID).
Proof.
  unfold GetAllSnapshots. apply only_bind; [now apply only_perform |].
  intros [subfolders | err]; cbn [only]; [| trivial].
  destruct (String.eqb _ _); cbn [only]; [trivial |].
  apply only_bind; [now apply only_perform |]. intros [files | err]; exact I.
Qed.

Lemma storage_is_check (c : call) : isStorageCall c = true -> isCheckCall c = true.
Proof. now destruct c. Qed.

Lemma only_checkClientBackup (client : Client) (folderID clientName : string) :
  only isCheckCall (checkClientBackup client folderID clientName).
Proof.
  pose proof (only_weaken _ _ _ storage_is_check (only_GetAllSnapshots client folderID)) as HG.
  unfold checkClientBackup, CheckTodayBackups.
  apply only_bind.
  - apply only_bind; [exact HG |]. intros [allFiles | err]; cbn [only]; [| trivial].
    apply only_bind; [now apply only_perform | intro; exact I].
  - intros [[hasBackup recentFiles] [e |]]; cbn [only]; [trivial |].
    apply only_bind; [exact HG |]. intros [allFiles | err]; exact I.
Qed.

Lemma only_checkClients (client : Client) (subfolders : list Folder) :
  forall st, only isCheckCall (checkClients client subfolders st).
Proof.
  induction subfolders as [| subfolder rest IH]; intro st; cbn [checkClients]; [exact I |].
  apply only_bind; [apply only_checkClientBackup |]. intro s. apply IH.
Qed.

Lemma only_checkPaths (client : Client) (paths : list string) :
  forall st, only isCheckCall (checkPaths client paths st).
Proof.
  induction paths as [| folderID rest IH]; intro st; cbn [checkPaths]; [exact I |].
  apply only_bind; [now apply only_perform |].
  intros [subfolders | err]; [| apply IH].
  apply only_bind; [apply only_checkClients | apply IH].
Qed.

Lemma only_refreshTokenIfNeeded (cfg : Config) :
  only isCredentialCall (refreshTokenIfNeeded cfg).
Proof.
  unfold refreshTokenIfNeeded. destruct (TokenExpiry cfg =? 0); [exact I |].
  apply only_bind; [now apply only_perform |]. intro now.
  destruct (Before now _); [exact I |].
  apply only_bind; [now apply only_perform |]. intros [newToken | err]; [| exact I].
  apply only_bind; [now apply only_perform | intro; exact I].
Qed.

(** ** Statuses that carry an error *)

Lemma checkPaths_erroredIsEmpty (o : Oracle) (h : list event) (client : Client)
    (paths : list string) :
  Forall erroredIsEmpty (statuses (fst (run o (checkPaths client paths emptyCycle) h))).
Proof.
  apply (checkPaths_invariant (fun st => Forall erroredIsEmpty (statuses st)) erroredIsEmpty).
  - intros. apply checkClientBackup_erroredIsEmpty.
  - intros st s Hst Hs. rewrite record_statuses. apply Forall_app. split; [exact Hst | now constructor].
  - constructor.
Qed.

Lemma errored_not_succeeded (s : BackupStatus) : Error s <> None -> succeeded s = false.
Proof. unfold succeeded. destruct (Error s); congruence. Qed.

(** ** The cycle in a steady environment *)





(** ** The cycle over listings that stay the same *)

Lemma checkClients_keeps (o : Oracle) (client : Client) (subfolders : list Folder)
    (s : BackupStatus) :
  forall st h,
    In s (statuses st) -> In s (statuses (fst (run o (checkClients client subfolders st) h))).
Proof.
  intros st h. apply (checkClients_invariant (fun st => In s (statuses st)) (fun _ => True)).
  - intros; exact I.
  - intros st0 s0 Hin _. rewrite record_statuses. apply in_or_app. now left.
Qed.

Lemma checkPaths_keeps (o : Oracle) (client : Client) (paths : list string)
    (s : BackupStatus) :
  forall st h,
    In s (statuses st) -> In s (statuses (fst (run o (checkPaths client paths st) h))).
Proof.
  intros st h. apply (checkPaths_invariant (fun st => In s (statuses st)) (fun _ => True)).
  - intros; exact I.
  - intros st0 s0 Hin _. rewrite record_statuses. apply in_or_app. now left.
Qed.

Lemma checkClients_checks_each (o : Oracle) (client : Client) (subfolders : list Folder)
    (f : Folder) :
  In f subfolders ->
  forall st h,
    exists h',
      In (fst (run o (checkClientBackup client (folder_ID f) (folder_Name f)) h'))
         (statuses (fst (run o (checkClients client subfolders st) h))).
Proof.
  induction subfolders as [| subfolder rest IH]; intros Hin st h; [destruct Hin |].
  cbn [checkClients]. rewrite run_bind.
  destruct (run o (checkClientBackup client (folder_ID subfolder) (folder_Name subfolder)) h)
    as [s t1] eqn:Hs.
  destruct Hin as [-> | Hin].
  - exists h. rewrite Hs. cbn [fst].
    pose proof (checkClients_keeps o client rest s (record st s) (h ++ t1)) as Hk.
    destruct (run o (checkClients client rest (record st s)) (h ++ t1)) as [st' t2].
    cbn [fst] in *. apply Hk. rewrite record_statuses. apply in_or_app. right. now left.
  - destruct (IH Hin (record st s) (h ++ t1)) as [h' Hh'].
    exists h'. now destruct (run o (checkClients client rest (record st s)) (h ++ t1)).
Qed.

Lemma checkPaths_checks_each (o : Oracle) (ls : string -> result (list Folder))
    (client : Client) (paths : list string) (p : string) (subfolders : list Folder)
    (f : Folder) :
  (forall h' folderID, o h' (GetSubfolders client folderID) = ls folderID) ->
  In p paths -> ls p = Ok subfolders -> In f subfolders ->
  forall st h,
    exists h',
      In (fst (run o (checkClientBackup client (folder_ID f) (folder_Name f)) h'))
         (statuses (fst (run o (checkPaths client paths st) h))).
Proof.
  intros Hls Hp Hsub Hf.
  induction paths as [| q rest IH]; intros st h; [destruct Hp |].
  cbn [checkPaths bind perform run].
  pose proof (Hls h q) as Hq.
  set (e := Ev (GetSubfolders client q) (o h (GetSubfolders client q))).
  destruct Hp as [-> | Hp].
  - rewrite Hsub in Hq. clearbody e. rewrite Hq. rewrite run_bind.
    destruct (checkClients_checks_each o client subfolders f Hf st (h ++ [e])) as [h' Hh'].
    exists h'.
    destruct (run o (checkClients client subfolders st) (h ++ [e])) as [st1 t1].
    pose proof (checkPaths_keeps o client rest _ st1 ((h ++ [e]) ++ t1) Hh') as Hk.
    now destruct (run o (checkPaths client rest st1) ((h ++ [e]) ++ t1)).
  - clearbody e. destruct (o h (GetSubfolders client q)) as [subs | err].
    + rewrite run_bind.
      destruct (run o (checkClients client subs st) (h ++ [e])) as [st1 t1].
      destruct (IH Hp st1 ((h ++ [e]) ++ t1)) as [h' Hh'].
      exists h'. now destruct (run o (checkPaths client rest st1) ((h ++ [e]) ++ t1)).
    + destruct (IH Hp st (h ++ [e])) as [h' Hh'].
      exists h'. now destruct (run o (checkPaths client rest st) (h ++ [e])).
Qed.



Lemma len_pos_In {A : Type} (x : A) (l : list A) : In x l -> 0 < len l.
Proof. destruct l as [| y l]; [intros [] |]. intros _. unfold len. cbn. lia. Qed.

(** C3. A status that [checkClientBackup] returns with an error has
    [HasBackup = false] and [FileCount = 0]; in the aggregate of the loop of
    [CheckOnce] the success counter counts the statuses that succeeded, the
    failure counter and the failed-client list those that did not, and an
    errored status is never among the first and its client name always in
    the list.  A client folder with no sub-folder named [snapshots] gets
    such a status: recording it leaves the success counter alone, adds one
    to the failure counter and appends the client to the failed-client list.
    And the cycle does check it: while the listing of sub-folders answers
    the same throughout the cycle, every client folder found under a
    monitored path that has no [snapshots] sub-folder has its errored status
    among the statuses of the cycle, is counted by the failure counter, not
    by the success counter, and is named in the failed-client list. *)
Theorem errored_status_counts_as_failure :
  forall (o : Oracle) (h : list event) (client : Client),
    (forall folderID clientName,
        let s := fst (run o (checkClientBackup client folderID clientName) h) in
        Error s <> None -> HasBackup s = false /\ FileCount s = 0) /\
    (forall paths,
        let st := fst (run o (checkPaths client paths emptyCycle) h) in
        successCount st = len (filter succeeded (statuses st)) /\
        failedCount st = len (filter failed (statuses st)) /\
        failedClients st = map ClientName (filter failed (statuses st)) /\
        forall s, In s (statuses st) -> Error s <> None ->
          HasBackup s = false /\ FileCount s = 0 /\
          succeeded s = false /\ In (ClientName s) (failedClients st)) /\
    (forall folderID clientName subfolders,
        o h (GetSubfolders client folderID) = Ok subfolders ->
        (forall f, In f subfolders -> folder_Name f <> "snapshots"%string) ->
        let s := fst (run o (checkClientBackup client folderID clientName) h) in
        Error s = Some (ErrSnapshotsNotFound folderID (map folder_Name subfolders)) /\
        forall st,
          successCount (record st s) = successCount st /\
          failedCount (record st s) = failedCount st + 1 /\
          failedClients (record st s) = failedClients st ++ [clientName]) /\
    (forall (ls : string -> result (list Folder)) paths p subfolders f inner,
        (forall h' folderID, o h' (GetSubfolders client folderID) = ls folderID) ->
        In p paths ->
        ls p = Ok subfolders ->
        In f subfolders ->
        ls (folder_ID f) = Ok inner ->
        (forall g, In g inner -> folder_Name g <> "snapshots"%string) ->
        let st := fst (run o (checkPaths client paths emptyCycle) h) in
        let s := mkStatus (folder_Name f) (folder_ID f) false 0 zeroTime
                          (Some (ErrSnapshotsNotFound (folder_ID f) (map folder_Name inner))) in
        In s (statuses st) /\
        In s (filter failed (statuses st)) /\
        ~ In s (filter succeeded (statuses st)) /\
        In (folder_Name f) (failedClients st) /\
        0 < failedCount st /\
        successCount st < len (statuses st)).
Proof.
  intros o h client. split; [| split; [| split]].
  - intros folderID clientName. apply checkClientBackup_erroredIsEmpty.
  - intros paths st.
    destruct (checkPaths_countsAgree o h client paths emptyCycle emptyCycle_countsAgree)
      as (Hs & Hf & Hn).
    pose proof (checkPaths_erroredIsEmpty o h client paths) as Hall.
    fold st in Hs, Hf, Hn, Hall. do 3 (split; [assumption |]).
    intros s Hin Herr.
    rewrite Forall_forall in Hall. destruct (Hall s Hin Herr) as [Hb Hc].
    pose proof (errored_not_succeeded s Herr) as Hns.
    repeat split; try assumption.
    rewrite Hn. apply in_map, filter_In. split; [exact Hin |].
    unfold failed. now rewrite Hns.
  - intros folderID clientName subfolders Hsub Hno s. subst s.
    rewrite (checkClientBackup_missing _ _ _ _ _ _ Hsub Hno). cbn [fst Error].
    split; [reflexivity |]. intro st. repeat split.
  - intros ls paths p subfolders f inner Hls Hp Hsub Hf Hinner Hno st s.
    destruct (checkPaths_countsAgree o h client paths emptyCycle emptyCycle_countsAgree)
      as (Hs & Hfc & Hn).
    fold st in Hs, Hfc, Hn.
    assert (Hin : In s (statuses st)).
    { destruct (checkPaths_checks_each o ls client paths p subfolders f Hls Hp Hsub Hf
                  emptyCycle h) as [h' Hh'].
      fold st in Hh'.
      assert (Hlisted : o h' (GetSubfolders client (folder_ID f)) = Ok inner)
        by now rewrite Hls.
      now rewrite (checkClientBackup_missing _ _ _ _ _ _ Hlisted Hno) in Hh'. }
    assert (Hfailed : In s (filter failed (statuses st)))
      by (apply filter_In; split; [exact Hin | reflexivity]).
    split; [exact Hin |]. split; [exact Hfailed |]. split.
    { intro Hsucc. apply filter_In in Hsucc as [_ Hsucc]. discriminate Hsucc. }
    split; [rewrite Hn; exact (in_map ClientName _ _ Hfailed) |].
    split; [rewrite Hfc; exact (len_pos_In _ _ Hfailed) |].
    rewrite Hs. pose proof (len_filter_split succeeded (statuses st)) as Hsplit.
    pose proof (len_pos_In _ _ Hfailed) as Hpos. unfold failed in Hpos. lia.
Qed.

(** ** Paths whose listing fails *)






(** ** The credential check *)

Lemma within_margin (now expiry : Time) :
  Before now (Add expiry (-10 * Minute)) = true <-> 10 * Minute < ns expiry - ns now.
Proof. unfold Before, Add; cbn [ns]. rewrite Z.ltb_lt. lia. Qed.

Lemma refreshTokenIfNeeded_margin (o : Oracle) (h : list event) (cfg : Config) :
  let now := o h Now in
  let expiry := Unix (TokenExpiry cfg) in
  let token := mkToken (AccessToken cfg) (RefreshToken cfg) expiry in
  let r := run o (refreshTokenIfNeeded cfg) h in
  (TokenExpiry cfg = 0 -> r = ((Some ErrNoTokenExpiry, cfg), [])) /\
  (TokenExpiry cfg <> 0 ->
     (count isRefreshCall (snd r) = 0%nat /\ snd (fst r) = cfg <->
      10 * Minute < ns expiry - ns now) /\
     (10 * Minute < ns expiry - ns now -> r = ((None, cfg), [Ev Now now])) /\
     (~ 10 * Minute < ns expiry - ns now ->
        count isRefreshCall (snd r) = 1%nat /\
        exists t,
          snd r = Ev Now now
                  :: Ev (RefreshTokenCall token) (o (h ++ [Ev Now now]) (RefreshTokenCall token))
                  :: t) /\
     fst (fst r) <> Some ErrNoTokenExpiry).
Proof.
  intros now expiry token r. subst r. unfold refreshTokenIfNeeded.
  destruct (Z.eqb_spec (TokenExpiry cfg) 0) as [E0 | N0]; split; try easy.
  intros _. cbn [bind perform run]. fold now expiry token.
  pose proof (within_margin now expiry) as Hm.
  destruct (Before now (Add expiry (-10 * Minute))).
  - assert (Hin : 10 * Minute < ns expiry - ns now) by now apply Hm.
    cbn. repeat split; auto; try easy.
  - assert (Hout : ~ 10 * Minute < ns expiry - ns now)
      by (intro H; apply Hm in H; discriminate).
    cbn [bind perform run]. set (h1 := h ++ [Ev Now now]).
    destruct (o h1 (RefreshTokenCall token)) as [newToken | err]; cbn;
      (split; [split; [intros [Hc _]; discriminate | intro; contradiction] |]);
      (split; [intro; contradiction |]);
      (split; [intros _; split; [reflexivity | eexists; reflexivity] | discriminate]).
Qed.

Lemma wrap64_above (z : Z) : 2 ^ 63 <= z < 2 ^ 64 -> wrap64 z = z - 2 ^ 64.
Proof.
  intro Hz. unfold wrap64.
  replace (z + 2 ^ 63) with (z + 2 ^ 63 - 2 ^ 64 + 1 * 2 ^ 64) by lia.
  rewrite Z.mod_add by lia. rewrite Z.mod_small; lia.
Qed.

Lemma wrap64_within (z : Z) : - 2 ^ 63 <= z < 2 ^ 63 -> wrap64 z = z.
Proof. intro Hz. unfold wrap64. rewrite Z.mod_small; lia. Qed.

(** C5 (as the code has it). With no expiry recorded ([TokenExpiry = 0])
    [refreshTokenIfNeeded] returns the error "no token expiry set" at once,
    without any call and with the configuration as it was.  With an expiry
    recorded, it makes no refresh call and leaves the configuration
    unchanged exactly when the instant [time.Unix] makes of the recorded
    count, minus the current instant, exceeds 10 minutes, in which case it
    returns no error after reading the clock only; otherwise the refresh call
    is the call after the clock reading.  The error of the first case is not
    one the second case can return.  The instant [time.Unix] makes is the
    recorded one as long as the int64 sum of the count and the seconds
    between the zero time and 1970 does not wrap, so that there the test is
    on the recorded expiry itself; for the counts above that, the sum wraps
    to an instant before the zero time and the refresh call is made at any
    instant since the zero time. *)
Theorem refresh_skipped_iff_margin :
  forall (o : Oracle) (h : list event) (cfg : Config),
    let now := o h Now in
    let expiry := Unix (TokenExpiry cfg) in
    let token := mkToken (AccessToken cfg) (RefreshToken cfg) expiry in
    let r := run o (refreshTokenIfNeeded cfg) h in
    (TokenExpiry cfg = 0 -> r = ((Some ErrNoTokenExpiry, cfg), [])) /\
    (TokenExpiry cfg <> 0 ->
       (count isRefreshCall (snd r) = 0%nat /\ snd (fst r) = cfg <->
        10 * Minute < ns expiry - ns now) /\
       (10 * Minute < ns expiry - ns now -> r = ((None, cfg), [Ev Now now])) /\
       (~ 10 * Minute < ns expiry - ns now ->
          count isRefreshCall (snd r) = 1%nat /\
          exists t,
            snd r = Ev Now now
                    :: Ev (RefreshTokenCall token) (o (h ++ [Ev Now now]) (RefreshTokenCall token))
                    :: t) /\
       fst (fst r) <> Some ErrNoTokenExpiry) /\
    (- 2 ^ 63 <= TokenExpiry cfg + unixToInternal < 2 ^ 63 ->
       ns expiry = recordedExpiry cfg /\
       (TokenExpiry cfg <> 0 ->
          (count isRefreshCall (snd r) = 0%nat /\ snd (fst r) = cfg <->
           10 * Minute < recordedExpiry cfg - ns now))) /\
    (TokenExpiry cfg < 2 ^ 63 -> 2 ^ 63 <= TokenExpiry cfg + unixToInternal ->
       ns expiry = recordedExpiry cfg - 2 ^ 64 * Second /\
       (0 <= ns now ->
          ~ 10 * Minute < ns expiry - ns now /\ count isRefreshCall (snd r) = 1%nat)).
Proof.
  intros o h cfg now expiry token r.
  destruct (refreshTokenIfNeeded_margin o h cfg) as [Hzero Hset].
  fold now expiry token r in Hzero, Hset.
  split; [exact Hzero |]. split; [exact Hset |]. split.
  - intro Hrange.
    assert (Hexp : ns expiry = recordedExpiry cfg).
    { subst expiry. unfold Unix, recordedExpiry; cbn [ns]. now rewrite wrap64_within. }
    split; [exact Hexp |]. intro Hne. rewrite <- Hexp. exact (proj1 (Hset Hne)).
  - intros Hint Hwrap.
    assert (Hu : unixToInternal < 2 ^ 63) by reflexivity.
    assert (Hexp : ns expiry = recordedExpiry cfg - 2 ^ 64 * Second).
    { subst expiry. unfold Unix, recordedExpiry; cbn [ns].
      rewrite wrap64_above by lia. lia. }
    split; [exact Hexp |]. intro Hnow.
    assert (Hs : Second = 1000000000) by reflexivity.
    assert (Hm : Minute = 60000000000) by reflexivity.
    assert (Hout : ~ 10 * Minute < ns expiry - ns now).
    { rewrite Hexp. unfold recordedExpiry. rewrite Hs, Hm. lia. }
    split; [exact Hout |].
    assert (Hne : TokenExpiry cfg <> 0) by lia.
    destruct (Hset Hne) as (_ & _ & Hcall & _). exact (proj1 (Hcall Hout)).
Qed.

Lemma refresh_error_keeps_config (o : Oracle) (h : list event) (cfg cfg' : Config)
    (e : error) (t : list event) :
  run o (refreshTokenIfNeeded cfg) h = ((Some e, cfg'), t) -> cfg' = cfg.
Proof.
  unfold refreshTokenIfNeeded. destruct (TokenExpiry cfg =? 0); cbn [run].
  - congruence.
  - cbn [bind perform run]. destruct (Before _ _); cbn [run]; [congruence |].
    cbn [bind perform run].
    destruct (o _ (RefreshTokenCall _)) as [newToken | err]; cbn; congruence.
Qed.

(** ** The cycle as a whole *)

Lemma run_sendAlerts (Format : Time -> string -> string) (o : Oracle)
    (sts : list BackupStatus) :
  forall h,
    fst (run o (sendAlerts Format sts) h) = tt /\
    calls (snd (run o (sendAlerts Format sts) h)) =
    map (alertCall Format) (filter (fun s => negb (HasBackup s)) sts).
Proof.
  induction sts as [| s rest IH]; intro h; [split; reflexivity |].
  cbn [sendAlerts filter]. destruct (negb (HasBackup s)).
  - cbn [bind perform run].
    set (e := Ev _ _). destruct (IH (h ++ [e])) as [_ Hc].
    destruct (run o (sendAlerts Format rest) (h ++ [e])) as [[] t].
    cbn in *. split; [reflexivity |]. now rewrite Hc.
  - apply IH.
Qed.

Lemma run_sendNotifications (Format : Time -> string -> string) (o : Oracle)
    (h : list event) (m : Monitor) (st : Cycle) :
  calls (snd (run o (sendNotifications Format m (statuses st) (successCount st)
                                       (failedCount st) (failedClients st)) h)) =
  match telegram m with
  | None => []
  | Some _ =>
      map (alertCall Format) (filter (fun s => negb (HasBackup s)) (statuses st))
      ++ [summaryCall st]
  end.
Proof.
  unfold sendNotifications. destruct (telegram m) as [tg |]; [| reflexivity].
  rewrite run_bind. destruct (run_sendAlerts Format o (statuses st) h) as [_ Hc].
  destruct (run o (sendAlerts Format (statuses st)) h) as [[] t1].
  cbn [bind perform run]. cbn [snd] in Hc.
  destruct (o (h ++ t1) _) as [err |]; cbn [run snd];
    unfold calls in *; rewrite map_app, Hc; reflexivity.
Qed.

Lemma run_CheckOnce (Format : Time -> string -> string) (o : Oracle)
    (h : list event) (m : Monitor) :
  run o (CheckOnce Format m) h =
  let '((err, cfg), t1) := run o (refreshTokenIfNeeded (config m)) h in
  match err with
  | Some e => ((Some (ErrCheckRefresh e), mkMonitor cfg (telegram m)), t1)
  | None =>
      let '(st, t2) := run o (checkPaths (NewClient (AccessToken cfg)) (MonitorPaths cfg)
                                         emptyCycle) (h ++ t1) in
      let '(_, t3) := run o (sendNotifications Format (mkMonitor cfg (telegram m))
                                               (statuses st) (successCount st)
                                               (failedCount st) (failedClients st))
                          ((h ++ t1) ++ t2) in
      ((None, mkMonitor cfg (telegram m)), t1 ++ t2 ++ t3)
  end.
Proof.
  unfold CheckOnce. rewrite run_bind.
  destruct (run o (refreshTokenIfNeeded (config m)) h) as [[[e |] cfg] t1].
  - cbn [run]. now rewrite app_nil_r.
  - cbn [config telegram]. rewrite run_bind.
    destruct (run o (checkPaths _ _ _) (h ++ t1)) as [st t2].
    rewrite run_bind.
    destruct (run o (sendNotifications Format _ _ _ _ _) ((h ++ t1) ++ t2)) as [r t3].
    cbn [run]. now rewrite app_nil_r.
Qed.

Lemma failed_is_not_HasBackup (s : BackupStatus) :
  erroredIsEmpty s -> failed s = negb (HasBackup s).
Proof.
  unfold erroredIsEmpty, failed, succeeded. destruct (Error s) as [e |]; [| reflexivity].
  intro H. destruct H as [Hb _]; [discriminate |]. now rewrite Hb.
Qed.

Lemma filter_failed (sts : list BackupStatus) :
  Forall erroredIsEmpty sts ->
  filter (fun s => negb (HasBackup s)) sts = filter failed sts.
Proof.
  intro Hall. apply filter_ext_in. intros s Hin. symmetry.
  apply failed_is_not_HasBackup. rewrite Forall_forall in Hall. now apply Hall.
Qed.

Lemma count_none (f g : call -> bool) (t : list event) :
  (forall c, f c = true -> g c = false) -> forallb f (calls t) = true -> count g t = 0%nat.
Proof. intros Hfg Hall. unfold count. now rewrite (filter_none f g _ Hfg Hall). Qed.

Lemma run_bind_first {A B : Type} (o : Oracle) (p : prog A) (f : A -> prog B)
    (h : list event) (e : event) :
  (exists t, snd (run o p h) = e :: t) ->
  exists t, snd (run o (bind p f) h) = e :: t.
Proof.
  intros [t Ht]. rewrite run_bind.
  destruct (run o p h) as [a t1]. cbn [snd] in Ht. subst t1.
  destruct (run o (f a) (h ++ e :: t)) as [b t2]. cbn. eexists. reflexivity.
Qed.

Lemma checkClientBackup_lists_first (o : Oracle) (h : list event) (client : Client)
    (folderID clientName : string) :
  exists t,
    snd (run o (checkClientBackup client folderID clientName) h) =
    Ev (GetSubfolders client folderID) (o h (GetSubfolders client folderID)) :: t.
Proof.
  unfold checkClientBackup, CheckTodayBackups, GetAllSnapshots.
  do 3 apply run_bind_first. cbn. eexists. reflexivity.
Qed.

Lemma credential_not_storage (c : call) : isCredentialCall c = true -> isStorageCall c = false.
Proof. now destruct c. Qed.

Lemma credential_not_notification (c : call) :
  isCredentialCall c = true -> isNotification c = false.
Proof. now destruct c. Qed.

Lemma check_not_notification (c : call) : isCheckCall c = true -> isNotification c = false.
Proof. now destruct c. Qed.

(** C6. When [refreshTokenIfNeeded] returns an error (the error of the
    refresh call, or "no token expiry set" when none was recorded),
    [CheckOnce] returns that error wrapped, leaves the monitor as it was, and
    has made no call beyond those of the credential check: no listing call
    and no alert or summary is sent.  As every [checkClientBackup] makes a
    listing call, no status was produced either. *)
Theorem refresh_failure_aborts_cycle :
  forall (Format : Time -> string -> string) (o : Oracle) (h : list event) (m : Monitor),
    (TokenExpiry (config m) = 0 ->
     run o (CheckOnce Format m) h = ((Some (ErrCheckRefresh ErrNoTokenExpiry), m), [])) /\
    (forall e cfg t,
        run o (refreshTokenIfNeeded (config m)) h = ((Some e, cfg), t) ->
        run o (CheckOnce Format m) h = ((Some (ErrCheckRefresh e), m), t) /\
        count isStorageCall t = 0%nat /\
        count isNotification t = 0%nat) /\
    (forall o' h' client folderID clientName,
        (1 <= count isStorageCall
                (snd (run o' (checkClientBackup client folderID clientName) h')))%nat).
Proof.
  intros Format o h m.
  assert (Hfail : forall e cfg t,
             run o (refreshTokenIfNeeded (config m)) h = ((Some e, cfg), t) ->
             run o (CheckOnce Format m) h = ((Some (ErrCheckRefresh e), m), t) /\
             count isStorageCall t = 0%nat /\ count isNotification t = 0%nat).
  { intros e cfg t Hrun.
    pose proof (refresh_error_keeps_config _ _ _ _ _ _ Hrun) as ->.
    pose proof (only_run _ o _ (only_refreshTokenIfNeeded (config m)) h) as Honly.
    rewrite run_CheckOnce, Hrun. rewrite Hrun in Honly. cbn [snd] in Honly.
    split; [now destruct m |]. split.
    - exact (count_none _ _ _ credential_not_storage Honly).
    - exact (count_none _ _ _ credential_not_notification Honly). }
  split; [| split].
  - intro H0. apply (Hfail ErrNoTokenExpiry (config m) []).
    unfold refreshTokenIfNeeded. now rewrite H0.
  - exact Hfail.
  - intros o' h' client folderID clientName.
    destruct (checkClientBackup_lists_first o' h' client folderID clientName) as [t Ht].
    rewrite Ht. unfold count. cbn. lia.
Qed.

Lemma CheckOnce_returns_refresh_error (Format : Time -> string -> string) (o : Oracle)
    (h : list event) (m : Monitor) :
  fst (fst (run o (CheckOnce Format m) h)) =
  option_map ErrCheckRefresh (fst (fst (run o (refreshTokenIfNeeded (config m)) h))).
Proof.
  rewrite run_CheckOnce.
  destruct (run o (refreshTokenIfNeeded (config m)) h) as [[[e |] cfg] t1];
    [reflexivity |].
  destruct (run o (checkPaths _ _ _) (h ++ t1)) as [st t2].
  now destruct (run o (sendNotifications Format _ _ _ _ _) ((h ++ t1) ++ t2)).
Qed.

(** ** The cycle over listings that can panic *)

Lemma runHost_bind {A B : Type} (w : Host) (p : prog A) (f : A -> prog B) (h : list event) :
  runHost w (bind p f) h =
  match runHost w p h with
  | (Completed a, t1) =>
      let '(b, t2) := runHost w (f a) (h ++ t1) in (b, t1 ++ t2)
  | (Aborted c what, t1) => (Aborted c what, t1)
  end.
Proof.
  revert h; induction p as [a | c k IH]; intro h; cbn [bind runHost].
  - rewrite app_nil_r. now destruct (runHost w (f a) h).
  - destruct (returned c (w h c)) as [r | what]; [| reflexivity].
    rewrite IH.
    destruct (runHost w (k r) (h ++ [Ev c r])) as [[a | c' what'] t1]; [| reflexivity].
    rewrite <- app_assoc. cbn [app].
    now destruct (runHost w (f a) (h ++ Ev c r :: t1)).
Qed.

Lemma returned_storage (c : call) (e : ending c) (what : string) :
  returned c e = Panics what -> isStorageCall c = true.
Proof. destruct c; cbn; intro H; (reflexivity || discriminate H). Qed.

Lemma returned_other (c : call) (e : ending c) :
  isStorageCall c = false -> exists r, returned c e = Returns r.
Proof. destruct c; cbn; intro H; (discriminate H || (eexists; reflexivity)). Qed.

Lemma returned_calm (o : Oracle) (h : list event) (c : call) :
  returned c (calm o h c) = Returns (o h c).
Proof. destruct c; reflexivity. Qed.

Lemma runHost_aborted {A : Type} (w : Host) (p : prog A) :
  forall h c what t,
    runHost w p h = (Aborted c what, t) -> returned c (w (h ++ t) c) = Panics what.
Proof.
  induction p as [a | c0 k IH]; intros h c what t; cbn [runHost]; [discriminate |].
  destruct (returned c0 (w h c0)) as [r | what0] eqn:Hc.
  - destruct (runHost w (k r) (h ++ [Ev c0 r])) as [a t'] eqn:Hk.
    intro H. injection H as -> <-.
    pose proof (IH r (h ++ [Ev c0 r]) c what t' Hk) as Hpanic.
    now rewrite <- app_assoc in Hpanic.
  - intro H. injection H as <- <- <-. now rewrite app_nil_r.
Qed.

Lemma runHost_completes {A : Type} (w : Host) (f : call -> bool) (p : prog A) :
  only f p -> (forall c, f c = true -> isStorageCall c = false) ->
  forall h, exists a t, runHost w p h = (Completed a, t).
Proof.
  intros Honly Hf. induction p as [a | c k IH]; intro h; cbn [runHost].
  - now exists a, [].
  - destruct Honly as [Hc Hk].
    destruct (returned_other c (w h c) (Hf c Hc)) as [r ->].
    destruct (IH r (Hk r) (h ++ [Ev c r])) as (a & t & ->).
    now exists a, (Ev c r :: t).
Qed.

Lemma runHost_calm {A : Type} (o : Oracle) (p : prog A) :
  forall h, runHost (calm o) p h = (Completed (fst (run o p h)), snd (run o p h)).
Proof.
  induction p as [a | c k IH]; intro h; cbn [runHost run]; [reflexivity |].
  rewrite returned_calm, IH.
  now destruct (run o (k (o h c)) (h ++ [Ev c (o h c)])).
Qed.

Lemma runHost_refresh_error (w : Host) (h : list event) (cfg cfg' : Config)
    (e : error) (t : list event) :
  runHost w (refreshTokenIfNeeded cfg) h = (Completed (Some e, cfg'), t) -> cfg' = cfg.
Proof.
  unfold refreshTokenIfNeeded. destruct (TokenExpiry cfg =? 0); cbn [runHost].
  - congruence.
  - cbn [bind perform runHost returned]. destruct (Before _ _); cbn [runHost]; [congruence |].
    cbn [bind perform runHost returned].
    destruct (w _ (RefreshTokenCall _)) as [newToken | err]; cbn; congruence.
Qed.

(** C10. How [CheckOnce] ends.  The credential check always returns.  When
    it returns an error, [CheckOnce] returns that error wrapped and nothing
    else happens.  When it returns none, [CheckOnce] either returns no error
    (whatever the listings that return, the clients and the sends do) or
    does not return at all: a listing call has panicked, and the cycle ends
    in that panic.  So an error [CheckOnce] returns is always that of the
    credential check; where no listing panics it always returns, and its
    result is the one of the cycle run against the answers alone. *)
Theorem CheckOnce_fails_only_on_refresh :
  forall (Format : Time -> string -> string) (w : Host) (h : list event) (m : Monitor),
    let ends := runHost w (CheckOnce Format m) h in
    (exists refreshed cfg t1,
        runHost w (refreshTokenIfNeeded (config m)) h = (Completed (refreshed, cfg), t1) /\
        match refreshed with
        | Some cause => ends = (Completed (Some (ErrCheckRefresh cause), m), t1)
        | None =>
            (exists t, ends = (Completed (None, mkMonitor cfg (telegram m)), t)) \/
            (exists c what t,
                ends = (Aborted c what, t) /\
                isStorageCall c = true /\
                returned c (w (h ++ t) c) = Panics what)
        end) /\
    (forall e m' t,
        ends = (Completed (Some e, m'), t) ->
        exists cause cfg,
          e = ErrCheckRefresh cause /\
          runHost w (refreshTokenIfNeeded (config m)) h = (Completed (Some cause, cfg), t)) /\
    ((forall h' c what, returned c (w h' c) <> Panics what) ->
     exists r t, ends = (Completed r, t)) /\
    (forall o : Oracle,
        runHost (calm o) (CheckOnce Format m) h =
          (Completed (fst (run o (CheckOnce Format m) h)),
           snd (run o (CheckOnce Format m) h)) /\
        fst (fst (run o (CheckOnce Format m) h)) =
          option_map ErrCheckRefresh (fst (fst (run o (refreshTokenIfNeeded (config m)) h)))).
Proof.
  intros Format w h m ends.
  assert (Hends :
    exists refreshed cfg t1,
      runHost w (refreshTokenIfNeeded (config m)) h = (Completed (refreshed, cfg), t1) /\
      match refreshed with
      | Some cause => ends = (Completed (Some (ErrCheckRefresh cause), m), t1)
      | None =>
          (exists t, ends = (Completed (None, mkMonitor cfg (telegram m)), t)) \/
          (exists c what t,
              ends = (Aborted c what, t) /\
              isStorageCall c = true /\
              returned c (w (h ++ t) c) = Panics what)
      end).
  { destruct (runHost_completes w isCredentialCall _
                (only_refreshTokenIfNeeded (config m)) credential_not_storage h)
      as ([refreshed cfg] & t1 & Hr).
    exists refreshed, cfg, t1. split; [exact Hr |].
    subst ends. unfold CheckOnce. rewrite runHost_bind, Hr.
    destruct refreshed as [cause |].
    - cbn [runHost]. rewrite app_nil_r.
      rewrite (runHost_refresh_error _ _ _ _ _ _ Hr). now destruct m.
    - cbn [config telegram]. rewrite runHost_bind.
      destruct (runHost w (checkPaths _ _ _) (h ++ t1)) as [[st | c what] t2] eqn:Hp.
      + rewrite runHost_bind.
        destruct (runHost w (sendNotifications Format _ _ _ _ _) ((h ++ t1) ++ t2))
          as [[r | c what] t3] eqn:Hn.
        * cbn [runHost]. left. eexists. reflexivity.
        * right. exists c, what, (t1 ++ t2 ++ t3). split; [reflexivity |].
          pose proof (runHost_aborted _ _ _ _ _ _ Hn) as Hc.
          rewrite <- !app_assoc in Hc.
          split; [exact (returned_storage _ _ _ Hc) | exact Hc].
      + right. exists c, what, (t1 ++ t2). split; [reflexivity |].
        pose proof (runHost_aborted _ _ _ _ _ _ Hp) as Hc.
        rewrite <- !app_assoc in Hc.
        split; [exact (returned_storage _ _ _ Hc) | exact Hc]. }
  split; [exact Hends |]. split; [| split].
  - intros e m' t He. destruct Hends as (refreshed & cfg & t1 & Hr & Hcase).
    destruct refreshed as [cause |].
    + rewrite Hcase in He. injection He as <- _ <-. now exists cause, cfg.
    + destruct Hcase as [[t' Ht] | (c & what & t' & Ht & _)];
        rewrite Ht in He; discriminate He.
  - intro Hnever. destruct Hends as (refreshed & cfg & t1 & Hr & Hcase).
    destruct refreshed as [cause |]; [eexists; eexists; exact Hcase |].
    destruct Hcase as [[t' Ht] | (c & what & t' & _ & _ & Hc)].
    + eexists; eexists; exact Ht.
    + now apply Hnever in Hc.
  - intro o. split; [apply runHost_calm | apply CheckOnce_returns_refresh_error].
Qed.

(** ** What a completed cycle sends *)

Lemma filter_notifications_sent (Format : Time -> string -> string)
    (sts : list BackupStatus) (st : Cycle) :
  filter isNotification (map (alertCall Format) sts ++ [summaryCall st]) =
  map (alertCall Format) sts ++ [summaryCall st].
Proof. induction sts as [| s rest IH]; cbn in *; [reflexivity | now rewrite IH]. Qed.

Lemma filter_summary_sent (Format : Time -> string -> string)
    (sts : list BackupStatus) (st : Cycle) :
  filter isSummary (map (alertCall Format) sts ++ [summaryCall st]) = [summaryCall st].
Proof. induction sts as [| s rest IH]; cbn in *; [reflexivity | exact IH]. Qed.

Lemma check_not_summary (c : call) : isCheckCall c = true -> isSummary c = false.
Proof. now destruct c. Qed.

Lemma credential_not_summary (c : call) : isCredentialCall c = true -> isSummary c = false.
Proof. now destruct c. Qed.

Lemma lastBackupStr_label (Format : Time -> string -> string) (s : BackupStatus) :
  lastBackupStr Format s =
  if IsZero (LastBackup s) then "Unknown"%string
  else Format (LastBackup s) "2006-01-02 15:04:05"%string.
Proof. unfold lastBackupStr. now destruct (IsZero (LastBackup s)). Qed.

(** C7 (as the code has it). In a cycle that got past the credential check,
    on a monitor whose telegram client exists, the notifications
    [CheckOnce] sends are: one alert for every failed status (errored ones
    included), in the order of the statuses, with the client name, the
    folder and the formatted last backup time or "Unknown" when that time is
    zero; and after all of them one summary with the number of statuses, the
    two counters and the failed-client list.  The answers to the sends play
    no part: a failed alert changes nothing.  With no status at all the one
    notification is the summary with 0, 0, 0 and no name. *)
Theorem notifications_of_completed_cycle :
  forall (Format : Time -> string -> string) (o : Oracle) (h : list event)
         (m : Monitor) (tg : TelegramClient) (cfg : Config) (t1 : list event),
    telegram m = Some tg ->
    run o (refreshTokenIfNeeded (config m)) h = ((None, cfg), t1) ->
    let st := fst (run o (checkPaths (NewClient (AccessToken cfg)) (MonitorPaths cfg)
                                     emptyCycle) (h ++ t1)) in
    let t := snd (run o (CheckOnce Format m) h) in
    filter isNotification (calls t) =
      map (alertCall Format) (filter failed (statuses st)) ++ [summaryCall st] /\
    failedClients st = map ClientName (filter failed (statuses st)) /\
    count isSummary t = 1%nat /\
    (forall s, alertCall Format s =
               SendBackupAlert (ClientName s) (FolderPath s)
                 (if IsZero (LastBackup s) then "Unknown"%string
                  else Format (LastBackup s) "2006-01-02 15:04:05"%string)) /\
    (statuses st = [] -> filter isNotification (calls t) = [SendSummaryReport 0 0 0 []]).
Proof.
  intros Format o h m tg cfg t1 Htg Hrefresh st t.
  pose proof (only_run _ o _ (only_refreshTokenIfNeeded (config m)) h) as H1.
  rewrite Hrefresh in H1; cbn [snd] in H1.
  pose proof (only_run _ o _ (only_checkPaths (NewClient (AccessToken cfg))
                                (MonitorPaths cfg) emptyCycle) (h ++ t1)) as H2.
  pose proof (checkPaths_erroredIsEmpty o (h ++ t1) (NewClient (AccessToken cfg))
                (MonitorPaths cfg)) as Hall.
  destruct (checkPaths_countsAgree o (h ++ t1) (NewClient (AccessToken cfg))
              (MonitorPaths cfg) emptyCycle emptyCycle_countsAgree) as (Hs & Hf & Hn).
  fold st in Hall, Hs, Hf, Hn.
  assert (Ht : calls t =
               calls t1 ++
               calls (snd (run o (checkPaths (NewClient (AccessToken cfg)) (MonitorPaths cfg)
                                             emptyCycle) (h ++ t1))) ++
               map (alertCall Format) (filter failed (statuses st)) ++ [summaryCall st]).
  { subst t st. rewrite run_CheckOnce, Hrefresh.
    destruct (run o (checkPaths _ _ _) (h ++ t1)) as [st t2]. cbn [fst snd] in *.
    pose proof (run_sendNotifications Format o ((h ++ t1) ++ t2)
                  (mkMonitor cfg (telegram m)) st) as H3.
    destruct (run o (sendNotifications Format _ _ _ _ _) ((h ++ t1) ++ t2)) as [r t3].
    cbn [snd telegram] in *. rewrite Htg in H3.
    unfold calls in *. rewrite !map_app, H3, (filter_failed _ Hall). reflexivity. }
  assert (Hsent : filter isNotification (calls t) =
                  map (alertCall Format) (filter failed (statuses st)) ++ [summaryCall st]).
  { rewrite Ht, !filter_app.
    rewrite (filter_none _ _ _ credential_not_notification H1).
    rewrite (filter_none _ _ _ check_not_notification H2).
    cbn [app]. rewrite <- filter_app. apply filter_notifications_sent. }
  split; [exact Hsent |]. split; [exact Hn |]. split; [| split].
  - unfold count. rewrite Ht, !filter_app.
    rewrite (filter_none _ _ _ credential_not_summary H1).
    rewrite (filter_none _ _ _ check_not_summary H2).
    cbn [app]. rewrite <- filter_app, filter_summary_sent. reflexivity.
  - intro s. unfold alertCall. now rewrite lastBackupStr_label.
  - intro Hempty. rewrite Hsent. unfold summaryCall.
    rewrite Hs, Hf, Hn, Hempty. reflexivity.
Qed.

(** ** The most recent backup *)

Lemma upper_cons (file : FileInfo) (rest : list FileInfo) (b : Z) :
  upper (file :: rest) b = Z.max (ns (CreatedTime file)) (upper rest b).
Proof. reflexivity. Qed.

Lemma upper_max (allFiles : list FileInfo) (a b : Z) :
  upper allFiles (Z.max a b) = Z.max a (upper allFiles b).
Proof.
  induction allFiles as [| file rest IH]; [reflexivity |].
  rewrite !upper_cons, IH. lia.
Qed.

Lemma upper_base (allFiles : list FileInfo) (b : Z) : b <= upper allFiles b.
Proof.
  induction allFiles as [| file rest IH]; [apply Z.le_refl |].
  rewrite upper_cons. lia.
Qed.

Lemma upper_bound (allFiles : list FileInfo) (b : Z) (file : FileInfo) :
  In file allFiles -> ns (CreatedTime file) <= upper allFiles b.
Proof.
  induction allFiles as [| f rest IH]; [contradiction |].
  rewrite upper_cons. intros [-> | Hin]; [lia | specialize (IH Hin); lia].
Qed.

Lemma upper_attained (allFiles : list FileInfo) (b : Z) :
  upper allFiles b = b \/
  exists file, In file allFiles /\ upper allFiles b = ns (CreatedTime file).
Proof.
  induction allFiles as [| f rest IH]; [now left |].
  rewrite upper_cons.
  destruct (Z.max_spec (ns (CreatedTime f)) (upper rest b)) as [[_ ->] | [_ ->]].
  - destruct IH as [-> | (file & Hin & ->)]; [now left |].
    right. exists file. split; [now right | reflexivity].
  - right. exists f. split; [now left | reflexivity].
Qed.

Lemma upper_Permutation (l l' : list FileInfo) (b : Z) :
  Permutation l l' -> upper l b = upper l' b.
Proof. induction 1; rewrite ?upper_cons; lia. Qed.

Lemma latestLoop_upper (allFiles : list FileInfo) :
  forall latestBackup, ns (latestLoop allFiles latestBackup) = upper allFiles (ns latestBackup).
Proof.
  induction allFiles as [| file rest IH]; intro latestBackup; cbn [latestLoop];
    [reflexivity |].
  rewrite upper_cons, <- upper_max.
  unfold After. destruct (Z.ltb_spec (ns latestBackup) (ns (CreatedTime file))) as [Hlt | Hge];
    rewrite IH; f_equal; lia.
Qed.

Lemma latestLoop_choice (allFiles : list FileInfo) :
  forall latestBackup,
    latestLoop allFiles latestBackup = latestBackup \/
    In (latestLoop allFiles latestBackup) (map CreatedTime allFiles).
Proof.
  induction allFiles as [| file rest IH]; intro latestBackup; cbn [latestLoop map];
    [now left |].
  destruct (After (CreatedTime file) latestBackup).
  - destruct (IH (CreatedTime file)) as [-> | Hin]; right; [now left | now right].
  - destruct (IH latestBackup) as [-> | Hin]; [now left | right; now right].
Qed.

Lemma run_checkClientBackup_listed (o : Oracle) (h : list event) (client : Client)
    (folderID clientName : string) (hasBackup : bool) (recentFiles allFiles : list FileInfo)
    (t1 t2 : list event) :
  run o (CheckTodayBackups client folderID) h = ((hasBackup, recentFiles, None), t1) ->
  run o (GetAllSnapshots client folderID) (h ++ t1) = (Ok allFiles, t2) ->
  run o (checkClientBackup client folderID clientName) h =
  (mkStatus clientName folderID hasBackup (len recentFiles)
            (latestLoop allFiles zeroTime) None, t1 ++ t2).
Proof.
  intros H1 H2. unfold checkClientBackup. rewrite run_bind, H1. cbn [Error].
  rewrite run_bind, H2. cbn. now rewrite app_nil_r.
Qed.

(** C4 (as the code has it). When both listings of a client's snapshots
    folder succeed, the reported [LastBackup] is the later of the zero time
    and the creation times of all files of the second listing, fresh or
    not: no file was created after it, it is the creation time of one of the
    files as soon as one of them was created after the zero time, and it is
    the zero time exactly when no file was created after the zero time (so
    in particular on an empty listing).  Its instant is the same for every
    permutation of the listing. *)
Theorem last_backup_is_latest_creation_time :
  forall (o : Oracle) (h : list event) (client : Client) (folderID clientName : string)
         (hasBackup : bool) (recentFiles allFiles : list FileInfo) (t1 t2 : list event),
    run o (CheckTodayBackups client folderID) h = ((hasBackup, recentFiles, None), t1) ->
    run o (GetAllSnapshots client folderID) (h ++ t1) = (Ok allFiles, t2) ->
    let latest := LastBackup (fst (run o (checkClientBackup client folderID clientName) h)) in
    latest = latestLoop allFiles zeroTime /\
    ns latest = upper allFiles 0 /\
    (forall file, In file allFiles -> ns (CreatedTime file) <= ns latest) /\
    ((exists file, In file allFiles /\ 0 < ns (CreatedTime file)) ->
     In latest (map CreatedTime allFiles)) /\
    (IsZero latest = true <-> forall file, In file allFiles -> ns (CreatedTime file) <= 0) /\
    (allFiles = [] -> latest = zeroTime) /\
    (forall allFiles', Permutation allFiles allFiles' ->
                       ns (latestLoop allFiles' zeroTime) = ns latest).
Proof.
  intros o h client folderID clientName hasBackup recentFiles allFiles t1 t2 H1 H2 latest.
  assert (Hl : latest = latestLoop allFiles zeroTime).
  { subst latest. now rewrite (run_checkClientBackup_listed _ _ _ _ _ _ _ _ _ _ H1 H2). }
  assert (Hns : ns latest = upper allFiles 0) by (rewrite Hl; apply latestLoop_upper).
  split; [exact Hl |]. split; [exact Hns |]. split; [| split; [| split; [| split]]].
  - intros file Hin. rewrite Hns. now apply upper_bound.
  - intros (file & Hin & Hpos).
    destruct (latestLoop_choice allFiles zeroTime) as [Hz | Hin'].
    + pose proof (upper_bound allFiles 0 file Hin) as Hb.
      rewrite <- Hns, Hl, Hz in Hb. cbn in Hb. lia.
    + now rewrite Hl.
  - unfold IsZero. rewrite Z.eqb_eq, Hns. split.
    + intros Hz file Hin. rewrite <- Hz. now apply upper_bound.
    + intro Hall. pose proof (upper_base allFiles 0) as Hb.
      destruct (upper_attained allFiles 0) as [Hz | (file & Hin & Hz)]; [exact Hz |].
      specialize (Hall file Hin). lia.
  - intros ->. now rewrite Hl.
  - intros allFiles' Hperm. rewrite Hns, latestLoop_upper. symmetry.
    now apply upper_Permutation.
Qed.

(** ** The counts of a cycle *)

Lemma calls_CheckOnce (Format : Time -> string -> string) (o : Oracle)
    (h : list event) (m : Monitor) :
  calls (snd (run o (CheckOnce Format m) h)) =
  let '((err, cfg), t1) := run o (refreshTokenIfNeeded (config m)) h in
  match err with
  | Some _ => calls t1
  | None =>
      let '(st, t2) := run o (checkPaths (NewClient (AccessToken cfg)) (MonitorPaths cfg)
                                         emptyCycle) (h ++ t1) in
      calls t1 ++ calls t2 ++
      match telegram m with
      | None => []
      | Some _ =>
          map (alertCall Format) (filter (fun s => negb (HasBackup s)) (statuses st))
          ++ [summaryCall st]
      end
  end.
Proof.
  rewrite run_CheckOnce.
  destruct (run o (refreshTokenIfNeeded (config m)) h) as [[[e |] cfg] t1]; [reflexivity |].
  destruct (run o (checkPaths _ _ _) (h ++ t1)) as [st t2].
  pose proof (run_sendNotifications Format o ((h ++ t1) ++ t2)
                (mkMonitor cfg (telegram m)) st) as H3.
  destruct (run o (sendNotifications Format _ _ _ _ _) ((h ++ t1) ++ t2)) as [r t3].
  cbn [snd telegram] in *. unfold calls in *. now rewrite !map_app, H3.
Qed.

Lemma Forall_of_forallb {A : Type} (f : A -> bool) (P : A -> Prop) (l : list A) :
  (forall x, f x = true -> P x) -> forallb f l = true -> Forall P l.
Proof.
  intros HfP Hall. apply Forall_forall. intros x Hin.
  apply HfP. rewrite forallb_forall in Hall. now apply Hall.
Qed.

Lemma credential_summaryAddsUp (c : call) : isCredentialCall c = true -> summaryAddsUp c.
Proof. now destruct c. Qed.

Lemma check_summaryAddsUp (c : call) : isCheckCall c = true -> summaryAddsUp c.
Proof. now destruct c. Qed.

(** C2. The loop of [CheckOnce] ends with [successCount + failedCount] equal
    to the number of statuses it produced: the success counter is the number
    of statuses without error that are fresh, the failure counter the number
    of all the others, and recording one status adds one to exactly one of
    the two counters.  A summary that [CheckOnce] sends carries a total that
    is the sum of the two counters it carries. *)
Theorem success_plus_failed_is_total :
  forall (o : Oracle) (h : list event) (client : Client) (paths : list string),
    let st := fst (run o (checkPaths client paths emptyCycle) h) in
    successCount st + failedCount st = len (statuses st) /\
    successCount st = len (filter succeeded (statuses st)) /\
    failedCount st = len (filter failed (statuses st)) /\
    (forall (st0 : Cycle) (s : BackupStatus),
        len (statuses (record st0 s)) = len (statuses st0) + 1 /\
        (successCount (record st0 s) = successCount st0 + 1 /\
         failedCount (record st0 s) = failedCount st0
         \/
         successCount (record st0 s) = successCount st0 /\
         failedCount (record st0 s) = failedCount st0 + 1)) /\
    (forall (Format : Time -> string -> string) (m : Monitor),
        Forall summaryAddsUp (calls (snd (run o (CheckOnce Format m) h)))).
Proof.
  intros o h client paths st.
  assert (Hsum : forall o' h' client' paths',
             let st' := fst (run o' (checkPaths client' paths' emptyCycle) h') in
             successCount st' + failedCount st' = len (statuses st')).
  { intros o' h' client' paths' st'.
    destruct (checkPaths_countsAgree o' h' client' paths' emptyCycle emptyCycle_countsAgree)
      as (Hs & Hf & _).
    fold st' in Hs, Hf. rewrite Hs, Hf. apply len_filter_split. }
  destruct (checkPaths_countsAgree o h client paths emptyCycle emptyCycle_countsAgree)
    as (Hs & Hf & _).
  fold st in Hs, Hf. split; [apply Hsum |]. split; [exact Hs |]. split; [exact Hf |]. split.
  - intros st0 s. split.
    + rewrite record_statuses, len_app. reflexivity.
    + rewrite record_counts. destruct (succeeded s); cbn; [left | right]; split; reflexivity.
  - intros Format m. rewrite calls_CheckOnce.
    pose proof (only_run _ o _ (only_refreshTokenIfNeeded (config m)) h) as H1.
    destruct (run o (refreshTokenIfNeeded (config m)) h) as [[[e |] cfg] t1]; cbn [snd] in H1.
    + exact (Forall_of_forallb _ _ _ credential_summaryAddsUp H1).
    + pose proof (only_run _ o _ (only_checkPaths (NewClient (AccessToken cfg))
                                    (MonitorPaths cfg) emptyCycle) (h ++ t1)) as H2.
      pose proof (Hsum o (h ++ t1) (NewClient (AccessToken cfg)) (MonitorPaths cfg)) as H3.
      destruct (run o (checkPaths _ _ _) (h ++ t1)) as [st2 t2]. cbn [fst snd] in H2, H3.
      apply Forall_app. split; [exact (Forall_of_forallb _ _ _ credential_summaryAddsUp H1) |].
      apply Forall_app. split; [exact (Forall_of_forallb _ _ _ check_summaryAddsUp H2) |].
      destruct (telegram m); [| constructor].
      apply Forall_app. split.
      * apply Forall_forall. intros c Hin. apply in_map_iff in Hin as (s & <- & _). exact I.
      * constructor; [exact H3 | constructor].
Qed.

(** ** Cycles of the service *)

Lemma monitoringLoop_wholeCycles (Format : Time -> string -> string) (o : Oracle)
    (ticks : nat) :
  forall m h, wholeCycles Format o m h (snd (run o (monitoringLoop Format ticks m) h)).
Proof.
  induction ticks as [| ticks IH]; intros m h; [apply cycles_end |].
  cbn [monitoringLoop bind perform run].
  destruct (o h Select).
  - rewrite run_bind.
    destruct (run o (CheckOnce Format m) (h ++ [Ev Select Tick])) as [[err m'] t] eqn:Hc.
    specialize (IH m' ((h ++ [Ev Select Tick]) ++ t)).
    destruct (run o (monitoringLoop Format ticks m') ((h ++ [Ev Select Tick]) ++ t))
      as [m'' rest].
    cbn [snd] in *. now apply (cycles_tick Format o m h err m' t rest).
  - cbn. apply cycles_stop.
Qed.

(** C9 (as the code has it). The cycles the service runs follow one
    another: [Start] runs the initial check to its end before the loop
    starts, and the trace of [monitoringLoop] is a sequence of whole
    cycles, each begun by a tick and begun only after the cycle before
    it returned.  [CheckOnce] itself takes no guard: of two invocations
    started together on monitors with a recorded expiry, the second reads
    the clock right after the first did, while the first is still in
    progress; it is neither made to wait nor turned away. *)
Theorem service_cycles_follow_one_another :
  forall (Format : Time -> string -> string) (o : Oracle) (ticks : nat)
         (m : Monitor) (h : list event),
    wholeCycles Format o m h (snd (run o (monitoringLoop Format ticks m) h)) /\
    (Enabled (config m) = false -> run o (Start Format ticks m) h = ((None, m), [])) /\
    (Enabled (config m) = true ->
     let '((_, m1), t0) := run o (CheckOnce Format m) h in
     snd (run o (Start Format ticks m) h) =
       t0 ++ snd (run o (monitoringLoop Format ticks m1) (h ++ t0)) /\
     wholeCycles Format o m1 (h ++ t0)
                 (snd (run o (monitoringLoop Format ticks m1) (h ++ t0)))) /\
    (forall manual : Monitor,
        TokenExpiry (config m) <> 0 -> TokenExpiry (config manual) <> 0 ->
        map (fun x => (fst x, ev_call (snd x)))
            (interleave o [Scheduled; Manual] (CheckOnce Format m) (CheckOnce Format manual) h)
        = [(Scheduled, Now); (Manual, Now)]).
Proof.
  intros Format o ticks m h. split; [apply monitoringLoop_wholeCycles |].
  unfold Start. split; [| split].
  - intros ->. reflexivity.
  - intros ->. cbn [negb]. rewrite run_bind.
    destruct (run o (CheckOnce Format m) h) as [[err m1] t0].
    rewrite run_bind.
    pose proof (monitoringLoop_wholeCycles Format o ticks m1 (h ++ t0)) as Hw.
    destruct (run o (monitoringLoop Format ticks m1) (h ++ t0)) as [m2 t].
    cbn [run snd] in *. rewrite app_nil_r. split; [reflexivity | exact Hw].
  - intros manual Hm Hmanual. unfold CheckOnce, refreshTokenIfNeeded.
    apply Z.eqb_neq in Hm, Hmanual. rewrite Hm, Hmanual. reflexivity.
Qed.

(** * The properties on the sample world *)

Section OnTheSampleWorld.

Import Sample.
Local Open Scope string_scope.

(** A file created thirty seconds after midnight UTC is fresh at one minute
    past midnight; a file created two minutes before that instant, on the
    day before, is not. *)
Lemma fresh_iff_same_utc_day_witness :
  createdToday (Truncate (24 * Hour) (UTC now)) freshFile = true /\
  createdToday (Truncate (24 * Hour) (UTC now)) staleFile = false /\
  ns now - ns (CreatedTime staleFile) = 2 * Minute.
Proof.
  destruct (fresh_iff_same_utc_day world [] client "alpha") as (Hsame & Hbefore & _).
  split; [| split].
  - apply Hsame. vm_compute. reflexivity.
  - apply Hbefore. vm_compute. reflexivity.
  - vm_compute. reflexivity.
Defined.

(** One path that cannot be listed and one with a fresh, a stale and an
    errored client: 1 + 2 = 3. *)
Lemma success_plus_failed_is_total_witness :
  let st := fst (run world (checkPaths client ["broken"; "root"] emptyCycle) []) in
  successCount st + failedCount st = len (statuses st) /\
  (successCount st, failedCount st, len (statuses st)) = (1, 2, 3).
Proof.
  split.
  - exact (proj1 (success_plus_failed_is_total world [] client ["broken"; "root"])).
  - vm_compute. reflexivity.
Defined.


(** The client [Gamma], found under [root], has a [data] folder and no
    [snapshots] folder: in the cycle over [broken] and [root] its errored
    status is the third, it is the second failed client, and the counters
    are 1 and 2. *)
Lemma errored_status_counts_as_failure_witness :
  let st := fst (run world (checkPaths client ["broken"; "root"] emptyCycle) []) in
  let s := mkStatus "Gamma" "gamma" false 0 zeroTime
                    (Some (ErrSnapshotsNotFound "gamma" ["data"])) in
  In s (statuses st) /\
  In "Gamma" (failedClients st) /\
  nth_error (statuses st) 2 = Some s /\
  failedClients st = ["Beta"; "Gamma"] /\
  (successCount st, failedCount st) = (1, 2).
Proof.
  destruct (errored_status_counts_as_failure world [] client) as (_ & _ & _ & Hcycle).
  destruct (Hcycle subfoldersOf ["broken"; "root"] "root"
              [mkFolder "alpha" "Alpha" 0; mkFolder "beta" "Beta" 0; mkFolder "gamma" "Gamma" 0]
              (mkFolder "gamma" "Gamma" 0) [mkFolder "gamma-data" "data" 0])
    as (Hin & _ & _ & Hname & _).
  - intros h' folderID. reflexivity.
  - right. now left.
  - reflexivity.
  - right. right. now left.
  - reflexivity.
  - intros g [<- | []]. discriminate.
  - cbv zeta. split; [exact Hin |]. split; [exact Hname |].
    vm_compute. repeat split; reflexivity.
Defined.

(** Expiry 20 minutes ahead: the clock is read and nothing else happens.
    Expiry 5 minutes ahead: one refresh call.  No expiry: the error, and no
    call.  In the first two the recorded count is far from wrapping, and the
    margin is measured on the recorded expiry: 20 minutes, 5 minutes. *)
Lemma refresh_skipped_iff_margin_witness :
  run world (refreshTokenIfNeeded cfg20) [] = ((None, cfg20), [Ev Now now]) /\
  count isRefreshCall (snd (run world (refreshTokenIfNeeded cfg5) [])) = 1%nat /\
  run world (refreshTokenIfNeeded cfg0) [] = ((Some ErrNoTokenExpiry, cfg0), []) /\
  recordedExpiry cfg20 - ns now = 20 * Minute /\
  recordedExpiry cfg5 - ns now = 5 * Minute /\
  (count isRefreshCall (snd (run world (refreshTokenIfNeeded cfg5) [])) = 0%nat /\
   snd (fst (run world (refreshTokenIfNeeded cfg5) [])) = cfg5 <->
   10 * Minute < recordedExpiry cfg5 - ns now).
Proof.
  pose proof (refresh_skipped_iff_margin world [] cfg20) as H20.
  pose proof (refresh_skipped_iff_margin world [] cfg5) as H5.
  pose proof (refresh_skipped_iff_margin world [] cfg0) as H0.
  cbv zeta in H20, H5, H0.
  destruct H20 as (_ & H20 & _). destruct H5 as (_ & H5 & H5r & _). destruct H0 as [H0 _].
  split; [| split; [| split; [| split; [| split]]]].
  - destruct H20 as (_ & Hskip & _); [vm_compute; discriminate |].
    apply Hskip. vm_compute. reflexivity.
  - destruct H5 as (_ & _ & Hcall & _); [vm_compute; discriminate |].
    apply Hcall. vm_compute. discriminate.
  - apply H0. reflexivity.
  - vm_compute. reflexivity.
  - vm_compute. reflexivity.
  - destruct H5r as [_ Hiff]; [split; vm_compute; [discriminate | reflexivity] |].
    apply Hiff. vm_compute. discriminate.
Defined.

(** No expiry recorded, and a refresh that fails for want of a refresh
    token: in both cases [CheckOnce] returns the error and sends nothing. *)
Lemma refresh_failure_aborts_cycle_witness :
  run world (CheckOnce format (mkMonitor cfg0 (Some bot))) [] =
    ((Some (ErrCheckRefresh ErrNoTokenExpiry), mkMonitor cfg0 (Some bot)), []) /\
  fst (fst (run world (CheckOnce format (mkMonitor cfg5NoRefreshToken (Some bot))) [])) =
    Some (ErrCheckRefresh (ErrRefreshFailed (ErrExternal "no refresh token available"))) /\
  count isNotification
    (snd (run world (refreshTokenIfNeeded cfg5NoRefreshToken) [])) = 0%nat.
Proof.
  destruct (refresh_failure_aborts_cycle format world [] (mkMonitor cfg0 (Some bot)))
    as (Hnone & _ & _).
  destruct (refresh_failure_aborts_cycle format world []
              (mkMonitor cfg5NoRefreshToken (Some bot))) as (_ & Hfail & _).
  split; [apply Hnone; reflexivity |].
  destruct (Hfail (ErrRefreshFailed (ErrExternal "no refresh token available"))
                  cfg5NoRefreshToken
                  (snd (run world (refreshTokenIfNeeded cfg5NoRefreshToken) [])))
    as (Hrun & _ & Hsent).
  - vm_compute. reflexivity.
  - split; [now rewrite Hrun | exact Hsent].
Defined.

(** The cycle over [broken] and [root] with alerts that fail to be sent:
    an alert for Beta, an alert for Gamma, then the summary.  The cycle over
    a path without clients: the summary alone. *)
Lemma notifications_of_completed_cycle_witness :
  filter isNotification
    (calls (snd (run world (CheckOnce format (mkMonitor cfg20 (Some bot))) []))) =
    [SendBackupAlert "Beta" "beta" "2024-04-24 23:59:00";
     SendBackupAlert "Gamma" "gamma" "Unknown";
     SendSummaryReport 3 1 2 ["Beta"; "Gamma"]] /\
  filter isNotification
    (calls (snd (run world (CheckOnce format (mkMonitor cfgNoClients (Some bot))) []))) =
    [SendSummaryReport 0 0 0 []].
Proof.
  split.
  - destruct (notifications_of_completed_cycle format world [] (mkMonitor cfg20 (Some bot))
                bot cfg20 [Ev Now now]) as (Hsent & _).
    + reflexivity.
    + vm_compute. reflexivity.
    + rewrite Hsent. vm_compute. reflexivity.
  - destruct (notifications_of_completed_cycle format world []
                (mkMonitor cfgNoClients (Some bot)) bot cfgNoClients [Ev Now now])
      as (_ & _ & _ & _ & Hnone).
    + reflexivity.
    + vm_compute. reflexivity.
    + apply Hnone. vm_compute. reflexivity.
Defined.


(** The client [Alpha]: the stale file and the fresh file; the latest
    creation time is that of the fresh one. *)
Lemma last_backup_is_latest_creation_time_witness :
  LastBackup (fst (run world (checkClientBackup client "alpha" "Alpha") [])) =
  CreatedTime freshFile.
Proof.
  set (r1 := run world (CheckTodayBackups client "alpha") []).
  set (r2 := run world (GetAllSnapshots client "alpha") ([] ++ snd r1)%list).
  destruct (last_backup_is_latest_creation_time world [] client "alpha" "Alpha"
              true [freshFile] [staleFile; freshFile] (snd r1) (snd r2))
    as (Hlatest & _).
  - subst r1. vm_compute. reflexivity.
  - subst r1 r2. vm_compute. reflexivity.
  - rewrite Hlatest. vm_compute. reflexivity.
Defined.

Lemma calm_never_panics (o : Oracle) :
  forall h c what, returned c (calm o h c) <> Panics what.
Proof. intros h c what. rewrite returned_calm. discriminate. Defined.

(** With the expiry 20 minutes ahead and listings that return, the check
    returns no error, whatever the path [broken], the client [Gamma] and the
    alerts do. *)
Lemma CheckOnce_fails_only_on_refresh_witness :
  let ends := runHost (calm world) (CheckOnce format (mkMonitor cfg20 (Some bot))) [] in
  fst ends = Completed (None, mkMonitor cfg20 (Some bot)) /\
  count isStorageCall (snd ends) = 11%nat.
Proof.
  destruct (CheckOnce_fails_only_on_refresh format (calm world) []
              (mkMonitor cfg20 (Some bot))) as (_ & Herr & Hreturns & _).
  cbv zeta in Herr, Hreturns.
  destruct (Hreturns (calm_never_panics world)) as ([[e |] m'] & t & Ht).
  - destruct (Herr e m' t Ht) as (cause & cfg & _ & Hr).
    vm_compute in Hr. discriminate Hr.
  - cbv zeta. rewrite Ht. cbn [fst snd].
    vm_compute in Ht. injection Ht as <- <-. split; reflexivity.
Defined.

(** Two ticks of the service on the sample world; and a service that is
    disabled, which runs no cycle. *)
Lemma service_cycles_follow_one_another_witness :
  wholeCycles format world (mkMonitor cfgNoClients (Some bot)) []
    (snd (run world (monitoringLoop format 2 (mkMonitor cfgNoClients (Some bot))) [])) /\
  run world (Start format 2 (mkMonitor cfgDisabled (Some bot))) [] =
    ((None, mkMonitor cfgDisabled (Some bot)), []) /\
  List.length (snd (run world (Start format 2 (mkMonitor cfgNoClients (Some bot))) [])) = 11%nat.
Proof.
  destruct (service_cycles_follow_one_another format world 2
              (mkMonitor cfgNoClients (Some bot)) []) as (Hloop & _ & Hon & _).
  destruct (service_cycles_follow_one_another format world 2
              (mkMonitor cfgDisabled (Some bot)) []) as (_ & Hoff & _).
  split; [exact Hloop |]. split; [apply Hoff; reflexivity |].
  specialize (Hon eq_refl).
  destruct (run world (CheckOnce format (mkMonitor cfgNoClients (Some bot))) [])
    as [[err m1] t0] eqn:Hc.
  destruct Hon as [Hstart _]. rewrite Hstart.
  vm_compute in Hc. injection Hc as _ <- <-. vm_compute. reflexivity.
Defined.

(** C4, against the claim: the snapshots folder of [Delta] lists one file,
    whose creation time is the zero time; the list is not empty and the
    reported last backup is the zero time. *)
Lemma last_backup_zero_on_nonempty_listing :
  fst (run world (GetAllSnapshots client "delta") []) = Ok [undatedFile] /\
  Error (fst (run world (checkClientBackup client "delta" "Delta") [])) = None /\
  LastBackup (fst (run world (checkClientBackup client "delta" "Delta") [])) = zeroTime /\
  ~ (forall allFiles, IsZero (latestLoop allFiles zeroTime) = true <-> allFiles = []).
Proof.
  split; [vm_compute; reflexivity |].
  split; [vm_compute; reflexivity |].
  split; [vm_compute; reflexivity |].
  intro Hclaim. destruct (Hclaim [undatedFile]) as [Hempty _].
  discriminate Hempty. reflexivity.
Qed.

(** C5, against the claim: the recorded expiry is the largest the
    configuration can hold, ages ahead of the check; [time.Unix] wraps it to
    an instant before the zero time, and the refresh call is made and the
    credential replaced. *)
Lemma refresh_invoked_with_expiry_far_ahead :
  let r := run world (refreshTokenIfNeeded cfgFar) [] in
  TokenExpiry cfgFar = 2 ^ 63 - 1 /\
  10 * Minute < recordedExpiry cfgFar - ns now /\
  ns (Unix (TokenExpiry cfgFar)) < 0 /\
  count isRefreshCall (snd r) = 1%nat /\
  snd (fst r) <> cfgFar /\
  ~ (forall cfg,
        TokenExpiry cfg <> 0 ->
        (count isRefreshCall (snd (run world (refreshTokenIfNeeded cfg) [])) = 0%nat /\
         snd (fst (run world (refreshTokenIfNeeded cfg) [])) = cfg <->
         10 * Minute < recordedExpiry cfg - ns now)).
Proof.
  cbv zeta.
  split; [reflexivity |]. split; [vm_compute; reflexivity |].
  split; [vm_compute; reflexivity |]. split; [vm_compute; reflexivity |].
  split; [vm_compute; discriminate |].
  intro Hclaim. destruct (Hclaim cfgFar) as [_ Hskip]; [vm_compute; discriminate |].
  destruct Hskip as [Hnone _]; [vm_compute; reflexivity |].
  vm_compute in Hnone. discriminate Hnone.
Qed.

(** C7, against the claim: on a monitor whose telegram client is [nil] the
    cycle completes, two clients have failed, and neither an alert nor the
    summary is sent. *)
Lemma no_summary_without_telegram_client :
  let r := run world (CheckOnce format (mkMonitor cfg20 None)) [] in
  fst (fst r) = None /\
  count isSummary (snd r) = 0%nat /\
  count isAlert (snd r) = 0%nat /\
  failedCount (fst (run world (checkPaths client ["broken"; "root"] emptyCycle)
                        [Ev Now now])) = 2.
Proof. vm_compute. repeat split; reflexivity. Qed.

(** C9, against the claim: a scheduled and a manual [CheckOnce] started
    together, the scheduler alternating between them.  Neither waits for the
    other nor is turned away: both read the clock, both list [broken], both
    list [root], turn by turn; it is not so that under every schedule the
    calls of one all come before the calls of the other. *)
Lemma concurrent_checks_interleave :
  let m := mkMonitor cfg20 (Some bot) in
  let t := interleave world alternate (CheckOnce format m) (CheckOnce format m) [] in
  map (fun x => (fst x, ev_call (snd x))) t =
    [(Scheduled, Now); (Manual, Now);
     (Scheduled, GetSubfolders client "broken"); (Manual, GetSubfolders client "broken");
     (Scheduled, GetSubfolders client "root"); (Manual, GetSubfolders client "root")] /\
  switches t = 5%nat /\
  ~ (forall sched,
        (switches (interleave world sched (CheckOnce format m) (CheckOnce format m) []) <= 1)%nat).
Proof.
  cbv zeta. split; [vm_compute; reflexivity |]. split; [vm_compute; reflexivity |].
  intro Hnever. specialize (Hnever alternate).
  apply Nat.leb_le in Hnever. vm_compute in Hnever. discriminate Hnever.
Qed.

End OnTheSampleWorld.

(** * Further properties of the cycle *)

(** ** The statuses of a cycle *)

Lemma len_nonneg {A : Type} (l : list A) : 0 <= len l.
Proof. unfold len. lia. Qed.

Lemma checkClientBackup_flag (o : Oracle) (h : list event) (client : Client)
    (folderID clientName : string) :
  let s := fst (run o (checkClientBackup client folderID clientName) h) in
  HasBackup s = (0 <? FileCount s) /\ 0 <= FileCount s /\
  subject s = (clientName, folderID).
Proof.
  unfold checkClientBackup, CheckTodayBackups. rewrite !run_bind.
  destruct (run o (GetAllSnapshots client folderID) h) as [[allFiles | e] t0].
  - cbn [bind perform run fst snd Error].
    rewrite run_bind.
    destruct (run o (GetAllSnapshots client folderID) _) as [[allFiles' | e'] t2];
      cbn; repeat split; apply len_nonneg.
  - cbn. repeat split. lia.
Qed.

(** X1. Every status of a cycle has [HasBackup] set exactly when its
    [FileCount] is positive, and the count is never negative. *)
Theorem fresh_flag_iff_fresh_files :
  forall (o : Oracle) (h : list event) (client : Client) (paths : list string),
    Forall (fun s => HasBackup s = (0 <? FileCount s) /\ 0 <= FileCount s)
           (statuses (fst (run o (checkPaths client paths emptyCycle) h))).
Proof.
  intros o h client paths.
  apply (checkPaths_invariant
           (fun st => Forall (fun s => HasBackup s = (0 <? FileCount s) /\ 0 <= FileCount s)
                             (statuses st))
           (fun s => HasBackup s = (0 <? FileCount s) /\ 0 <= FileCount s)).
  - intros o' h' client' folderID clientName.
    destruct (checkClientBackup_flag o' h' client' folderID clientName) as (H1 & H2 & _).
    now split.
  - intros st s Hst Hs. rewrite record_statuses. apply Forall_app.
    split; [exact Hst | now constructor].
  - constructor.
Qed.

Lemma checkClients_subjects (o : Oracle) (client : Client) (subfolders : list Folder) :
  forall st h,
    map subject (statuses (fst (run o (checkClients client subfolders st) h))) =
    map subject (statuses st) ++ map (fun f => (folder_Name f, folder_ID f)) subfolders.
Proof.
  induction subfolders as [| subfolder rest IH]; intros st h.
  - cbn. now rewrite app_nil_r.
  - cbn [checkClients]. rewrite run_bind.
    destruct (checkClientBackup_flag o h client (folder_ID subfolder) (folder_Name subfolder))
      as (_ & _ & Hsub).
    destruct (run o (checkClientBackup client (folder_ID subfolder) (folder_Name subfolder)) h)
      as [s t1]. cbn [fst] in Hsub.
    specialize (IH (record st s) (h ++ t1)).
    destruct (run o (checkClients client rest (record st s)) (h ++ t1)) as [st' t2].
    cbn [fst] in *. rewrite IH, record_statuses, map_app. cbn [map].
    rewrite Hsub, <- app_assoc. reflexivity.
Qed.

(** X2. While the listing of sub-folders answers the same throughout a
    cycle, the cycle produces one status per client folder found under the
    monitored paths, in the order of the paths and of the folders, each
    carrying the name and the ID of its folder; a path listed twice in the
    configuration has its clients checked twice. *)
Theorem one_status_per_discovered_client :
  forall (o : Oracle) (ls : string -> result (list Folder)) (client : Client)
         (paths : list string) (h : list event),
    (forall h' folderID, o h' (GetSubfolders client folderID) = ls folderID) ->
    map subject (statuses (fst (run o (checkPaths client paths emptyCycle) h))) =
    discovered ls paths.
Proof.
  intros o ls client paths h Hls.
  enough (Hgen : forall st h0,
             map subject (statuses (fst (run o (checkPaths client paths st) h0))) =
             map subject (statuses st) ++ discovered ls paths) by apply (Hgen emptyCycle h).
  induction paths as [| p rest IH]; intros st h0.
  - cbn. now rewrite app_nil_r.
  - cbn [checkPaths bind perform run discovered flat_map].
    pose proof (Hls h0 p) as Hp.
    set (e := Ev (GetSubfolders client p) (o h0 (GetSubfolders client p))).
    destruct (o h0 (GetSubfolders client p)) as [subfolders | err]; rewrite <- Hp.
    + rewrite run_bind.
      pose proof (checkClients_subjects o client subfolders st (h0 ++ [e])) as Hc.
      destruct (run o (checkClients client subfolders st) (h0 ++ [e])) as [st1 t1].
      specialize (IH st1 ((h0 ++ [e]) ++ t1)).
      destruct (run o (checkPaths client rest st1) ((h0 ++ [e]) ++ t1)) as [st2 t2].
      cbn [fst] in *. rewrite IH, Hc, <- app_assoc. reflexivity.
    + specialize (IH st (h0 ++ [e])).
      destruct (run o (checkPaths client rest st) (h0 ++ [e])) as [st2 t2].
      cbn [fst] in *. exact IH.
Qed.

(** ** The snapshots folder *)

Lemma findSnapshotsFolderID_find (subfolders : list Folder) :
  findSnapshotsFolderID subfolders =
  match snapshotsFolder subfolders with
  | Some folder => folder_ID folder
  | None => EmptyString
  end.
Proof.
  unfold snapshotsFolder.
  induction subfolders as [| folder rest IH]; cbn [findSnapshotsFolderID find]; [reflexivity |].
  now destruct (String.eqb (folder_Name folder) "snapshots").
Qed.

(** X3. [GetAllSnapshots] lists the contents of the first sub-folder whose
    name is exactly [snapshots], and of no other: it fails, after the one
    listing call, when that call fails, when no sub-folder has that name, and
    also when the first one that has it carries an empty ID; otherwise it
    makes one contents call, on that folder's ID, and returns its files or
    its error. *)
Theorem GetAllSnapshots_first_snapshots_folder :
  forall (o : Oracle) (h : list event) (c : Client) (folderID : string),
    let listing := o h (GetSubfolders c folderID) in
    let h1 := h ++ [Ev (GetSubfolders c folderID) listing] in
    run o (GetAllSnapshots c folderID) h =
    match listing with
    | Err err => (Err (ErrGetSubfoldersFor folderID err), [Ev (GetSubfolders c folderID) listing])
    | Ok subfolders =>
        match snapshotsFolder subfolders with
        | None =>
            (Err (ErrSnapshotsNotFound folderID (map folder_Name subfolders)),
             [Ev (GetSubfolders c folderID) listing])
        | Some folder =>
            if String.eqb (folder_ID folder) EmptyString then
              (Err (ErrSnapshotsNotFound folderID (map folder_Name subfolders)),
               [Ev (GetSubfolders c folderID) listing])
            else
              (match o h1 (GetFolderContents c (folder_ID folder)) with
               | Ok files => Ok files
               | Err err => Err (ErrGetSnapshotFiles (folder_ID folder) err)
               end,
               [Ev (GetSubfolders c folderID) listing;
                Ev (GetFolderContents c (folder_ID folder))
                   (o h1 (GetFolderContents c (folder_ID folder)))])
        end
    end.
Proof.
  intros o h c folderID listing h1. subst h1 listing.
  unfold GetAllSnapshots. cbn [bind perform run].
  destruct (o h (GetSubfolders c folderID)) as [subfolders | err]; [| reflexivity].
  cbn [run]. rewrite findSnapshotsFolderID_find.
  destruct (snapshotsFolder subfolders) as [folder |]; [| reflexivity].
  destruct (String.eqb (folder_ID folder) EmptyString); [reflexivity |].
  cbn [bind perform run].
  now destruct (o _ (GetFolderContents c (folder_ID folder))).
Qed.

(** ** The token the cycle works with *)

Lemma withClient_refl (cl : Client) (folderID : string) :
  withClient cl (GetSubfolders cl folderID) = true /\
  withClient cl (GetFolderContents cl folderID) = true.
Proof. cbn. now rewrite String.eqb_refl. Qed.

Lemma only_withClient_GetAllSnapshots (cl : Client) (folderID : string) :
  only (withClient cl) (GetAllSnapshots cl folderID).
Proof.
  unfold GetAllSnapshots. apply only_bind; [apply only_perform, withClient_refl |].
  intros [subfolders | err]; cbn [only]; [| trivial].
  destruct (String.eqb _ _); cbn [only]; [trivial |].
  apply only_bind; [apply only_perform, withClient_refl |]. intros [files | err]; exact I.
Qed.

Lemma only_withClient_checkClientBackup (cl : Client) (folderID clientName : string) :
  only (withClient cl) (checkClientBackup cl folderID clientName).
Proof.
  pose proof (only_withClient_GetAllSnapshots cl folderID) as HG.
  unfold checkClientBackup, CheckTodayBackups.
  apply only_bind.
  - apply only_bind; [exact HG |]. intros [allFiles | err]; cbn [only]; [| trivial].
    apply only_bind; [now apply only_perform | intro; exact I].
  - intros [[hasBackup recentFiles] [e |]]; cbn [only]; [trivial |].
    apply only_bind; [exact HG |]. intros [allFiles | err]; exact I.
Qed.

Lemma only_withClient_checkPaths (cl : Client) (paths : list string) :
  forall st, only (withClient cl) (checkPaths cl paths st).
Proof.
  assert (Hc : forall subfolders st, only (withClient cl) (checkClients cl subfolders st)).
  { induction subfolders as [| subfolder rest IH]; intro st; cbn [checkClients]; [exact I |].
    apply only_bind; [apply only_withClient_checkClientBackup |]. intro s. apply IH. }
  induction paths as [| folderID rest IH]; intro st; cbn [checkPaths]; [exact I |].
  apply only_bind; [apply only_perform, withClient_refl |].
  intros [subfolders | err]; [| apply IH].
  apply only_bind; [apply Hc | apply IH].
Qed.

Lemma credential_withClient (cl : Client) (c : call) :
  isCredentialCall c = true -> withClient cl c = true.
Proof. now destruct c. Qed.

Lemma forallb_app_intro {A : Type} (f : A -> bool) (l1 l2 : list A) :
  forallb f l1 = true -> forallb f l2 = true -> forallb f (l1 ++ l2) = true.
Proof. intros H1 H2. rewrite forallb_app, H1, H2. reflexivity. Qed.

Lemma forallb_weaken {A : Type} (f g : A -> bool) (l : list A) :
  (forall x, f x = true -> g x = true) -> forallb f l = true -> forallb g l = true.
Proof.
  intros Hfg. rewrite !forallb_forall. intros H x Hin. apply Hfg, H, Hin.
Qed.

(** X4. Every listing call of a cycle is made with the access token the
    monitor holds when the cycle ends: the stored one when no refresh took
    place, the new one after a refresh.  The token that was replaced is
    never used for a listing. *)
Theorem cycle_lists_with_current_token :
  forall (Format : Time -> string -> string) (o : Oracle) (h : list event) (m : Monitor),
    let '((_, m'), t) := run o (CheckOnce Format m) h in
    forallb (withClient (NewClient (AccessToken (config m')))) (calls t) = true.
Proof.
  intros Format o h m.
  pose proof (calls_CheckOnce Format o h m) as Hcalls.
  rewrite run_CheckOnce in *.
  pose proof (only_run _ o _ (only_refreshTokenIfNeeded (config m)) h) as H1.
  destruct (run o (refreshTokenIfNeeded (config m)) h) as [[[e |] cfg] t1]; cbn [snd] in *.
  - cbn [config]. exact (forallb_weaken _ _ _ (credential_withClient _) H1).
  - pose proof (only_run _ o _ (only_withClient_checkPaths (NewClient (AccessToken cfg))
                                  (MonitorPaths cfg) emptyCycle) (h ++ t1)) as H2.
    destruct (run o (checkPaths _ _ _) (h ++ t1)) as [st t2].
    destruct (run o (sendNotifications Format _ _ _ _ _) ((h ++ t1) ++ t2)) as [r t3].
    cbn [snd config] in *. rewrite Hcalls.
    apply forallb_app_intro; [exact (forallb_weaken _ _ _ (credential_withClient _) H1) |].
    apply forallb_app_intro; [exact H2 |].
    destruct (telegram m); [| reflexivity].
    apply forallb_app_intro; [| reflexivity].
    apply forallb_forall. intros c Hin. apply in_map_iff in Hin as (s & <- & _). reflexivity.
Qed.

(** ** What a cycle does to the configuration *)

Lemma run_refreshTokenIfNeeded_config (o : Oracle) (h : list event) (cfg : Config) :
  let '((err, cfg'), t) := run o (refreshTokenIfNeeded cfg) h in
  MonitorPaths cfg' = MonitorPaths cfg /\
  CheckInterval cfg' = CheckInterval cfg /\
  Enabled cfg' = Enabled cfg /\
  (filter isSave (calls t) = [] /\ cfg' = cfg \/
   filter isSave (calls t) = [Save cfg'] /\ err = None).
Proof.
  unfold refreshTokenIfNeeded. destruct (TokenExpiry cfg =? 0).
  - cbn. repeat split. now left.
  - cbn [bind perform run]. destruct (Before _ _).
    + cbn. repeat split. now left.
    + cbn [bind perform run].
      destruct (o _ (RefreshTokenCall _)) as [newToken | err]; cbn.
      * repeat split. now right.
      * repeat split. now left.
Qed.

Lemma filter_isSave_check (t : list event) :
  forallb isCheckCall (calls t) = true -> filter isSave (calls t) = [].
Proof. apply filter_none. now intros []. Qed.

(** X5. A cycle never touches the monitored paths, the check interval, the
    enabled flag or the telegram client.  It either leaves the whole
    configuration as it was and saves nothing, or (after a successful
    refresh) saves once, and what it saves is exactly the configuration the
    monitor goes on with. *)
Theorem cycle_saves_what_it_keeps :
  forall (Format : Time -> string -> string) (o : Oracle) (h : list event) (m : Monitor),
    let '((_, m'), t) := run o (CheckOnce Format m) h in
    telegram m' = telegram m /\
    MonitorPaths (config m') = MonitorPaths (config m) /\
    CheckInterval (config m') = CheckInterval (config m) /\
    Enabled (config m') = Enabled (config m) /\
    (filter isSave (calls t) = [] /\ config m' = config m \/
     filter isSave (calls t) = [Save (config m')]).
Proof.
  intros Format o h m.
  pose proof (calls_CheckOnce Format o h m) as Hcalls.
  rewrite run_CheckOnce in *.
  pose proof (run_refreshTokenIfNeeded_config o h (config m)) as H1.
  destruct (run o (refreshTokenIfNeeded (config m)) h) as [[[e |] cfg] t1]; cbn [snd] in *.
  - destruct H1 as (Hp & Hi & He & [[Hs Hc] | [Hs Hc]]); [| discriminate].
    cbn [config telegram]. repeat split; try assumption. now left.
  - pose proof (only_run _ o _ (only_checkPaths (NewClient (AccessToken cfg))
                                  (MonitorPaths cfg) emptyCycle) (h ++ t1)) as H2.
    destruct (run o (checkPaths _ _ _) (h ++ t1)) as [st t2].
    destruct (run o (sendNotifications Format _ _ _ _ _) ((h ++ t1) ++ t2)) as [r t3].
    cbn [snd config telegram] in *.
    assert (Hrest : filter isSave
                      (calls t2 ++
                       match telegram m with
                       | Some _ =>
                           map (alertCall Format)
                               (filter (fun s => negb (HasBackup s)) (statuses st))
                             ++ [summaryCall st]
                       | None => []
                       end) = []).
    { rewrite filter_app, (filter_isSave_check _ H2). cbn [app].
      destruct (telegram m); [| reflexivity].
      rewrite filter_app. cbn. rewrite app_nil_r.
      apply (filter_none isAlert); [now intros [] |].
      apply forallb_forall. intros c Hin. apply in_map_iff in Hin as (s & <- & _).
      reflexivity. }
    destruct H1 as (Hp & Hi & He & Hsave).
    repeat split; try assumption.
    rewrite Hcalls, filter_app, Hrest, app_nil_r.
    destruct Hsave as [[Hs Hc] | [Hs _]]; [left | right]; auto.
Qed.

(** ** The stored expiry *)

Lemma wrap64_add_l (a b : Z) : wrap64 (wrap64 a + b) = wrap64 (a + b).
Proof.
  unfold wrap64.
  replace ((a + 2 ^ 63) mod 2 ^ 64 - 2 ^ 63 + b + 2 ^ 63)
    with ((a + 2 ^ 63) mod 2 ^ 64 + b) by lia.
  rewrite Z.add_mod_idemp_l by lia. f_equal. f_equal. lia.
Qed.

Lemma Unix_toUnix_seconds (t : Time) :
  ns (Unix (toUnix t)) = wrap64 (ns t / Second) * Second.
Proof.
  unfold Unix, toUnix; cbn [ns]. rewrite wrap64_add_l. do 2 f_equal. lia.
Qed.

Lemma Unix_toUnix (t : Time) :
  representable t ->
  ns (Unix (toUnix t)) <= ns t /\ ns t - Second < ns (Unix (toUnix t)).
Proof.
  intro Hrep. rewrite Unix_toUnix_seconds, (wrap64_within _ Hrep).
  assert (Hs : 0 < Second) by reflexivity.
  pose proof (Z.div_mod (ns t) Second) as Hd.
  pose proof (Z.mod_pos_bound (ns t) Second Hs) as Hm.
  lia.
Qed.

(** X6. A successful refresh stores the new access token, the new refresh
    token (as returned, even when empty) and the new expiry cut down to whole
    seconds: the instant read back from the stored count is the int64 count
    of seconds of the new expiry, which, the new expiry being an instant a
    [time.Time] holds, is less than a second before it.  With that
    configuration a later check makes no refresh call as long as the new
    token's expiry is at least 10 minutes and one second away. *)
Theorem refreshed_token_is_kept_until_margin :
  forall (o : Oracle) (h : list event) (cfg : Config) (newToken : Token),
    let now := o h Now in
    let expiry := Unix (TokenExpiry cfg) in
    let token := mkToken (AccessToken cfg) (RefreshToken cfg) expiry in
    TokenExpiry cfg <> 0 ->
    ~ 10 * Minute < ns expiry - ns now ->
    o (h ++ [Ev Now now]) (RefreshTokenCall token) = Ok newToken ->
    let cfg' := snd (fst (run o (refreshTokenIfNeeded cfg) h)) in
    AccessToken cfg' = tok_AccessToken newToken /\
    RefreshToken cfg' = tok_RefreshToken newToken /\
    TokenExpiry cfg' = toUnix (tok_Expiry newToken) /\
    ns (Unix (TokenExpiry cfg')) = wrap64 (ns (tok_Expiry newToken) / Second) * Second /\
    (representable (tok_Expiry newToken) ->
     ns (tok_Expiry newToken) - Second < ns (Unix (TokenExpiry cfg')) <= ns (tok_Expiry newToken) /\
     (forall (o2 : Oracle) (h2 : list event),
         TokenExpiry cfg' <> 0 ->
         10 * Minute + Second <= ns (tok_Expiry newToken) - ns (o2 h2 Now) ->
         run o2 (refreshTokenIfNeeded cfg') h2 = ((None, cfg'), [Ev Now (o2 h2 Now)]))).
Proof.
  intros o h cfg newToken now expiry token H0 Hout Hanswer cfg'.
  assert (Hcfg : cfg' = mkConfig (tok_AccessToken newToken) (tok_RefreshToken newToken)
                                 (toUnix (tok_Expiry newToken))
                                 (MonitorPaths cfg) (CheckInterval cfg) (Enabled cfg)).
  { subst cfg'. unfold refreshTokenIfNeeded.
    apply Z.eqb_neq in H0. rewrite H0. cbn [bind perform run]. fold now expiry token.
    pose proof (within_margin now expiry) as Hm.
    destruct (Before now (Add expiry (-10 * Minute))); [exfalso; apply Hout, Hm; reflexivity |].
    cbn [bind perform run]. rewrite Hanswer. reflexivity. }
  rewrite Hcfg. cbn [AccessToken RefreshToken TokenExpiry].
  do 3 (split; [reflexivity |]). split; [apply Unix_toUnix_seconds |].
  intro Hrep.
  pose proof (Unix_toUnix (tok_Expiry newToken) Hrep) as [Hle Hgt].
  repeat split; try assumption.
  intros o2 h2 Hne Hfar. unfold refreshTokenIfNeeded. cbn [TokenExpiry].
  apply Z.eqb_neq in Hne. cbn [TokenExpiry] in Hne. rewrite Hne.
  cbn [bind perform run].
  assert (Hin : Before (o2 h2 Now) (Add (Unix (toUnix (tok_Expiry newToken))) (-10 * Minute))
                = true) by (apply within_margin; lia).
  rewrite Hin. reflexivity.
Qed.

(** ** The result of the notifications *)

(** X7. On a monitor with a telegram client, [sendNotifications] returns
    exactly what the summary send answered; that send is its last call and
    comes after alerts only, whose answers do not count.  Without a telegram
    client it returns its own error and makes no call. *)
Theorem notifications_return_summary_result :
  forall (Format : Time -> string -> string) (o : Oracle) (h : list event) (m : Monitor)
         (sts : list BackupStatus) (successCount failedCount : Z) (failedClients : list string),
    let r := run o (sendNotifications Format m sts successCount failedCount failedClients) h in
    match telegram m with
    | None => r = (Some ErrTelegramNotInitialized, [])
    | Some _ =>
        exists alerts,
          snd r = alerts ++ [Ev (SendSummaryReport (len sts) successCount failedCount
                                                   failedClients) (fst r)] /\
          forallb isAlert (calls alerts) = true
    end.
Proof.
  intros Format o h m sts sc fc names r. subst r. unfold sendNotifications.
  destruct (telegram m) as [tg |]; [| reflexivity].
  rewrite run_bind. destruct (run_sendAlerts Format o sts h) as [_ Hc].
  destruct (run o (sendAlerts Format sts) h) as [[] t1]. cbn [snd] in Hc.
  exists t1. cbn [bind perform run]. split.
  - now destruct (o (h ++ t1) (SendSummaryReport (len sts) sc fc names)).
  - rewrite Hc. apply forallb_forall. intros c Hin.
    apply in_map_iff in Hin as (s & <- & _). reflexivity.
Qed.

(** ** Fresh clients and their last backup *)

Lemma run_CheckTodayBackups_listed (o : Oracle) (h : list event) (c : Client)
    (folderID : string) (allFiles : list FileInfo) (t0 : list event) :
  run o (GetAllSnapshots c folderID) h = (Ok allFiles, t0) ->
  let now := o (h ++ t0) Now in
  let fresh := fun file => utcDay (CreatedTime file) =? utcDay now in
  run o (CheckTodayBackups c folderID) h =
  ((existsb fresh allFiles, filter fresh allFiles, None), t0 ++ [Ev Now now]).
Proof.
  intros H0 now fresh. unfold CheckTodayBackups. rewrite run_bind, H0.
  cbn [bind perform run]. fold now.
  rewrite collectToday_filter, filter_createdToday. cbn [app].
  now rewrite len_pos_existsb.
Qed.

Lemma utcDay_mono (t u : Time) : ns t <= ns u -> utcDay t <= utcDay u.
Proof. intro H. unfold utcDay. apply Z.div_le_mono; [reflexivity | exact H]. Qed.

(** X8. When the two listings [checkClientBackup] makes of a client's
    snapshots folder return the same files, a client reported fresh has a
    last backup time of today or of a later day (of today when no file is
    dated after the instant of the check, itself not before the zero time),
    and a client reported stale has a last backup time that is none of
    today's: either it is the creation time of no file, or its day is not
    today. *)
Theorem fresh_client_last_backup_is_recent :
  forall (o : Oracle) (h : list event) (client : Client) (folderID clientName : string)
         (allFiles : list FileInfo) (t0 t2 : list event),
    run o (GetAllSnapshots client folderID) h = (Ok allFiles, t0) ->
    let now := o (h ++ t0) Now in
    run o (GetAllSnapshots client folderID) (h ++ t0 ++ [Ev Now now]) = (Ok allFiles, t2) ->
    let s := fst (run o (checkClientBackup client folderID clientName) h) in
    (HasBackup s = true -> utcDay now <= utcDay (LastBackup s)) /\
    (HasBackup s = true ->
     0 <= ns now ->
     (forall file, In file allFiles -> ns (CreatedTime file) <= ns now) ->
     utcDay (LastBackup s) = utcDay now) /\
    (HasBackup s = false ->
     In (LastBackup s) (map CreatedTime allFiles) ->
     utcDay (LastBackup s) <> utcDay now).
Proof.
  intros o h client folderID clientName allFiles t0 t2 H0 now H2 s.
  pose proof (run_CheckTodayBackups_listed o h client folderID allFiles t0 H0) as H1.
  cbv zeta in H1. fold now in H1.
  assert (Hs : s = mkStatus clientName folderID
                 (existsb (fun file => utcDay (CreatedTime file) =? utcDay now) allFiles)
                 (len (filter (fun file => utcDay (CreatedTime file) =? utcDay now) allFiles))
                 (latestLoop allFiles zeroTime) None).
  { subst s.
    rewrite (run_checkClientBackup_listed o h client folderID clientName _ _ allFiles _ t2 H1);
      [reflexivity | exact H2]. }
  rewrite Hs. cbn [HasBackup LastBackup].
  assert (Hfresh : existsb (fun file => utcDay (CreatedTime file) =? utcDay now) allFiles = true ->
                   utcDay now <= utcDay (latestLoop allFiles zeroTime)).
  { intro Hex. apply existsb_exists in Hex as (file & Hin & Hday).
    apply Z.eqb_eq in Hday. rewrite <- Hday. apply utcDay_mono.
    rewrite latestLoop_upper. now apply upper_bound. }
  split; [exact Hfresh |]. split.
  - intros Hex Hyear Hpast. apply Z.le_antisymm; [| now apply Hfresh].
    apply utcDay_mono. rewrite latestLoop_upper.
    destruct (upper_attained allFiles (ns zeroTime)) as [-> | (file & Hin & ->)];
      [exact Hyear | now apply Hpast].
  - intros Hex Hin Hday.
    apply in_map_iff in Hin as (file & Hct & Hin).
    assert (Htrue : existsb (fun file => utcDay (CreatedTime file) =? utcDay now) allFiles = true).
    { apply existsb_exists. exists file. split; [exact Hin |].
      apply Z.eqb_eq. now rewrite Hct. }
    congruence.
Qed.

(** * The layers below *)

Section WireProperties.

Import Wire.
Local Open Scope io_scope.

Lemma exec_bind {A B : Type} (w : World) (p : io A) (f : A -> io B) (h : list sysevent) :
  exec w (io_bind p f) h =
  let '(a, t1) := exec w p h in
  let '(b, t2) := exec w (f a) (h ++ t1) in
  (b, t1 ++ t2).
Proof.
  revert h; induction p as [a | c k IH]; intro h; simpl.
  - rewrite app_nil_r. now destruct (exec w (f a) h).
  - rewrite IH.
    destruct (exec w (k (w h c)) (h ++ [Sys c (w h c)])) as [a t1].
    rewrite <- app_assoc; simpl.
    now destruct (exec w (f a) (h ++ Sys c (w h c) :: t1)).
Qed.

(** ** The listings of [onedrive.Client] *)

Context {J : Json}.

Lemma collectFolders_named (items : list item) :
  forall folders,
    foldersNamed items = true ->
    collectFolders items folders = Fine (folders ++ map folderOf (filter isFolderItem items)).
Proof.
  unfold foldersNamed.
  induction items as [| i rest IH]; intros folders Hok; cbn [collectFolders filter map forallb].
  - now rewrite app_nil_r.
  - cbn [forallb] in Hok. apply andb_prop in Hok as [Hi Hrest].
    destruct i as [| b | n | s | l | itemMap]; cbn [isFolderItem]; try (now apply IH).
    unfold isFolderItem, named in Hi.
    destruct (get "folder" itemMap) as [[| b | n | s | l | fs] |]; try (now apply IH);
      cbn [implb] in Hi;
      destruct (get "id" itemMap) as [[| b' | n' | id | l' | fs'] |] eqn:Hid; try discriminate;
      destruct (get "name" itemMap) as [[| b'' | n'' | name | l'' | fs''] |] eqn:Hname;
      try discriminate;
      rewrite (IH _ Hrest); cbn [map]; unfold folderOf, textOf, fieldsOf;
      rewrite Hid, Hname, <- app_assoc; reflexivity.
Qed.

Lemma collectFolders_unnamed (items : list item) :
  forall folders,
    foldersNamed items = false ->
    exists what, collectFolders items folders = Panicked what.
Proof.
  unfold foldersNamed.
  induction items as [| i rest IH]; intros folders Hok; [discriminate |].
  cbn [forallb] in Hok. cbn [collectFolders].
  destruct i as [| b | n | s | l | itemMap]; cbn [isFolderItem implb andb] in Hok;
    try (now apply IH).
  unfold isFolderItem, named in Hok.
  destruct (get "folder" itemMap) as [[| b | n | s | l | fs] |];
    cbn [implb andb] in Hok; try (now apply IH);
    destruct (get "id" itemMap) as [[| b' | n' | id | l' | fs'] |]; try (now eexists);
    destruct (get "name" itemMap) as [[| b'' | n'' | name | l'' | fs''] |]; try (now eexists);
    cbn [andb] in Hok; now apply IH.
Qed.

Lemma collectFiles_named (items : list item) :
  forall files,
    filesNamed items = true ->
    collectFiles items files = Fine (files ++ map fileOf (filter isFileItem items)).
Proof.
  unfold filesNamed.
  induction items as [| i rest IH]; intros files Hok; cbn [collectFiles filter map forallb].
  - now rewrite app_nil_r.
  - cbn [forallb] in Hok. apply andb_prop in Hok as [Hi Hrest].
    destruct i as [| b | n | s | l | itemMap]; cbn [isFileItem]; try (now apply IH).
    unfold isFileItem, named in Hi.
    destruct (get "file" itemMap) as [v |]; [| now apply IH].
    cbn [implb] in Hi.
    destruct (get "id" itemMap) as [[| b' | n' | id | l' | fs'] |] eqn:Hid; try discriminate.
    destruct (get "name" itemMap) as [[| b'' | n'' | name | l'' | fs''] |] eqn:Hname;
      try discriminate.
    rewrite (IH _ Hrest). cbn [map]. unfold fileOf, textOf, fieldsOf.
    rewrite Hid, Hname, <- app_assoc. reflexivity.
Qed.

Lemma collectFiles_unnamed (items : list item) :
  forall files,
    filesNamed items = false ->
    exists what, collectFiles items files = Panicked what.
Proof.
  unfold filesNamed.
  induction items as [| i rest IH]; intros files Hok; [discriminate |].
  cbn [forallb] in Hok. cbn [collectFiles].
  destruct i as [| b | n | s | l | itemMap]; cbn [isFileItem implb andb] in Hok;
    try (now apply IH).
  unfold isFileItem, named in Hok.
  destruct (get "file" itemMap) as [v |]; cbn [implb andb] in Hok; [| now apply IH].
  destruct (get "id" itemMap) as [[| b' | n' | id | l' | fs'] |]; try (now eexists).
  destruct (get "name" itemMap) as [[| b'' | n'' | name | l'' | fs''] |]; try (now eexists).
  cbn [andb] in Hok. now apply IH.
Qed.

Lemma exec_makeRequest (w : World) (h : list sysevent) (c : Client) (method url : string)
    (resp : Response) :
  let req := mkRequest method url
               [("Authorization", "Bearer " ++ accessToken c);
                ("Content-Type", "application/json")]%string in
  w h (NewRequest method url) = None ->
  w (h ++ [Sys (NewRequest method url) None]) (HttpDo req) = Good resp ->
  exec w (makeRequest c method url) h =
  (if 400 <=? StatusCode resp
   then Bad (Errorf "API request failed with status %d" [itoa (StatusCode resp)])
   else Good resp,
   [Sys (NewRequest method url) None; Sys (HttpDo req) (Good resp)]).
Proof.
  intros req Hnew Hdo. unfold makeRequest. cbn [io_bind act exec].
  rewrite Hnew. cbn [io_bind act exec]. fold req. rewrite Hdo.
  now destruct (400 <=? StatusCode resp).
Qed.

Ltac listing_outcome Hnew Hdo :=
  rewrite exec_bind, (exec_makeRequest _ _ _ _ _ _ Hnew Hdo).

(** X9. A folder listing ([GetSubfolders], and [GetTopLevelFolders] on the
    root) whose request is answered: with a status of 400 or more it fails
    with that status and the body is not looked at; with any lower status
    the body is decoded, and the listing is made of the items that are
    objects with a [folder] member other than [null], in the order of the
    response, every other item being skipped.  When one of the kept items
    has no string [id] or no string [name] the call does not return: it
    panics. *)
Theorem folder_listing_keeps_folder_items :
  forall (w : World) (h : list sysevent) (c : Client) (folderID : string) (resp : Response),
    let url := (baseURL ++ "/me/drive/items/" ++ folderID ++ "/children")%string in
    let root := (baseURL ++ "/me/drive/root/children")%string in
    let listed (r : outcome (list Folder)) :=
      (400 <= StatusCode resp ->
       r = Failed (Errorf "API request failed with status %d" [itoa (StatusCode resp)])) /\
      (StatusCode resp < 400 ->
       match decode resp with
       | Bad err => r = Failed (Wrapf "failed to decode response: %w" [] err)
       | Good items =>
           if foldersNamed items
           then r = Fine (map folderOf (filter isFolderItem items))
           else exists what, r = Panicked what
       end) in
    (w h (NewRequest "GET" url) = None ->
     w (h ++ [Sys (NewRequest "GET" url) None]) (HttpDo (bearer c "GET" url)) = Good resp ->
     listed (fst (exec w (OneDrive.GetSubfolders c folderID) h))) /\
    (w h (NewRequest "GET" root) = None ->
     w (h ++ [Sys (NewRequest "GET" root) None]) (HttpDo (bearer c "GET" root)) = Good resp ->
     listed (fst (exec w (OneDrive.GetTopLevelFolders c) h))).
Proof.
  intros w h c folderID resp url root listed. subst listed; cbv beta.
  split; intros Hnew Hdo.
  - unfold OneDrive.GetSubfolders. fold url. listing_outcome Hnew Hdo.
    split; intro Hs.
    + apply Z.leb_le in Hs. rewrite Hs. reflexivity.
    + apply Z.leb_gt in Hs. rewrite Hs.
      destruct (decode resp) as [items | err]; [| reflexivity].
      destruct (foldersNamed items) eqn:Hn; cbn [exec fst].
      * now rewrite (collectFolders_named items [] Hn).
      * apply (collectFolders_unnamed items [] Hn).
  - unfold OneDrive.GetTopLevelFolders. fold root. listing_outcome Hnew Hdo.
    split; intro Hs.
    + apply Z.leb_le in Hs. rewrite Hs. reflexivity.
    + apply Z.leb_gt in Hs. rewrite Hs.
      destruct (decode resp) as [items | err]; [| reflexivity].
      destruct (foldersNamed items) eqn:Hn; cbn [exec fst].
      * now rewrite (collectFolders_named items [] Hn).
      * apply (collectFolders_unnamed items [] Hn).
Qed.

(** X10. [GetFolderContents], its request answered with a status below 400
    and a body that decodes: the files are the items that are objects with a
    [file] member (a [null] one counts), in the order of the response; each
    takes its creation and modification time from the strings that parse as
    RFC 3339 and has the zero time otherwise.  A kept item without string
    [id] or [name] makes the call panic. *)
Theorem file_listing_keeps_file_items :
  forall (w : World) (h : list sysevent) (c : Client) (folderID : string) (resp : Response)
         (items : list item),
    let url := (baseURL ++ "/me/drive/items/" ++ folderID ++ "/children")%string in
    w h (NewRequest "GET" url) = None ->
    w (h ++ [Sys (NewRequest "GET" url) None]) (HttpDo (bearer c "GET" url)) = Good resp ->
    StatusCode resp < 400 ->
    decode resp = Good items ->
    let r := fst (exec w (OneDrive.GetFolderContents c folderID) h) in
    (filesNamed items = true ->
     r = Fine (map fileOf (filter isFileItem items)) /\
     forall i, In i (filter isFileItem items) ->
       CreatedTime (fileOf i) = timeOf "createdDateTime" (fieldsOf i) /\
       (undated i = true -> CreatedTime (fileOf i) = zeroTime)) /\
    (filesNamed items = false -> exists what, r = Panicked what).
Proof.
  intros w h c folderID resp items url Hnew Hdo Hs Hdec r. subst r.
  unfold OneDrive.GetFolderContents. fold url. listing_outcome Hnew Hdo.
  apply Z.leb_gt in Hs. rewrite Hs, Hdec. cbn [exec fst]. split; intro Hn.
  - rewrite (collectFiles_named items [] Hn). split; [reflexivity |].
    intros i _. split; [reflexivity |].
    unfold undated, fileOf, timeOf; cbn [CreatedTime].
    destruct (get "createdDateTime" (fieldsOf i)) as [[| b | n | text | l | fs] |];
      try reflexivity.
    destruct (parseRFC3339 text); [discriminate | reflexivity].
  - apply (collectFiles_unnamed items [] Hn).
Qed.

Lemma filter_false_in {A : Type} (f : A -> bool) (l : list A) :
  (forall x, In x l -> f x = false) -> filter f l = [].
Proof.
  induction l as [| x l IH]; intro Hall; [reflexivity |].
  cbn. rewrite (Hall x (or_introl eq_refl)). apply IH. intros y Hy. apply Hall. now right.
Qed.

Lemma latestLoop_zero (files : list FileInfo) :
  (forall file, In file files -> CreatedTime file = zeroTime) ->
  latestLoop files zeroTime = zeroTime.
Proof.
  induction files as [| file rest IH]; intro Hall; [reflexivity |].
  cbn [latestLoop]. rewrite (Hall file (or_introl eq_refl)).
  cbn. apply IH. intros f Hin. apply Hall. now right.
Qed.

(** X11. Files that reach the monitor without a readable creation time
    count for nothing: when every file item of a snapshots listing is
    undated, the listing is not empty for that, yet no file of it is fresh at
    any instant past the first day of the calendar, and the last backup time
    computed from it is the zero time, shown as "Unknown". *)
Theorem undated_files_are_never_fresh :
  forall (items : list item) (Format : Time -> string -> string)
         (clientName folderID : string) (now : Time),
    filesNamed items = true ->
    (forall i, In i items -> isFileItem i = true -> undated i = true) ->
    nsPerDay <= ns now ->
    exists files,
      collectFiles items [] = Fine files /\
      List.length files = List.length (filter isFileItem items) /\
      collectToday (Truncate (24 * Hour) (UTC now)) files [] = [] /\
      latestLoop files zeroTime = zeroTime /\
      lastBackupStr Format
        (mkStatus clientName folderID false 0 (latestLoop files zeroTime) None)
      = "Unknown"%string.
Proof.
  intros items Format clientName folderID now Hn Hund Hnow.
  exists (map fileOf (filter isFileItem items)).
  assert (Hzero : forall file, In file (map fileOf (filter isFileItem items)) ->
                               CreatedTime file = zeroTime).
  { intros file Hin. apply in_map_iff in Hin as (i & <- & Hi).
    apply filter_In in Hi as [Hi Hfile]. specialize (Hund i Hi Hfile).
    unfold undated in Hund. unfold fileOf, timeOf; cbn [CreatedTime].
    destruct (get "createdDateTime" (fieldsOf i)) as [[| b | n | text | l | fs] |];
      try reflexivity.
    destruct (parseRFC3339 text); [discriminate | reflexivity]. }
  split; [apply (collectFiles_named items [] Hn) |].
  split; [apply length_map |].
  rewrite (latestLoop_zero _ Hzero). repeat split.
  rewrite collectToday_filter, filter_createdToday. cbn [app].
  apply filter_false_in. intros file Hin. rewrite (Hzero file Hin).
  apply Z.eqb_neq. unfold utcDay. cbn [ns zeroTime].
  assert (1 <= ns now / nsPerDay) by (apply Z.div_le_lower_bound; [reflexivity | lia]).
  rewrite Z.div_0_l; [lia | discriminate].
Qed.

(** ** The authenticator *)

Context {AJ : AuthJson}.

Lemma seconds_exact (n : Z) :
  - 2 ^ 63 <= n * Second < 2 ^ 63 -> seconds n = n * Second.
Proof.
  intro Hr. unfold seconds, wrap64.
  rewrite Z.mod_small; lia.
Qed.

(** X12. [Authenticator.RefreshToken] makes no request at all for a token
    without refresh token.  It returns a token only from one request
    answered with status 200 and a body that decodes with an empty [error]:
    the token then has the access token, the refresh token and the type of
    the response as they are (an empty access token is let through), and its
    expiry is the clock reading made once the response is there plus the
    int64 product of [expires_in] and the nanoseconds of a second.  That is
    [expires_in] seconds after the reading as long as the product is within
    int64; a product that wraps to the negative half gives a token that has
    expired before it is returned. *)
Theorem RefreshToken_returns_the_response_token :
  forall (w : World) (h : list sysevent) (token : Token),
    let data := [("client_id", PublicClientID);
                 ("grant_type", "refresh_token");
                 ("refresh_token", tok_RefreshToken token);
                 ("scope", "https://graph.microsoft.com/Files.Read.All offline_access")
                ]%string in
    let r := exec w (Auth.RefreshToken token) h in
    (tok_RefreshToken token = EmptyString ->
     r = (Bad (Errorf "no refresh token available" []), [])) /\
    (forall tok, fst r = Good tok ->
       tok_RefreshToken token <> EmptyString /\
       exists resp body tokenResp,
         w h (PostForm TokenURL data) = Good resp /\
         StatusCode resp = 200 /\
         Body resp = Good body /\
         decodeTokenResponse body = Good tokenResp /\
         tr_Error tokenResp = EmptyString /\
         let now := w (h ++ [Sys (PostForm TokenURL data) (Good resp)]) ClockNow in
         tok = tokenOf tokenResp now /\
         snd r = [Sys (PostForm TokenURL data) (Good resp); Sys ClockNow now] /\
         ns (tok_Expiry (issued tok)) = ns now + wrap64 (tr_ExpiresIn tokenResp * Second) /\
         (- 2 ^ 63 <= tr_ExpiresIn tokenResp * Second < 2 ^ 63 ->
          ns (tok_Expiry (issued tok)) = ns now + tr_ExpiresIn tokenResp * Second) /\
         (2 ^ 63 <= tr_ExpiresIn tokenResp * Second < 2 ^ 64 ->
          ns (tok_Expiry (issued tok)) < ns now)).
Proof.
  intros w h token data r. subst r. unfold Auth.RefreshToken. fold data. split.
  - intros ->. reflexivity.
  - intros tok. destruct (String.eqb_spec (tok_RefreshToken token) EmptyString) as [E | N];
      [discriminate |].
    cbn [io_bind act exec].
    destruct (w h (PostForm TokenURL data)) as [resp | err] eqn:Hpost; [| discriminate].
    destruct (Z.eqb_spec (StatusCode resp) 200) as [Hs | Hs]; cbn [negb]; [| discriminate].
    destruct (Body resp) as [body | err] eqn:Hbody; [| discriminate].
    destruct (decodeTokenResponse body) as [tokenResp | err] eqn:Hdec; [| discriminate].
    destruct (String.eqb_spec (tr_Error tokenResp) EmptyString) as [He | He]; cbn [negb];
      [| discriminate].
    cbn [io_bind act exec fst snd]. intro Htok. injection Htok as <-.
    split; [exact N |]. exists resp, body, tokenResp.
    do 7 (split; [first [assumption | reflexivity] |]).
    unfold tokenOf. cbn [issued tok_Expiry Add ns]. split; [reflexivity |]. split.
    + intro Hr. now rewrite seconds_exact.
    + intro Hr. unfold seconds. rewrite (wrap64_above _ Hr). lia.
Qed.

Lemma pollLoop_ends (w : World) (data : list (string * string)) (timeout : Time)
    (interval : Duration) (rounds : nat) :
  forall h,
    let r := exec w (Auth.pollLoop rounds data timeout interval) h in
    (forall tok, fst r = Some (Good tok) ->
       tok_AccessToken (issued tok) <> EmptyString /\
       exists t0 resp body tokenResp now',
         snd r = t0 ++ [Sys (PostForm TokenURL data) (Good resp); Sys ClockNow now'] /\
         Body resp = Good body /\
         unmarshalTokenResponse body = Good tokenResp /\
         tr_Error tokenResp = EmptyString /\
         tok = tokenOf tokenResp now') /\
    (forall args, fst r = Some (Bad (Errorf "authentication failed: %s - %s" args)) ->
       exists t0 resp body tokenResp,
         snd r = t0 ++ [Sys (PostForm TokenURL data) (Good resp)] /\
         Body resp = Good body /\
         unmarshalTokenResponse body = Good tokenResp /\
         tr_Error tokenResp <> EmptyString /\
         tr_Error tokenResp <> "authorization_pending"%string) /\
    (fst r = Some (Bad (Errorf "authentication timeout" [])) ->
       exists t0 now, snd r = t0 ++ [Sys ClockNow now] /\ Before now timeout = false) /\
    (List.length (filter isPost (syscalls (snd r))) <= rounds)%nat.
Proof.
  induction rounds as [| rounds IH]; intro h; cbv zeta.
  - cbn. repeat split; try discriminate. lia.
  - cbn [Auth.pollLoop io_bind act exec].
    set (now := w h ClockNow). set (h1 := h ++ [Sys ClockNow now]).
    destruct (Before now timeout) eqn:Hbefore; cbn [negb].
    2:{ cbn. repeat split; try discriminate; try lia.
        intros _. exists [], now. split; [reflexivity | exact Hbefore]. }
    cbn [io_bind act exec].
    set (post := PostForm TokenURL data).
    destruct (w h1 post) as [resp | err] eqn:Hpost.
    2:{ cbn. repeat split; try discriminate; lia. }
    set (h2 := h1 ++ [Sys post (Good resp)]).
    destruct (Body resp) as [body | err] eqn:Hbody.
    2:{ cbn. repeat split; try discriminate; lia. }
    destruct (unmarshalTokenResponse body) as [tokenResp | err] eqn:Hdec.
    2:{ cbn. repeat split; try discriminate; lia. }
    destruct (String.eqb_spec (tr_Error tokenResp) EmptyString) as [He | He]; cbn [negb].
    + destruct (String.eqb_spec (tr_AccessToken tokenResp) EmptyString) as [Ha | Ha];
        cbn [negb].
      * (* neither an error nor a token: sleep and poll again *)
        cbn [io_bind act exec].
        specialize (IH (h2 ++ [Sys (Sleep interval) (w h2 (Sleep interval))])).
        cbv zeta in IH.
        destruct (exec w (Auth.pollLoop rounds data timeout interval) _) as [res t].
        cbn [fst snd] in *. destruct IH as (Htok & Hfail & Htime & Hcount).
        split; [| split; [| split]].
        -- intros tok Hr. destruct (Htok tok Hr) as (Hne & t0 & resp' & body' & tr' & now' & -> & Hrest).
           split; [exact Hne |].
           exists (Sys ClockNow now :: Sys post (Good resp)
                     :: Sys (Sleep interval) (w h2 (Sleep interval)) :: t0),
             resp', body', tr', now'. split; [reflexivity | exact Hrest].
        -- intros args Hr.
           destruct (Hfail args Hr) as (t0 & resp' & body' & tr' & -> & Hrest).
           exists (Sys ClockNow now :: Sys post (Good resp)
                     :: Sys (Sleep interval) (w h2 (Sleep interval)) :: t0),
             resp', body', tr'. split; [reflexivity | exact Hrest].
        -- intros Hr. destruct (Htime Hr) as (t0 & now' & -> & Hrest).
           exists (Sys ClockNow now :: Sys post (Good resp)
                     :: Sys (Sleep interval) (w h2 (Sleep interval)) :: t0), now'.
           split; [reflexivity | exact Hrest].
        -- unfold syscalls in *. cbn. lia.
      * (* a token *)
        cbn [io_bind act exec fst snd]. split; [| split; [| split]].
        -- intros tok Hr. injection Hr as <-. split; [exact Ha |].
           exists [Sys ClockNow now], resp, body, tokenResp, (w h2 ClockNow).
           repeat split; assumption.
        -- discriminate.
        -- discriminate.
        -- unfold syscalls in *. cbn. lia.
    + destruct (String.eqb_spec (tr_Error tokenResp) "authorization_pending") as [Hp | Hp].
      * (* pending: a dot, a sleep, and again *)
        cbn [io_bind act exec].
        set (h3 := h2 ++ [Sys (Print ".") (w h2 (Print "."))]).
        specialize (IH (h3 ++ [Sys (Sleep interval) (w h3 (Sleep interval))])).
        cbv zeta in IH.
        destruct (exec w (Auth.pollLoop rounds data timeout interval) _) as [res t].
        cbn [fst snd] in *. destruct IH as (Htok & Hfail & Htime & Hcount).
        split; [| split; [| split]].
        -- intros tok Hr. destruct (Htok tok Hr) as (Hne & t0 & resp' & body' & tr' & now' & -> & Hrest).
           split; [exact Hne |].
           exists (Sys ClockNow now :: Sys post (Good resp)
                     :: Sys (Print ".") (w h2 (Print "."))
                     :: Sys (Sleep interval) (w h3 (Sleep interval)) :: t0),
             resp', body', tr', now'. split; [reflexivity | exact Hrest].
        -- intros args Hr.
           destruct (Hfail args Hr) as (t0 & resp' & body' & tr' & -> & Hrest).
           exists (Sys ClockNow now :: Sys post (Good resp)
                     :: Sys (Print ".") (w h2 (Print "."))
                     :: Sys (Sleep interval) (w h3 (Sleep interval)) :: t0),
             resp', body', tr'. split; [reflexivity | exact Hrest].
        -- intros Hr. destruct (Htime Hr) as (t0 & now' & -> & Hrest).
           exists (Sys ClockNow now :: Sys post (Good resp)
                     :: Sys (Print ".") (w h2 (Print "."))
                     :: Sys (Sleep interval) (w h3 (Sleep interval)) :: t0), now'.
           split; [reflexivity | exact Hrest].
        -- unfold syscalls in *. cbn. lia.
      * (* refused *)
        cbn [exec fst snd]. split; [| split; [| split]].
        -- discriminate.
        -- intros args _. exists [Sys ClockNow now], resp, body, tokenResp.
           repeat split; assumption.
        -- discriminate.
        -- unfold syscalls in *. cbn. lia.
Qed.

(** X13. However [pollForToken] ends: a token it returns comes from the last
    response polled, whose [error] is empty, and never has an empty access
    token; "authentication failed" is returned right after the response that
    carried an error other than [authorization_pending], with no sleep and
    no request after it; "authentication timeout" is returned right after a
    clock reading that is not before the deadline (the first reading plus
    the lifetime of the device code).  It makes at most one request per
    round. *)
Theorem pollForToken_ends_on_token_refusal_or_timeout :
  forall (w : World) (h : list sysevent) (rounds : nat) (deviceCode : DeviceCodeResponse),
    let data := Auth.pollData deviceCode in
    let deadline := Add (w h ClockNow) (seconds (dc_ExpiresIn deviceCode)) in
    let r := exec w (Auth.pollForToken rounds deviceCode) h in
    (forall tok, fst r = Some (Good tok) ->
       tok_AccessToken (issued tok) <> EmptyString /\
       exists t0 resp body tokenResp now',
         snd r = t0 ++ [Sys (PostForm TokenURL data) (Good resp); Sys ClockNow now'] /\
         Body resp = Good body /\
         unmarshalTokenResponse body = Good tokenResp /\
         tr_Error tokenResp = EmptyString /\
         tok = tokenOf tokenResp now') /\
    (forall args, fst r = Some (Bad (Errorf "authentication failed: %s - %s" args)) ->
       exists t0 resp body tokenResp,
         snd r = t0 ++ [Sys (PostForm TokenURL data) (Good resp)] /\
         Body resp = Good body /\
         unmarshalTokenResponse body = Good tokenResp /\
         tr_Error tokenResp <> EmptyString /\
         tr_Error tokenResp <> "authorization_pending"%string) /\
    (fst r = Some (Bad (Errorf "authentication timeout" [])) ->
       exists t0 now, snd r = t0 ++ [Sys ClockNow now] /\ Before now deadline = false) /\
    (List.length (filter isPost (syscalls (snd r))) <= rounds)%nat.
Proof.
  intros w h rounds deviceCode data deadline r. subst r.
  unfold Auth.pollForToken. cbn [io_bind act exec]. fold data deadline.
  pose proof (pollLoop_ends w data deadline (seconds (dc_Interval deviceCode)) rounds
                (h ++ [Sys ClockNow (w h ClockNow)])) as H.
  cbv zeta in H.
  destruct (exec w (Auth.pollLoop rounds data deadline (seconds (dc_Interval deviceCode))) _)
    as [res t].
  cbn [fst snd] in *. destruct H as (Htok & Hfail & Htime & Hcount).
  split; [| split; [| split]].
  - intros tok Hr. destruct (Htok tok Hr) as (Hne & t0 & resp & body & tr & now' & -> & Hrest).
    split; [exact Hne |].
    exists (Sys ClockNow (w h ClockNow) :: t0), resp, body, tr, now'.
    split; [reflexivity | exact Hrest].
  - intros args Hr. destruct (Hfail args Hr) as (t0 & resp & body & tr & -> & Hrest).
    exists (Sys ClockNow (w h ClockNow) :: t0), resp, body, tr.
    split; [reflexivity | exact Hrest].
  - intros Hr. destruct (Htime Hr) as (t0 & now & -> & Hrest).
    exists (Sys ClockNow (w h ClockNow) :: t0), now. split; [reflexivity | exact Hrest].
  - cbn. exact Hcount.
Qed.

(** ** The configuration file *)

Context {L : ConfigLib}.

Lemma decrypt_framed (c : AppConfig) (nonce data : list byte) :
  opensWhatItSealed ->
  aesKey (encryptionKey c) = true ->
  List.length nonce = nonceSize ->
  ConfigFile.decrypt c (nonce ++ gcmSeal (encryptionKey c) nonce data) = Good data.
Proof.
  intros Hopen Hkey Hlen. unfold ConfigFile.decrypt. rewrite Hkey. cbn [negb].
  assert (Hlong : (List.length (nonce ++ gcmSeal (encryptionKey c) nonce data) <? nonceSize)%nat
                  = false) by (apply Nat.ltb_ge; rewrite length_app; lia).
  rewrite Hlong.
  rewrite firstn_app, skipn_app, Hlen, Nat.sub_diag.
  rewrite <- Hlen at 1. rewrite firstn_all.
  rewrite <- Hlen at 1. rewrite skipn_all.
  cbn [firstn skipn app]. rewrite app_nil_r, Hopen. reflexivity.
Qed.

Lemma exec_encrypt (w : World) (h : list sysevent) (c : AppConfig) (data ct : list byte)
    (t : list sysevent) :
  exec w (ConfigFile.encrypt c data) h = (Good ct, t) ->
  aesKey (encryptionKey c) = true /\
  exists nonce,
    w h (RandRead nonceSize) = Good nonce /\
    ct = nonce ++ gcmSeal (encryptionKey c) nonce data /\
    t = [Sys (RandRead nonceSize) (Good nonce)].
Proof.
  unfold ConfigFile.encrypt. destruct (aesKey (encryptionKey c)); cbn [negb];
    [| discriminate].
  cbn [io_bind act exec].
  destruct (w h (RandRead nonceSize)) as [nonce | err] eqn:Hr; cbn [exec]; [| discriminate].
  intro H. injection H as <- <-. split; [reflexivity |]. exists nonce. auto.
Qed.

(** X14. What [encrypt] returns is the 12-byte nonce followed by the sealed
    data, and [decrypt] gets the data back from it under the same key.
    Anything shorter than the nonce is turned down by [decrypt] as
    "ciphertext too short", and with a key that is not 16, 24 or 32 bytes
    long neither of the two gets as far as the random source or the
    cipher. *)
Theorem decrypt_recovers_what_encrypt_made :
  forall (w : World) (h : list sysevent) (c : AppConfig) (data : list byte),
    (forall ct t,
        opensWhatItSealed -> fillsBuffers w ->
        exec w (ConfigFile.encrypt c data) h = (Good ct, t) ->
        ConfigFile.decrypt c ct = Good data /\
        (nonceSize <= List.length ct)%nat /\
        w h (RandRead nonceSize) = Good (firstn nonceSize ct)) /\
    (forall short,
        aesKey (encryptionKey c) = true ->
        (List.length short < nonceSize)%nat ->
        ConfigFile.decrypt c short = Bad (Errorf "ciphertext too short" [])) /\
    (aesKey (encryptionKey c) = false ->
     exec w (ConfigFile.encrypt c data) h = (Bad (keySizeError (encryptionKey c)), []) /\
     forall any, ConfigFile.decrypt c any = Bad (keySizeError (encryptionKey c))).
Proof.
  intros w h c data. split; [| split].
  - intros ct t Hopen Hfill Henc.
    destruct (exec_encrypt w h c data ct t Henc) as (Hkey & nonce & Hr & -> & _).
    pose proof (Hfill h nonceSize nonce Hr) as Hlen.
    split; [now apply decrypt_framed |]. split.
    + rewrite length_app. lia.
    + rewrite Hr. f_equal. rewrite firstn_app, Hlen, Nat.sub_diag.
      rewrite <- Hlen at 1. rewrite firstn_all. cbn. now rewrite app_nil_r.
  - intros short Hkey Hshort. unfold ConfigFile.decrypt. rewrite Hkey. cbn [negb].
    apply Nat.ltb_lt in Hshort. now rewrite Hshort.
  - intros Hkey. unfold ConfigFile.encrypt, ConfigFile.decrypt. rewrite Hkey. now split.
Qed.

Lemma exec_Save_written (w : World) (h : list sysevent) (c : AppConfig) (t : list sysevent) :
  exec w (ConfigFile.Save c) h = (None, t) ->
  exists data nonce,
    marshal c = Good data /\
    aesKey (encryptionKey c) = true /\
    w h (RandRead nonceSize) = Good nonce /\
    syscalls t = [RandRead nonceSize;
                  MkdirAll (dir (configPath c)) 448;
                  WriteFile (configPath c)
                            (nonce ++ gcmSeal (encryptionKey c) nonce data) 384].
Proof.
  unfold ConfigFile.Save. destruct (marshal c) as [data | err]; [| discriminate].
  rewrite exec_bind.
  destruct (exec w (ConfigFile.encrypt c data) h) as [[ct | err] t1] eqn:Henc.
  2:{ cbn. discriminate. }
  destruct (exec_encrypt w h c data ct t1 Henc) as (Hkey & nonce & Hr & -> & ->).
  cbn [io_bind act exec].
  destruct (w _ (MkdirAll _ _)) as [err |]; [cbn; discriminate |].
  cbn [io_bind act exec].
  destruct (w _ (WriteFile _ _ _)) as [err |]; [cbn; discriminate |].
  cbn. intro H. injection H as <-. exists data, nonce. auto.
Qed.

(** X15. A [Save] that reports success has created the directory of the
    configuration path and written the file once, after that and under
    that path, with the nonce followed by the sealed JSON of the
    configuration; and [loadFromFile], given these bytes back for a
    configuration with the same path and key, unmarshals exactly that
    JSON. *)
Theorem loadFromFile_reads_what_Save_wrote :
  forall (w : World) (h : list sysevent) (c : AppConfig) (t : list sysevent),
    opensWhatItSealed -> fillsBuffers w ->
    exec w (ConfigFile.Save c) h = (None, t) ->
    exists data encrypted,
      marshal c = Good data /\
      syscalls t = [RandRead nonceSize;
                    MkdirAll (dir (configPath c)) 448;
                    WriteFile (configPath c) encrypted 384] /\
      forall (w' : World) (h' : list sysevent) (c0 : AppConfig),
        configPath c0 = configPath c ->
        encryptionKey c0 = encryptionKey c ->
        w' h' (ReadFile (configPath c)) = Good encrypted ->
        fst (exec w' (ConfigFile.loadFromFile c0) h') =
        match unmarshal data c0 with
        | Good c' => Good c'
        | Bad err => Bad (Wrapf "failed to unmarshal config: %w" [] err)
        end.
Proof.
  intros w h c t Hopen Hfill Hsave.
  destruct (exec_Save_written w h c t Hsave) as (data & nonce & Hm & Hkey & Hr & Ht).
  exists data, (nonce ++ gcmSeal (encryptionKey c) nonce data). split; [exact Hm |].
  split; [exact Ht |].
  intros w' h' c0 Hpath Hk Hread. unfold ConfigFile.loadFromFile.
  cbn [io_bind act exec]. rewrite Hpath, Hread.
  assert (Hdec : ConfigFile.decrypt c0 (nonce ++ gcmSeal (encryptionKey c) nonce data)
                 = Good data).
  { rewrite <- Hk. apply decrypt_framed; [exact Hopen | now rewrite Hk |].
    exact (Hfill h nonceSize nonce Hr). }
  rewrite Hdec. now destruct (unmarshal data c0).
Qed.

Lemma exec_Save_keyless (w : World) (h : list sysevent) (c : AppConfig) :
  aesKey (encryptionKey c) = false ->
  exists err, exec w (ConfigFile.Save c) h = (Some err, []).
Proof.
  intro Hkey. unfold ConfigFile.Save. destruct (marshal c) as [data | err]; [| now eexists].
  unfold ConfigFile.encrypt. rewrite Hkey. cbn. now eexists.
Qed.

(** X16. The [reset] command never writes the configuration file: the
    configuration it saves is the zero value, whose encryption key is empty,
    so its [Save] stops before the random source, the directory and the
    file.  Either the user declines and the configuration stays, or it is
    zeroed in memory only, the command reporting a failed save. *)
Theorem reset_never_writes_the_file :
  forall (S : Strings) (w : World) (h : list sysevent) (cfg : AppConfig),
    let '((cfg', saved), t) := exec w (resetCommand cfg) h in
    saved = false /\
    (cfg' = cfg \/ cfg' = zeroConfig) /\
    syscalls t =
      [Print "Are you sure you want to reset the configuration? (y/N): "; ReadLine].
Proof.
  intros S w h cfg. unfold resetCommand, confirmReset.
  cbn [io_bind act exec].
  set (h2 := (h ++ _) ++ _).
  destruct (String.eqb _ "y" || String.eqb _ "yes")%bool.
  - rewrite exec_bind.
    destruct (exec_Save_keyless w h2 zeroConfig eq_refl) as [err ->].
    cbn. repeat split. now right.
  - cbn. repeat split. now left.
Qed.

(** X17. When [Load] succeeds without reading a file (the configuration
    file is not there), it returns the defaults: no token, no monitored path,
    no bot, an interval of 60 minutes, monitoring enabled, hence a
    configuration that is not "configured"; its key has a size the cipher
    accepts, so a later [Save] cannot fail on the key. *)
Theorem Load_without_file_gives_defaults :
  forall (w : World) (h : list sysevent) (cfg : AppConfig),
    let r := exec w ConfigFile.Load h in
    fst r = Good cfg ->
    filter isReadFile (syscalls (snd r)) = [] ->
    core cfg = mkConfig EmptyString EmptyString 0 [] 60 true /\
    BotToken cfg = EmptyString /\
    ChatID cfg = 0 /\
    IsConfigured cfg = false /\
    aesKey (encryptionKey cfg) = true.
Proof.
  intros w h cfg r. subst r.
  assert (Hkey : forall k, aesKey (pbkdf2Key k "restic-backup-checker-salt") = true).
  { intro k. unfold aesKey. now rewrite pbkdf2Key_length. }
  unfold ConfigFile.Load, ConfigFile.getConfigPath, ConfigFile.generateEncryptionKey,
    ConfigFile.loadFromFile.
  cbn [io_bind act exec].
  destruct (w h HomeDir) as [home | err]; cbn [io_bind act exec]; [| discriminate].
  destruct (String.eqb _ EmptyString); cbn [io_bind act exec];
    (destruct (w _ (Stat _)) as [e |];
     [ cbn; intros H _; injection H as <-; cbn; repeat split; apply Hkey
     | cbn [io_bind act exec];
       match goal with
       | |- context [exec w ?p ?hh] => destruct (exec w p hh) as [r' t']
       end;
       cbn; intros _ Hno; discriminate Hno ]).
Qed.

(** ** The commands *)

Lemma substring_split (s : string) :
  forall n m k, substring n (m + k) s = (substring n m s ++ substring (n + m) k s)%string.
Proof.
  induction s as [| c s IH]; intros [| n] [| m] k; cbn;
    try reflexivity; try (now destruct k).
  - now rewrite (IH 0%nat).
  - apply (IH n 0%nat).
  - apply (IH n (S m)).
Qed.

Lemma substring_whole (s : string) : substring 0 (String.length s) s = s.
Proof. induction s as [| c s IH]; cbn; [reflexivity | now rewrite IH]. Qed.

Lemma substring_length (s : string) :
  forall n m, (n + m <= String.length s)%nat -> String.length (substring n m s) = m.
Proof.
  induction s as [| c s IH]; intros [| n] [| m] H; cbn in *; try reflexivity; try lia.
  - now rewrite (IH 0%nat) by lia.
  - apply IH. lia.
  - apply IH. lia.
Qed.

Lemma string_length_append (a b : string) :
  String.length (a ++ b) = (String.length a + String.length b)%nat.
Proof. induction a as [| c a IH]; cbn; [reflexivity | now rewrite IH]. Qed.

Lemma substring_prefix (a b : string) : substring 0 (String.length a) (a ++ b) = a.
Proof.
  induction a as [| c a IH]; cbn; [now destruct b | now rewrite IH].
Qed.

Lemma substring_skip (a b : string) (m : nat) :
  substring (String.length a) m (a ++ b) = substring 0 m b.
Proof. induction a as [| c a IH]; cbn; [reflexivity | exact IH]. Qed.

(** X18. [maskToken] shows nothing of a token of 8 bytes or less.  Of a
    longer one it shows the first four and the last four bytes around four
    stars, in 12 bytes whatever the length: the token is the shown head,
    then a hidden middle of its length minus 8 (at least one byte), then the
    shown tail. *)
Theorem maskToken_hides_the_middle :
  forall token : string,
    ((String.length token <= 8)%nat -> maskToken token = "****"%string) /\
    ((8 < String.length token)%nat ->
     let shown := maskToken token in
     let head := substring 0 4 shown in
     let tail := substring 8 4 shown in
     String.length shown = 12%nat /\
     substring 4 4 shown = "****"%string /\
     exists middle,
       token = (head ++ middle ++ tail)%string /\
       String.length head = 4%nat /\
       String.length tail = 4%nat /\
       String.length middle = (String.length token - 8)%nat /\
       (1 <= String.length middle)%nat).
Proof.
  intro token. unfold maskToken. split; intro Hlen.
  - apply Nat.leb_le in Hlen. now rewrite Hlen.
  - assert (Hgt : (String.length token <=? 8)%nat = false) by (apply Nat.leb_gt; lia).
    rewrite Hgt. cbv zeta.
    set (n := String.length token) in *.
    set (A := substring 0 4 token). set (B := substring (n - 4) 4 token).
    assert (HA : String.length A = 4%nat) by (apply substring_length; lia).
    assert (HB : String.length B = 4%nat) by (apply substring_length; lia).
    assert (Hhead : substring 0 4 (A ++ "****" ++ B) = A).
    { rewrite <- HA at 1. apply substring_prefix. }
    assert (Hstars : substring 4 4 (A ++ "****" ++ B) = "****"%string).
    { rewrite <- HA at 1. rewrite substring_skip.
      change 4%nat with (String.length "****") at 1. apply substring_prefix. }
    assert (Htail : substring 8 4 (A ++ "****" ++ B) = B).
    { change 8%nat with (4 + 4)%nat. rewrite <- HA at 1.
      replace (String.length A + 4)%nat with (String.length (A ++ "****"))
        by (rewrite string_length_append; reflexivity).
      replace (A ++ "****" ++ B)%string with ((A ++ "****") ++ B)%string.
      2:{ clear. induction A as [| c A IH]; cbn; [reflexivity | now rewrite IH]. }
      rewrite substring_skip. rewrite <- HB at 1. apply substring_whole. }
    rewrite Hhead, Hstars, Htail.
    split; [rewrite !string_length_append, HA, HB; reflexivity |].
    split; [reflexivity |].
    exists (substring 4 (n - 8) token).
    assert (Hmid : String.length (substring 4 (n - 8) token) = (n - 8)%nat)
      by (apply substring_length; lia).
    repeat split; try assumption; try lia.
    rewrite <- (substring_whole token) at 1. fold n.
    replace n with (4 + ((n - 8) + 4))%nat at 1 by lia.
    rewrite substring_split, substring_split. change (0 + 4)%nat with 4%nat.
    replace (4 + (n - 8))%nat with (n - 4)%nat by lia. reflexivity.
Qed.

Context {S : Strings}.

Lemma nth_error_in_range (folders : list Folder) (i : Z) :
  0 < i -> i <= len folders ->
  exists folder, nth_error folders (Z.to_nat (i - 1)) = Some folder /\ In folder folders.
Proof.
  intros Hpos Hle. unfold len in Hle.
  destruct (nth_error folders (Z.to_nat (i - 1))) as [folder |] eqn:Hn.
  - exists folder. split; [reflexivity |]. now apply nth_error_In in Hn.
  - apply nth_error_None in Hn. lia.
Qed.

(** X19. The folder selection of [setupOneDrive] never indexes outside the
    listing: whatever the entries are, the loop ends normally, keeps the
    paths that were there, and appends, entry by entry and in order, what
    each entry stands for: the ID of the folder numbered by an entry that is
    a number from 1 to the number of folders (appended also when the paths
    hold it already), and nothing for an entry that is no number or a number
    outside that range.  So it appends only IDs of listed folders, at most
    one per entry.  An empty answer changes nothing. *)
Theorem folder_selection_stays_in_the_listing :
  forall (folders : list Folder) (indices : list string) (monitorPaths : list string)
         (line : string),
    (exists chosen,
        selectFolders folders indices monitorPaths = Fine (monitorPaths ++ chosen) /\
        incl chosen (map folder_ID folders) /\
        (List.length chosen <= List.length indices)%nat) /\
    (exists chosen,
        chooseFolders folders line monitorPaths = Fine (monitorPaths ++ chosen) /\
        incl chosen (map folder_ID folders)) /\
    (TrimSpace line = EmptyString -> chooseFolders folders line monitorPaths = Fine monitorPaths) /\
    selectFolders folders indices monitorPaths
    = Fine (monitorPaths ++ flat_map (picked folders) indices) /\
    (TrimSpace line <> EmptyString ->
     chooseFolders folders line monitorPaths
     = Fine (monitorPaths ++ flat_map (picked folders) (Split (TrimSpace line) ","))) /\
    (forall idx i,
        Atoi (TrimSpace idx) = Some i -> 1 <= i <= len folders ->
        exists folder,
          nth_error folders (Z.to_nat (i - 1)) = Some folder /\
          picked folders idx = [folder_ID folder] /\
          selectFolders folders [idx] (monitorPaths ++ [folder_ID folder])
          = Fine ((monitorPaths ++ [folder_ID folder]) ++ [folder_ID folder])) /\
    (forall idx,
        Atoi (TrimSpace idx) = None \/
        (exists i, Atoi (TrimSpace idx) = Some i /\ (i < 1 \/ len folders < i)) ->
        picked folders idx = [] /\
        selectFolders folders [idx] monitorPaths = Fine monitorPaths).
Proof.
  intros folders indices monitorPaths line.
  assert (Hflat : forall indices monitorPaths,
             selectFolders folders indices monitorPaths
             = Fine (monitorPaths ++ flat_map (picked folders) indices)).
  { clear. induction indices as [| idx rest IH]; intro monitorPaths.
    - cbn. now rewrite app_nil_r.
    - cbn [selectFolders flat_map]. unfold picked at 1.
      destruct (Atoi (TrimSpace idx)) as [i |]; [| apply IH].
      destruct (Z.ltb_spec 0 i) as [Hpos | Hneg]; cbn [andb]; [| apply IH].
      destruct (Z.leb_spec i (len folders)) as [Hle | Hgt]; [| apply IH].
      destruct (nth_error_in_range folders i Hpos Hle) as (folder & -> & _).
      rewrite IH, <- app_assoc. reflexivity. }
  assert (Hvalid : forall idx i,
             Atoi (TrimSpace idx) = Some i -> 1 <= i <= len folders ->
             exists folder,
               nth_error folders (Z.to_nat (i - 1)) = Some folder /\
               picked folders idx = [folder_ID folder]).
  { clear. intros idx i Hi [Hlo Hhi].
    destruct (nth_error_in_range folders i ltac:(lia) Hhi) as (folder & Hn & _).
    exists folder. split; [exact Hn |]. unfold picked. rewrite Hi.
    destruct (Z.ltb_spec 0 i); [| lia]. destruct (Z.leb_spec i (len folders)); [| lia].
    cbn [andb]. now rewrite Hn. }
  assert (Hdropped : forall idx,
             Atoi (TrimSpace idx) = None \/
             (exists i, Atoi (TrimSpace idx) = Some i /\ (i < 1 \/ len folders < i)) ->
             picked folders idx = []).
  { clear. intros idx [Hnone | (i & Hi & Hout)]; unfold picked.
    - now rewrite Hnone.
    - rewrite Hi. destruct (Z.ltb_spec 0 i); cbn [andb]; [| reflexivity].
      destruct (Z.leb_spec i (len folders)); [lia | reflexivity]. }
  assert (Hsel : forall indices monitorPaths,
             exists chosen,
               selectFolders folders indices monitorPaths = Fine (monitorPaths ++ chosen) /\
               incl chosen (map folder_ID folders) /\
               (List.length chosen <= List.length indices)%nat).
  { clear. induction indices as [| idx rest IH]; intro monitorPaths.
    - exists []. cbn. rewrite app_nil_r. repeat split; [apply incl_nil_l | lia].
    - cbn [selectFolders].
      destruct (Atoi (TrimSpace idx)) as [i |].
      + destruct (Z.ltb_spec 0 i) as [Hpos | Hneg]; cbn [andb].
        * destruct (Z.leb_spec i (len folders)) as [Hle | Hgt].
          -- destruct (nth_error_in_range folders i Hpos Hle) as (folder & -> & Hin).
             destruct (IH (monitorPaths ++ [folder_ID folder])) as (chosen & -> & Hincl & Hlen).
             exists (folder_ID folder :: chosen). rewrite <- app_assoc.
             repeat split; [| cbn; lia].
             intros x [<- | Hx]; [now apply in_map | now apply Hincl].
          -- destruct (IH monitorPaths) as (chosen & -> & Hincl & Hlen).
             exists chosen. repeat split; [exact Hincl | cbn; lia].
        * destruct (IH monitorPaths) as (chosen & -> & Hincl & Hlen).
          exists chosen. repeat split; [exact Hincl | cbn; lia].
      + destruct (IH monitorPaths) as (chosen & -> & Hincl & Hlen).
        exists chosen. repeat split; [exact Hincl | cbn; lia]. }
  split; [apply Hsel |]. split.
  - unfold chooseFolders. destruct (String.eqb (TrimSpace line) EmptyString); cbn [negb].
    + exists []. rewrite app_nil_r. split; [reflexivity | apply incl_nil_l].
    + destruct (Hsel (Split (TrimSpace line) ",") monitorPaths) as (chosen & -> & Hincl & _).
      exists chosen. now split.
  - split; [| split; [apply Hflat | split; [| split]]].
    + intros Hempty. unfold chooseFolders. rewrite Hempty. reflexivity.
    + intro Hne. unfold chooseFolders.
      destruct (String.eqb_spec (TrimSpace line) EmptyString) as [E | _]; [contradiction |].
      apply Hflat.
    + intros idx i Hi Hrange. destruct (Hvalid idx i Hi Hrange) as (folder & Hn & Hp).
      exists folder. split; [exact Hn |]. split; [exact Hp |].
      rewrite Hflat. cbn [flat_map]. now rewrite Hp.
    + intros idx Hout. pose proof (Hdropped idx Hout) as Hp. split; [exact Hp |].
      rewrite Hflat. cbn [flat_map]. rewrite Hp. cbn [app]. now rewrite app_nil_r.
Qed.

(** X20. [setupMonitoring] always ends with monitoring enabled and changes
    nothing else but, possibly, the interval: the interval becomes the
    number typed when the answer is not empty and is a number above zero,
    and stays what it was for an empty answer, for an answer that is no
    number, and for zero or a negative number.  So it stays positive when it
    was, and an empty answer on an interval of 0 leaves it 0 (not the 60 the
    prompt names). *)
Theorem setupMonitoring_keeps_or_sets_a_positive_interval :
  forall (w : World) (h : list sysevent) (cfg : AppConfig),
    let cfg' := fst (exec w (setupMonitoring cfg) h) in
    let typed := TrimSpace (w ((h ++ [Sys (Print (nl ++ "=== Monitoring Setup ===" ++ nl)) tt])
                               ++ [Sys (Print "Enter check interval in minutes (default: 60): ")
                                       tt]) ReadLine) in
    Enabled (core cfg') = true /\
    withCore cfg' (withEnabled (withInterval (core cfg') (CheckInterval (core cfg)))
                               (Enabled (core cfg))) = cfg /\
    (CheckInterval (core cfg') = CheckInterval (core cfg) \/
     0 < CheckInterval (core cfg') /\ Atoi typed = Some (CheckInterval (core cfg'))) /\
    (0 < CheckInterval (core cfg) -> 0 < CheckInterval (core cfg')) /\
    (typed = EmptyString -> CheckInterval (core cfg') = CheckInterval (core cfg)) /\
    (typed <> EmptyString ->
     forall n, Atoi typed = Some n -> 0 < n -> CheckInterval (core cfg') = n) /\
    (typed = EmptyString \/ Atoi typed = None \/
     (exists n, Atoi typed = Some n /\ n <= 0) ->
     CheckInterval (core cfg') = CheckInterval (core cfg)).
Proof.
  intros w h cfg cfg' typed. subst cfg'. unfold setupMonitoring.
  cbn [io_bind act exec fst].
  assert (Hu1 : w h (Print (nl ++ "=== Monitoring Setup ===" ++ nl)) = tt)
    by now destruct (w h _).
  rewrite Hu1.
  match goal with
  | |- context [w ?hh (Print "Enter check interval in minutes (default: 60): ")] =>
      assert (Hu2 : w hh (Print "Enter check interval in minutes (default: 60): ") = tt)
        by now destruct (w hh _)
  end.
  rewrite Hu2. fold typed.
  destruct cfg as [[at_ rt te mp ci en] bt ch cp key]. cbn [core CheckInterval Enabled].
  assert (Hgoal : forall c',
             (c' = ci \/ 0 < c' /\ Atoi typed = Some c') ->
             (typed = EmptyString -> c' = ci) ->
             (typed <> EmptyString -> forall n, Atoi typed = Some n -> 0 < n -> c' = n) ->
             (typed = EmptyString \/ Atoi typed = None \/
              (exists n, Atoi typed = Some n /\ n <= 0) -> c' = ci) ->
             let cfg' := withCore (mkApp (mkConfig at_ rt te mp ci en) bt ch cp key)
                                  (withEnabled (mkConfig at_ rt te mp c' en) true) in
             Enabled (core cfg') = true /\
             withCore cfg' (withEnabled (withInterval (core cfg') ci) en)
             = mkApp (mkConfig at_ rt te mp ci en) bt ch cp key /\
             (CheckInterval (core cfg') = ci \/
              0 < CheckInterval (core cfg') /\ Atoi typed = Some (CheckInterval (core cfg'))) /\
             (0 < ci -> 0 < CheckInterval (core cfg')) /\
             (typed = EmptyString -> CheckInterval (core cfg') = ci) /\
             (typed <> EmptyString ->
              forall n, Atoi typed = Some n -> 0 < n -> CheckInterval (core cfg') = n) /\
             (typed = EmptyString \/ Atoi typed = None \/
              (exists n, Atoi typed = Some n /\ n <= 0) ->
              CheckInterval (core cfg') = ci)).
  { intros c' Hc Hempty Hset Hkept. cbn. repeat split; try assumption.
    intro Hci. destruct Hc as [-> | [Hpos _]]; assumption. }
  destruct (String.eqb_spec typed EmptyString) as [He | He]; cbn [negb].
  - apply (Hgoal ci); [now left | reflexivity | intro; contradiction | reflexivity].
  - destruct (Atoi typed) as [interval |] eqn:Hatoi.
    + destruct (Z.ltb_spec 0 interval) as [Hpos | Hneg].
      * apply (Hgoal interval); [right; now split | intro; contradiction | |].
        -- intros _ n Hn _. congruence.
        -- intros [Hempty | [Hnone | (n & Hn & Hle)]];
             [contradiction | discriminate | injection Hn as <-; lia].
      * apply (Hgoal ci); [now left | reflexivity | | reflexivity].
        intros _ n Hn Hpos. injection Hn as <-. lia.
    + apply (Hgoal ci); [now left | reflexivity | | reflexivity].
      intros _ n Hn. discriminate Hn.
Qed.

(** X21. [logoutFromOneDrive] clears the two tokens, the expiry and the
    monitored paths in memory whether or not the save goes through, and
    leaves the rest alone.  What it leaves is not "configured", and a cycle
    run on it stops at once with "no token expiry set", without a single
    call. *)
Theorem logout_leaves_nothing_to_check :
  forall (w : World) (h : list sysevent) (cfg : AppConfig)
         (Format : Time -> string -> string) (o : Oracle) (hist : list event)
         (tg : option TelegramClient),
    let cfg' := snd (fst (exec w (logoutFromOneDrive cfg) h)) in
    core cfg' = mkConfig EmptyString EmptyString 0 []
                         (CheckInterval (core cfg)) (Enabled (core cfg)) /\
    withCore cfg' (core cfg) = cfg /\
    IsConfigured cfg' = false /\
    run o (CheckOnce Format (mkMonitor (core cfg') tg)) hist =
      ((Some (ErrCheckRefresh ErrNoTokenExpiry), mkMonitor (core cfg') tg), []).
Proof.
  intros w h cfg Format o hist tg cfg'.
  assert (Hcfg : cfg' = withCore cfg (mkConfig EmptyString EmptyString 0 []
                                               (CheckInterval (core cfg))
                                               (Enabled (core cfg)))).
  { subst cfg'. unfold logoutFromOneDrive. rewrite exec_bind.
    destruct (exec w (ConfigFile.Save _) h) as [[err |] t]; reflexivity. }
  rewrite Hcfg. destruct cfg as [c bt ch cp key]. cbn. repeat split.
Qed.

(** ** The summary message *)

Lemma string_append_assoc (a b c : string) : ((a ++ b) ++ c = a ++ b ++ c)%string.
Proof. induction a as [| x a IH]; cbn; [reflexivity | now rewrite IH]. Qed.

Lemma string_append_nil_r (a : string) : (a ++ EmptyString)%string = a.
Proof. induction a as [| x a IH]; cbn; [reflexivity | now rewrite IH]. Qed.

Lemma addFailedClients_bullets (failedClients : list string) :
  forall message,
    addFailedClients failedClients message =
    (message ++ String.concat EmptyString (map bullet failedClients))%string.
Proof.
  induction failedClients as [| client rest IH]; intro message; cbn [addFailedClients map].
  - cbn. now rewrite string_append_nil_r.
  - rewrite IH. fold (bullet client). rewrite string_append_assoc. f_equal.
    destruct rest as [| r rest']; cbn [map String.concat].
    + cbn. now rewrite string_append_nil_r.
    + reflexivity.
Qed.

Lemma existsb_failed (sts : list BackupStatus) :
  existsb failed sts = negb (forallb succeeded sts).
Proof.
  induction sts as [| s rest IH]; cbn; [reflexivity |].
  unfold failed at 1. rewrite IH. now destruct (succeeded s).
Qed.

(** X22. The summary message built from the aggregate of a cycle is
    consistent with its statuses: it says "All Good" and lists nobody
    exactly when every status succeeded; otherwise it says "Issues Found"
    and lists, one bullet line each and in order, the clients of the
    statuses that failed. *)
Theorem summary_message_matches_the_statuses :
  forall (o : Oracle) (hist : list event) (client : Client) (paths : list string),
    let st := fst (run o (checkPaths client paths emptyCycle) hist) in
    let allGood := forallb succeeded (statuses st) in
    summaryHead (len (statuses st)) (successCount st) (failedCount st) =
      ("📊 *Daily Backup Report*" ++ nl ++ nl ++
       "*Status:* " ++ (if allGood then "✅ All Good" else "🚨 Issues Found") ++ nl ++
       "*Total Clients:* " ++ itoa (len (statuses st)) ++ nl ++
       "*Successful:* " ++ itoa (successCount st) ++ nl ++
       "*Failed:* " ++ itoa (failedCount st) ++ nl)%string /\
    summaryText (len (statuses st)) (successCount st) (failedCount st) (failedClients st) =
      (summaryHead (len (statuses st)) (successCount st) (failedCount st) ++
       (if allGood then EmptyString
        else nl ++ "*Failed Clients:*" ++ nl ++
             String.concat EmptyString
               (map bullet (map ClientName (filter failed (statuses st))))))%string.
Proof.
  intros o hist client paths st allGood.
  destruct (checkPaths_countsAgree o hist client paths emptyCycle emptyCycle_countsAgree)
    as (Hs & Hf & Hn).
  fold st in Hs, Hf, Hn.
  assert (Hflag : (0 <? len (filter failed (statuses st))) = negb allGood).
  { rewrite len_pos_existsb. apply existsb_failed. }
  split.
  - unfold summaryHead. rewrite Hf, Hflag. now destruct allGood.
  - unfold summaryText. rewrite Hn at 1.
    assert (Hlen : len (map ClientName (filter failed (statuses st)))
                   = len (filter failed (statuses st)))
      by (unfold len; now rewrite length_map).
    rewrite Hlen, Hflag. destruct allGood; cbn [negb].
    + now rewrite string_append_nil_r.
    + rewrite addFailedClients_bullets, Hn.
      rewrite !string_append_assoc. reflexivity.
Qed.

End WireProperties.

(** * The further properties on the sample worlds *)

Section OnTheSampleLayers.

Import Wire WireSample.
Local Open Scope string_scope.

(** [root] listed twice and [broken] in between: the three clients of
    [root], twice. *)
Lemma one_status_per_discovered_client_witness :
  map subject
      (statuses (fst (run Sample.world
                          (checkPaths Sample.client ["root"; "broken"; "root"] emptyCycle) [])))
  = [("Alpha", "alpha"); ("Beta", "beta"); ("Gamma", "gamma");
     ("Alpha", "alpha"); ("Beta", "beta"); ("Gamma", "gamma")].
Proof.
  rewrite (one_status_per_discovered_client Sample.world Sample.subfoldersOf Sample.client
             ["root"; "broken"; "root"] []).
  - vm_compute. reflexivity.
  - intros h' folderID. reflexivity.
Defined.

(** The expiry 5 minutes ahead: the token is refreshed, the new one runs
    for an hour, and the next check reads the clock only. *)
Lemma refreshed_token_is_kept_until_margin_witness :
  let cfg' := snd (fst (run Sample.world (refreshTokenIfNeeded Sample.cfg5) [])) in
  AccessToken cfg' = "access-2" /\
  run Sample.world (refreshTokenIfNeeded cfg') [] = ((None, cfg'), [Ev Now Sample.now]).
Proof.
  destruct (refreshed_token_is_kept_until_margin Sample.world [] Sample.cfg5
              (mkToken "access-2" "refresh-2" (Add Sample.now Hour)))
    as (Ha & _ & _ & _ & Hnext).
  - vm_compute. discriminate.
  - vm_compute. discriminate.
  - reflexivity.
  - split; [exact Ha |].
    destruct Hnext as [_ Hnext]; [split; vm_compute; [discriminate | reflexivity] |].
    apply (Hnext Sample.world []).
    + vm_compute. discriminate.
    + vm_compute. discriminate.
Defined.

(** The client [Alpha], listed the same twice: fresh, and its last backup
    is of today. *)
Lemma fresh_client_last_backup_is_recent_witness :
  let s := fst (run Sample.world (checkClientBackup Sample.client "alpha" "Alpha") []) in
  HasBackup s = true /\ utcDay (LastBackup s) = utcDay Sample.now.
Proof.
  set (r0 := run Sample.world (GetAllSnapshots Sample.client "alpha") []).
  set (r2 := run Sample.world (GetAllSnapshots Sample.client "alpha")
                 ([] ++ snd r0 ++ [Ev Now Sample.now])%list).
  destruct (fresh_client_last_backup_is_recent Sample.world [] Sample.client "alpha" "Alpha"
              [Sample.staleFile; Sample.freshFile] (snd r0) (snd r2))
    as (_ & Htoday & _).
  - subst r0. vm_compute. reflexivity.
  - subst r0 r2. vm_compute. reflexivity.
  - cbv zeta. split; [vm_compute; reflexivity |].
    apply Htoday.
    + vm_compute. reflexivity.
    + vm_compute. discriminate.
    + intros file [<- | [<- | []]]; vm_compute; discriminate.
Defined.

(** The listing of [root]: of its five items the two folders are kept.  The
    listing of [odd], whose folder has no name, panics; [broken] answers
    with status 503. *)
Lemma folder_listing_keeps_folder_items_witness :
  fst (exec world (@OneDrive.GetSubfolders sampleJson Sample.client "root") []) = Fine folders /\
  (exists what,
      fst (exec world (@OneDrive.GetSubfolders sampleJson Sample.client "odd") [])
      = Panicked what) /\
  fst (exec world (@OneDrive.GetSubfolders sampleJson Sample.client "broken") [])
  = Failed (Errorf "API request failed with status %d" ["503"]).
Proof.
  split; [| split].
  - destruct (@folder_listing_keeps_folder_items sampleJson world [] Sample.client "root"
                (mkResponse 200 (Good "listing"))) as [Hsub _].
    destruct (Hsub eq_refl eq_refl) as [_ Hok].
    specialize (Hok eq_refl). exact Hok.
  - destruct (@folder_listing_keeps_folder_items sampleJson world [] Sample.client "odd"
                (mkResponse 200 (Good "nameless"))) as [Hsub _].
    destruct (Hsub eq_refl eq_refl) as [_ Hok].
    specialize (Hok eq_refl). exact Hok.
  - destruct (@folder_listing_keeps_folder_items sampleJson world [] Sample.client "broken"
                (mkResponse 503 (Good "listing"))) as [Hsub _].
    destruct (Hsub eq_refl eq_refl) as [Hfail _].
    apply Hfail. vm_compute. discriminate.
Defined.

(** The files of [snaps]: the dated one and the one whose creation time
    does not parse, which gets the zero time; the folder is left out. *)
Lemma file_listing_keeps_file_items_witness :
  exists dated undatedFile,
    fst (exec world (@OneDrive.GetFolderContents sampleJson Sample.client "snaps") [])
    = Fine [dated; undatedFile] /\
    CreatedTime dated = CreatedTime Sample.freshFile /\
    CreatedTime undatedFile = zeroTime.
Proof.
  destruct (@file_listing_keeps_file_items sampleJson world [] Sample.client "snaps"
              (mkResponse 200 (Good "files"))
              [JObj [("id", JStr "f1"); ("name", JStr "snap-new"); ("file", JNull);
                     ("createdDateTime", JStr "2024-04-25T00:00:30Z")];
               JObj [("id", JStr "f2"); ("name", JStr "snap-undated"); ("file", JObj []);
                     ("createdDateTime", JStr "yesterday")];
               folderItem "sub" "Sub"])
    as [Hnamed _].
  - reflexivity.
  - reflexivity.
  - vm_compute. reflexivity.
  - reflexivity.
  - destruct (Hnamed eq_refl) as [Hfiles _].
    eexists. eexists. split; [exact Hfiles |]. split; reflexivity.
Defined.

(** The files of [old], none with a readable creation time: two files,
    none fresh, last backup "Unknown". *)
Lemma undated_files_are_never_fresh_witness :
  exists files,
    @collectFiles sampleJson
       [JObj [("id", JStr "f2"); ("name", JStr "snap-undated"); ("file", JObj []);
              ("createdDateTime", JStr "yesterday")];
        JObj [("id", JStr "f3"); ("name", JStr "snap-bare"); ("file", JObj [])]] []
    = Fine files /\
    List.length files = 2%nat /\
    collectToday (Truncate (24 * Hour) (UTC Sample.now)) files [] = [].
Proof.
  destruct (@undated_files_are_never_fresh sampleJson
              [JObj [("id", JStr "f2"); ("name", JStr "snap-undated"); ("file", JObj []);
                     ("createdDateTime", JStr "yesterday")];
               JObj [("id", JStr "f3"); ("name", JStr "snap-bare"); ("file", JObj [])]]
              Sample.format "Old" "old" Sample.now)
    as (files & Hfiles & Hlen & Hfresh & _).
  - reflexivity.
  - intros i [<- | [<- | []]] _; reflexivity.
  - vm_compute. discriminate.
  - exists files. repeat split; assumption.
Defined.

(** A refresh answered with status 200 and neither error nor tokens: the
    token that comes back has an empty access token and runs for an hour. *)
Lemma RefreshToken_returns_the_response_token_witness :
  let r := exec world (@Auth.RefreshToken sampleAuth (mkToken "access-1" "refresh-1" zeroTime))
                [] in
  exists tok,
    fst r = Good tok /\
    tok_AccessToken (issued tok) = EmptyString /\
    ns (tok_Expiry (issued tok)) = ns Sample.now + 3600 * Second.
Proof.
  cbv zeta.
  pose proof (@RefreshToken_returns_the_response_token sampleAuth world []
                (mkToken "access-1" "refresh-1" zeroTime)) as H.
  cbv zeta in H. destruct H as [_ Honly].
  exists (tokenOf grantedBlank Sample.now).
  destruct (Honly (tokenOf grantedBlank Sample.now) eq_refl)
    as (_ & resp & body & tokenResp & Hpost & _ & Hbody & Hdec & _ & _ & _ & _ & Hexp & _).
  vm_compute in Hpost. injection Hpost as <-.
  cbn in Hbody. injection Hbody as <-.
  vm_compute in Hdec. injection Hdec as <-.
  split; [reflexivity |]. split; [reflexivity |].
  apply Hexp. vm_compute. split; [discriminate | reflexivity].
Defined.

(** Polling a device code: pending once, a sleep of five seconds, then the
    token, whose access token is not empty. *)
Lemma pollForToken_ends_on_token_refusal_or_timeout_witness :
  let r := exec world (@Auth.pollForToken sampleAuth 5 device) [] in
  exists tok,
    fst r = Some (Good tok) /\
    tok_AccessToken (issued tok) <> EmptyString /\
    (List.length (filter isPost (syscalls (snd r))) <= 5)%nat.
Proof.
  cbv zeta.
  pose proof (@pollForToken_ends_on_token_refusal_or_timeout sampleAuth world [] 5 device)
    as H.
  cbv zeta in H. destruct H as (Htok & _ & _ & Hcount).
  exists (tokenOf granted Sample.now).
  assert (Hr : fst (exec world (@Auth.pollForToken sampleAuth 5 device) [])
               = Some (Good (tokenOf granted Sample.now))) by (vm_compute; reflexivity).
  split; [exact Hr |]. split; [apply (Htok _ Hr) | exact Hcount].
Defined.

Lemma sample_opens : @opensWhatItSealed sampleLib.
Proof. intros key nonce plaintext. reflexivity. Defined.

Lemma sample_fills : fillsBuffers world.
Proof. intros h n bytes H. injection H as <-. apply repeat_length. Defined.

(** Sealing the bytes of [abc] under a 32-byte key and opening the result. *)
Lemma decrypt_recovers_what_encrypt_made_witness :
  exists ct,
    fst (exec world (@ConfigFile.encrypt sampleLib saved [x61; x62; x63]) []) = Good ct /\
    @ConfigFile.decrypt sampleLib saved ct = Good [x61; x62; x63] /\
    @ConfigFile.decrypt sampleLib saved [x61; x62; x63]
    = Bad (Errorf "ciphertext too short" []).
Proof.
  destruct (@decrypt_recovers_what_encrypt_made sampleLib world [] saved [x61; x62; x63])
    as (Hround & Hshort & _).
  exists (repeat x2a 12 ++ [x61; x62; x63])%list.
  split; [reflexivity |]. split.
  - apply (Hround _ [Sys (RandRead nonceSize) (Good (repeat x2a 12))]
                  sample_opens sample_fills eq_refl).
  - apply Hshort; [reflexivity | unfold nonceSize; cbn; lia].
Defined.

(** Saving the sample configuration and loading the file back. *)
Lemma loadFromFile_reads_what_Save_wrote_witness :
  exists encrypted,
    In (WriteFile (configPath saved) encrypted 384)
       (syscalls (snd (exec world (@ConfigFile.Save sampleLib saved) []))) /\
    fst (exec (worldWith encrypted) (@ConfigFile.loadFromFile sampleLib saved) [])
    = Good saved.
Proof.
  destruct (@loadFromFile_reads_what_Save_wrote sampleLib world [] saved
              (snd (exec world (@ConfigFile.Save sampleLib saved) []))
              sample_opens sample_fills eq_refl)
    as (data & encrypted & Hm & Ht & Hload).
  exists encrypted. split.
  - rewrite Ht. right. right. now left.
  - rewrite (Hload (worldWith encrypted) [] saved eq_refl eq_refl eq_refl).
    vm_compute in Hm. injection Hm as <-. reflexivity.
Defined.

(** No file yet: the defaults, under the path made from the home
    directory. *)
Lemma Load_without_file_gives_defaults_witness :
  exists cfg,
    fst (exec world (@ConfigFile.Load sampleLib) []) = Good cfg /\
    CheckInterval (core cfg) = 60 /\
    IsConfigured cfg = false.
Proof.
  destruct (exec world (@ConfigFile.Load sampleLib) []) as [r t] eqn:Hload.
  vm_compute in Hload. injection Hload as <- <-.
  eexists. split; [reflexivity |].
  destruct (@Load_without_file_gives_defaults sampleLib world []
              (mkApp (mkConfig EmptyString EmptyString 0 [] 60 true) EmptyString 0
                     "/home/u/.config/restic-backup-checker/config.enc" (repeat x00 32)))
    as (Hcore & _ & _ & Hconf & _).
  - vm_compute. reflexivity.
  - vm_compute. reflexivity.
  - split; [reflexivity | exact Hconf].
Defined.

(** A token of nine bytes: eight of them are shown. *)
Lemma maskToken_hides_the_middle_witness :
  maskToken "12345678" = "****" /\
  maskToken "123456789" = "1234****6789" /\
  exists middle, "123456789" = "1234" ++ middle ++ "6789" /\ String.length middle = 1%nat.
Proof.
  destruct (maskToken_hides_the_middle "12345678") as [Hshort _].
  destruct (maskToken_hides_the_middle "123456789") as [_ Hlong].
  split; [apply Hshort; cbn; lia |]. split; [reflexivity |].
  destruct Hlong as (_ & _ & middle & Htoken & _ & _ & Hlen & _); [cbn; lia |].
  exists middle. split; [exact Htoken | exact Hlen].
Defined.

(** The answer [2,9,x,2,0] over two folders: the second folder, twice; the
    entries 9, x and 0 stand for nothing; the entry 2 adds [beta] to paths
    that hold it already. *)
Lemma folder_selection_stays_in_the_listing_witness :
  @chooseFolders sampleStrings folders "2,9,x,2,0" ["old"] = Fine ["old"; "beta"; "beta"] /\
  (exists chosen,
      @selectFolders sampleStrings folders ["2"; "9"; "x"; "2"; "0"] ["old"]
      = Fine (["old"] ++ chosen)%list /\
      incl chosen (map folder_ID folders)) /\
  @picked sampleStrings folders "2" = ["beta"] /\
  @picked sampleStrings folders "9" = [] /\
  @picked sampleStrings folders "x" = [] /\
  @picked sampleStrings folders "0" = [] /\
  @selectFolders sampleStrings folders ["2"] ["old"; "beta"] = Fine ["old"; "beta"; "beta"].
Proof.
  destruct (@folder_selection_stays_in_the_listing sampleStrings folders
              ["2"; "9"; "x"; "2"; "0"] ["old"] "2,9,x,2,0")
    as ((chosen & Hsel & Hincl & _) & _ & _ & _ & Hline & Hvalid & Hdropped).
  split; [rewrite Hline; [reflexivity | discriminate] |].
  split; [exists chosen; split; assumption |].
  destruct (Hvalid "2" 2 eq_refl) as (folder & Hn & Hp & Hagain); [vm_compute; split; discriminate |].
  vm_compute in Hn. injection Hn as <-.
  split; [exact Hp |].
  split; [apply (Hdropped "9"); right; exists 9; split; [reflexivity | right; reflexivity] |].
  split; [apply (Hdropped "x"); now left |].
  split; [apply (Hdropped "0"); right; exists 0; split; [reflexivity | left; reflexivity] |].
  exact Hagain.
Defined.

(** The answer [15] on an interval of 60. *)
Lemma setupMonitoring_keeps_or_sets_a_positive_interval_witness :
  let cfg' := fst (exec world (@setupMonitoring sampleStrings saved) []) in
  CheckInterval (core cfg') = 15 /\ Enabled (core cfg') = true /\ 0 < CheckInterval (core cfg').
Proof.
  destruct (@setupMonitoring_keeps_or_sets_a_positive_interval sampleStrings world [] saved)
    as (Hen & _ & _ & Hpos & _ & Hset & _).
  cbv zeta. split; [| split; [exact Hen | apply Hpos; reflexivity]].
  apply Hset; [vm_compute; discriminate | reflexivity | reflexivity].
Defined.

(** C10, against the code: the token is good for 20 minutes more, so the
    credential check returns no error; [root] is listed and its two clients
    are checked; the listing of [odd] holds a folder without name, and
    [GetSubfolders] panics on it.  [CheckOnce] does not return, and no
    summary is sent. *)
Lemma CheckOnce_panics_on_folder_without_name :
  let m := mkMonitor cfgOdd (Some Sample.bot) in
  let ends := runHost host (CheckOnce Sample.format m) [] in
  @decodeDriveResponse sampleJson "nameless"
  = Good [JObj [("id", JStr "x"); ("folder", JObj [])]] /\
  fst (exec world (@OneDrive.GetSubfolders sampleJson Sample.client "odd") [])
  = Panicked "interface conversion: interface {} is nil, not string" /\
  runHost host (refreshTokenIfNeeded (config m)) []
  = (Completed (None, cfgOdd), [Ev Now Sample.now]) /\
  fst ends = Aborted (GetSubfolders Sample.client "odd")
                     "interface conversion: interface {} is nil, not string" /\
  calls (snd ends) = [Now; GetSubfolders Sample.client "root";
                      GetSubfolders Sample.client "alpha";
                      GetSubfolders Sample.client "beta"] /\
  ~ (forall (w : Host) (m : Monitor) (h : list event),
        (exists cfg t,
            runHost w (refreshTokenIfNeeded (config m)) h = (Completed (None, cfg), t)) ->
        exists m' t, runHost w (CheckOnce Sample.format m) h = (Completed (None, m'), t)).
Proof.
  cbv zeta.
  split; [reflexivity |]. split; [vm_compute; reflexivity |].
  split; [vm_compute; reflexivity |]. split; [vm_compute; reflexivity |].
  split; [vm_compute; reflexivity |].
  intro Hclaim.
  destruct (Hclaim host (mkMonitor cfgOdd (Some Sample.bot)) []) as (m' & t & Ht).
  - exists cfgOdd, [Ev Now Sample.now]. vm_compute. reflexivity.
  - vm_compute in Ht. discriminate Ht.
Qed.

End OnTheSampleLayers.
